(** * The grid state engine of the spreadsheet component

    A shallow embedding of [frontend/src/components/Spreadsheet.tsx]: the
    coordinate codec, the formula engine, the viewport window, the column
    sort comparator, the selection model and the grid store with its
    undo/redo history, followed by the properties proved about them.

    Conventions of the embedding.
    - A JavaScript string is the list of its UTF-16 code units ([jsstring]).
    - Indices, pixel counts and row numbers that the code keeps integral are
      [Z]; every array access says what happens out of range.
    - A JavaScript number held in a cell is an extended rational ([number]):
      exact arithmetic with the two infinities and NaN.  Rounding to binary64
      and the sign of zero are not modelled.
    - The parts of the host that the component only calls ([eval],
      [Number.prototype.toString], the Unicode case mappings) are the fields
      of the class [Platform]; every theorem holds for any instance.
    - React state is a record of the values captured by a render; a handler
      maps the render it closes over to the state of the next render.  Row
      arrays are mutable and shared, so they live in an explicit store. *)

From Stdlib Require Import ZArith QArith Qcanon Qround List Lia Bool String Ascii.
From Equations Require Import Equations.
From stdpp Require Import base option list gmap sets.
Import ListNotations.
Open Scope Z_scope.

(* ===================================================================== *)
(** * JavaScript strings and numbers                                     *)
(* ===================================================================== *)

Module JS.

(** A string is the sequence of its UTF-16 code units. *)
Abbreviation jsstring := (list Z).

(** The code units of a literal. *)
Definition js (s : string) : jsstring :=
  map (fun a => Z.of_N (N_of_ascii a)) (list_ascii_of_string s).

(** [String.fromCharCode(n)]: one code unit, [n] reduced modulo 2^16. *)
Definition fromCharCode (n : Z) : jsstring := [n mod 65536].

Definition isUpper (c : Z) : bool := (65 <=? c) && (c <=? 90).
Definition isLower (c : Z) : bool := (97 <=? c) && (c <=? 122).
Definition isDigit (c : Z) : bool := (48 <=? c) && (c <=? 57).

(** The regular-expression class [\s], which is also what [trim] strips:
    WhiteSpace and LineTerminator of ECMA-262. *)
Definition isSpace (c : Z) : bool :=
  ((9 <=? c) && (c <=? 13)) || (c =? 32) || (c =? 160) || (c =? 5760)
  || ((8192 <=? c) && (c <=? 8202)) || (c =? 8232) || (c =? 8233)
  || (c =? 8239) || (c =? 8287) || (c =? 12288) || (c =? 65279).

Fixpoint dropWhile {A} (p : A -> bool) (l : list A) : list A :=
  match l with
  | [] => []
  | x :: l' => if p x then dropWhile p l' else l
  end.

Fixpoint takeWhile {A} (p : A -> bool) (l : list A) : list A :=
  match l with
  | [] => []
  | x :: l' => if p x then x :: takeWhile p l' else []
  end.

Definition trimStart (s : jsstring) : jsstring := dropWhile isSpace s.
Definition trimEnd (s : jsstring) : jsstring := rev (dropWhile isSpace (rev s)).
Definition trim (s : jsstring) : jsstring := trimEnd (trimStart s).

(** [s.includes(c)] for a one-unit needle. *)
Definition includes (c : Z) (s : jsstring) : bool := existsb (Z.eqb c) s.

(** [s.startsWith(p)]. *)
Fixpoint startsWith (p s : jsstring) : bool :=
  match p, s with
  | [], _ => true
  | _ :: _, [] => false
  | a :: p', b :: s' => (a =? b) && startsWith p' s'
  end.

(** [s.split(c)] for a one-unit separator: never empty, [""] gives [[""]]. *)
Fixpoint split (sep : Z) (s : jsstring) : list jsstring :=
  match s with
  | [] => [[]]
  | c :: s' =>
      if c =? sep then [] :: split sep s'
      else match split sep s' with
           | [] => [[c]]
           | piece :: rest => (c :: piece) :: rest
           end
  end.

(** [a.slice(start, end)] on strings and arrays: a negative bound counts
    from the end, both are clamped to the length, an empty span is empty. *)
Definition sliceIndex (len i : Z) : Z :=
  if i <? 0 then Z.max (len + i) 0 else Z.min i len.

Definition slice {A} (first last : Z) (l : list A) : list A :=
  let len := Z.of_nat (length l) in
  let k := sliceIndex len first in
  let final := sliceIndex len last in
  take (Z.to_nat (final - k)) (drop (Z.to_nat k) l).

(** [a[i]] for a number [i] that holds an integer: [None] is [undefined]. *)
Definition at_ {A} (l : list A) (i : Z) : option A :=
  if i <? 0 then None else l !! Z.to_nat i.

(** [parseInt(s, 10)] on a string of decimal digits. *)
Definition parseInt (digits : jsstring) : Z :=
  fold_left (fun n c => n * 10 + (c - 48)) digits 0.

(** The decimal digits of a non-negative integer, most significant first. *)
Equations? digitsOf (n : Z) (acc : jsstring) : jsstring
  by wf (Z.to_nat n) lt :=
  digitsOf n acc with Z_lt_ge_dec n 10 := {
    | left _ => (48 + n) :: acc
    | right _ => digitsOf (n / 10) ((48 + n mod 10) :: acc) }.
Proof.
  assert (n / 10 < n) by (apply Z.div_lt; lia).
  assert (0 <= n / 10) by (apply Z.div_pos; lia).
  lia.
Qed.

(** [String(n)] and [`${n}`] for a number that holds an integer (exact below
    10^21, where JavaScript switches to exponent notation). *)
Definition intToString (n : Z) : jsstring :=
  if n <? 0 then 45 :: digitsOf (- n) [] else digitsOf n [].

(** The comparison [a < b] of two strings: lexicographic on code units. *)
Fixpoint strLt (a b : jsstring) : bool :=
  match a, b with
  | _, [] => false
  | [], _ :: _ => true
  | x :: a', y :: b' => (x <? y) || ((x =? y) && strLt a' b')
  end.

End JS.
Import JS.

(* ===================================================================== *)
(** * Numbers and cell values                                            *)
(* ===================================================================== *)

(** A JavaScript number: a finite value, [Infinity], [-Infinity] or [NaN]. *)
Inductive number :=
  | Fin (q : Qc)
  | PosInfinity
  | NegInfinity
  | NaN.

#[global] Instance number_eq_dec : EqDecision number.
Proof. solve_decision. Defined.

Definition ofZ (z : Z) : number := Fin (Q2Qc (inject_Z z)).

Module Num.

Definition neg (a : number) : number :=
  match a with
  | Fin x => Fin (- x)%Qc
  | PosInfinity => NegInfinity
  | NegInfinity => PosInfinity
  | NaN => NaN
  end.

(** The exact sum of two numbers.  The language's [a + b] is this sum rounded
    to binary64, which is the host's [numberAdd] below; the exact sum serves
    [sub], of which the sort reads the sign only, and the hosts of the
    examples, which add integers that binary64 adds exactly. *)
Definition add (a b : number) : number :=
  match a, b with
  | NaN, _ | _, NaN => NaN
  | Fin x, Fin y => Fin (x + y)%Qc
  | PosInfinity, NegInfinity | NegInfinity, PosInfinity => NaN
  | PosInfinity, _ | _, PosInfinity => PosInfinity
  | NegInfinity, _ | _, NegInfinity => NegInfinity
  end.

(** [a - b]: the exact difference, which has the sign of the rounded one. *)
Definition sub (a b : number) : number := add a (neg b).

(** The exact quotient of two numbers, a zero divisor being the positive
    zero; the language's [a / b] is its rounding, the host's [numberDivide]. *)
Definition div (a b : number) : number :=
  match a, b with
  | NaN, _ | _, NaN => NaN
  | Fin x, Fin y =>
      if decide (y = 0%Qc) then
        match (x ?= 0)%Qc with Gt => PosInfinity | Lt => NegInfinity | Eq => NaN end
      else Fin (x / y)%Qc
  | Fin _, _ => Fin 0%Qc
  | _, PosInfinity | _, NegInfinity => NaN
  | _, Fin y =>
      match (y ?= 0)%Qc with Lt => neg a | _ => a end
  end.

(** The order of the non-NaN numbers. *)
Definition ltb (a b : number) : bool :=
  match a, b with
  | NaN, _ | _, NaN => false
  | Fin x, Fin y => match (x ?= y)%Qc with Lt => true | _ => false end
  | NegInfinity, NegInfinity | PosInfinity, _ | _, NegInfinity => false
  | NegInfinity, _ | _, PosInfinity => true
  end.

(** [Math.max(a, b)] and [Math.min(a, b)]: NaN if either argument is. *)
Definition max (a b : number) : number :=
  match a, b with
  | NaN, _ | _, NaN => NaN
  | _, _ => if ltb a b then b else a
  end.

Definition min (a b : number) : number :=
  match a, b with
  | NaN, _ | _, NaN => NaN
  | _, _ => if ltb b a then b else a
  end.

(** How [Array.prototype.sort] reads a comparator's result: negative, zero
    (which NaN counts as) or positive. *)
Definition sign (a : number) : comparison :=
  match a with
  | Fin x => (x ?= 0)%Qc
  | PosInfinity => Gt
  | NegInfinity => Lt
  | NaN => Eq
  end.

(** ToBoolean: zero and NaN are falsy. *)
Definition truthy (a : number) : bool :=
  match a with
  | Fin x => if decide (x = 0%Qc) then false else true
  | NaN => false
  | _ => true
  end.

End Num.

(** What a cell's [value] can hold: [string | number] by its declared type,
    and [null], which is what a JSON copy makes of a non-finite number. *)
Inductive jsval :=
  | VNum (n : number)
  | VStr (s : jsstring)
  | VNull.

#[global] Instance jsval_eq_dec : EqDecision jsval.
Proof. solve_decision. Defined.

(** [typeof v === 'number']. *)
Definition isNumber (v : jsval) : bool :=
  match v with VNum _ => true | _ => false end.

(** ToBoolean, as used by [v || d]. *)
Definition truthy (v : jsval) : bool :=
  match v with
  | VNum n => Num.truthy n
  | VStr s => match s with [] => false | _ => true end
  | VNull => false
  end.

(** [v || d]. *)
Definition orElse (v d : jsval) : jsval := if truthy v then v else d.

(** The host functions the component calls but does not define. *)
Class Platform := {
  (** [eval(s)]: [None] when it throws.  Its result is taken within the
      declared return type [number | string] of [evaluateFormula]. *)
  eval : jsstring -> option jsval;
  (** [Number.prototype.toString]. *)
  numberToString : number -> jsstring;
  (** [String.prototype.toUpperCase] and [toLowerCase]. *)
  toUpperCase : jsstring -> jsstring;
  toLowerCase : jsstring -> jsstring;
  (** [a + b] and [a / b] on numbers: binary64 arithmetic, each result
      rounded, so that the sum is not associative. *)
  numberAdd : number -> number -> number;
  numberDivide : number -> number -> number }.

(** [String(v)]. *)
Definition toString `{Platform} (v : jsval) : jsstring :=
  match v with
  | VNum n => numberToString n
  | VStr s => s
  | VNull => js "null"
  end.

(** The integers [lo, lo+1, ..., hi] of a counting loop. *)
Definition zrange (lo hi : Z) : list Z :=
  map (fun i => lo + Z.of_nat i) (seq 0 (Z.to_nat (hi - lo + 1))).

(* ===================================================================== *)
(** * Data model                                                         *)
(* ===================================================================== *)

Record Column := { name : jsstring; key : jsstring }.

Record CellPosition := { row : Z; col : Z }.

Record CellRange := { range_start : CellPosition; range_end : CellPosition }.

Inductive Alignment := AlignLeft | AlignCenter | AlignRight.

(** Every field of a format is optional. *)
Record CellFormat := {
  bold : option bool;
  italic : option bool;
  alignment : option Alignment;
  backgroundColor : option jsstring }.

(** [format] and [formula] are optional; an absent key and a key holding
    [undefined] are both [None]. *)
Record CellData := {
  value : jsval;
  format : option CellFormat;
  formula : option jsstring }.

#[global] Instance Column_eq_dec : EqDecision Column.
Proof. solve_decision. Defined.
#[global] Instance CellPosition_eq_dec : EqDecision CellPosition.
Proof. solve_decision. Defined.
#[global] Instance CellRange_eq_dec : EqDecision CellRange.
Proof. solve_decision. Defined.
#[global] Instance Alignment_eq_dec : EqDecision Alignment.
Proof. solve_decision. Defined.
#[global] Instance CellFormat_eq_dec : EqDecision CellFormat.
Proof. solve_decision. Defined.
#[global] Instance CellData_eq_dec : EqDecision CellData.
Proof. solve_decision. Defined.

(** The format [{}] and the cell [{ value: '', format: {} }]. *)
Definition emptyFormat : CellFormat :=
  {| bold := None; italic := None; alignment := None; backgroundColor := None |}.
Definition emptyCell : CellData :=
  {| value := VStr []; format := Some emptyFormat; formula := None |}.

(* ===================================================================== *)
(** * Coordinate codec                                                   *)
(* ===================================================================== *)

(** [columnLetterToIndex]: A=0, B=1, Z=25, AA=26. *)
Definition columnLetterToIndex (letter : jsstring) : Z :=
  fold_left (fun result c => result * 26 + (c - 65 + 1)) letter 0 - 1.

(** The loop of [getColumnLetter]: while [index >= 0], prepend the letter of
    [index % 26] and continue with [Math.floor(index / 26) - 1]. *)
Equations? getColumnLetter_loop (index : Z) (result : jsstring) : jsstring
  by wf (Z.to_nat (index + 1)) lt :=
  getColumnLetter_loop index result with Z_le_gt_dec 0 index := {
    | left _ =>
        getColumnLetter_loop (index / 26 - 1)
          (fromCharCode (65 + Z.rem index 26) ++ result)
    | right _ => result }.
Proof.
  assert (index / 26 <= index) by (apply Z.div_le_upper_bound; lia). lia.
Qed.

Definition getColumnLetter (index : Z) : jsstring := getColumnLetter_loop index [].

(** [getCellReference]: the column is the single character of code
    [65 + col]; the header row is row 1 and data row [r] is row [r + 2]. *)
Definition getCellReference (row col : Z) : jsstring :=
  let colLetter := fromCharCode (65 + col) in
  let rowNumber := if row =? -1 then 1 else row + 2 in
  colLetter ++ intToString rowNumber.

(** The match of [/^([A-Z]+)(\d+)$/]: the column letters and the digits. *)
Definition matchCellRef (s : jsstring) : option (jsstring * jsstring) :=
  let letters := takeWhile isUpper s in
  let digits := dropWhile isUpper s in
  match letters, digits with
  | _ :: _, _ :: _ => if forallb isDigit digits then Some (letters, digits) else None
  | _, _ => None
  end.

(** The decoding of a reference that [getCellValue] performs before it looks
    the cell up: the column index of the letters, and for the row the header
    sentinel [-1] when the row number is 1, [rowNum - 2] otherwise. *)
Definition parseCellRef (cellRef : jsstring) : option CellPosition :=
  match matchCellRef cellRef with
  | None => None
  | Some (colLetter, digits) =>
      let rowNum := parseInt digits in
      let colIndex := columnLetterToIndex colLetter in
      let rowIndex := rowNum - 2 in
      Some {| row := if rowNum =? 1 then -1 else rowIndex; col := colIndex |}
  end.

(* ===================================================================== *)
(** * Formula engine                                                     *)
(* ===================================================================== *)

(** What one call of [evaluateFormula] did: the value it returned, and the
    strings it handed to [eval], oldest first. *)
Record Run (A : Type) := mkRun { result : A; evalCalls : list jsstring }.
Arguments mkRun {A} _ _.
Arguments result {A} _.
Arguments evalCalls {A} _.

(** A return that evaluates nothing. *)
Definition ret {A} (a : A) : Run A := mkRun a [].

(** The error marker. *)
Definition ERROR : jsval := VStr (js "#ERROR!").

(** [/^[A-Z0-9+\-*/.\s]+$/.test(s)]. *)
Definition isFormulaChar (c : Z) : bool :=
  isUpper c || isDigit c || (c =? 43) || (c =? 45) || (c =? 42) || (c =? 47)
  || (c =? 46) || isSpace c.
Definition testArithmeticFormula (s : jsstring) : bool :=
  match s with [] => false | _ => forallb isFormulaChar s end.

(** [/^[0-9+\-*/.() ]+$/.test(s)]: the check in front of [eval]. *)
Definition isExpressionChar (c : Z) : bool :=
  isDigit c || (c =? 43) || (c =? 45) || (c =? 42) || (c =? 47) || (c =? 46)
  || (c =? 40) || (c =? 41) || (c =? 32).
Definition testExpression (s : jsstring) : bool :=
  match s with [] => false | _ => forallb isExpressionChar s end.

(** The text [/([A-Z]+\d+)/] matches at the very start of [s], if any: the
    longest run of letters followed by the longest run of digits. *)
Definition refAtStart (s : jsstring) : option jsstring :=
  let letters := takeWhile isUpper s in
  let digits := takeWhile isDigit (dropWhile isUpper s) in
  match letters, digits with
  | _ :: _, _ :: _ => Some (letters ++ digits)
  | _, _ => None
  end.

(** [s.replace(/([A-Z]+\d+)/g, f)]: at each position, left to right, a match
    is replaced by [f] of it and the scan resumes behind it; [skip] counts
    the units of the current match still to pass over. *)
Fixpoint replaceRefs_from (skip : nat) (f : jsstring -> jsstring) (s : jsstring)
  : jsstring :=
  match s with
  | [] => []
  | c :: s' =>
      match skip with
      | S k => replaceRefs_from k f s'
      | O =>
          match refAtStart s with
          | Some m => f m ++ replaceRefs_from (length m - 1) f s'
          | None => c :: replaceRefs_from 0 f s'
          end
      end
  end.
Definition replaceRefs := replaceRefs_from 0.

Section Formula.
Context `{Platform}.
(** [data.columns] and [gridData] as the callbacks close over them. *)
Variable columns : list Column.
Variable gridData : list (list CellData).

(** [getCellValue]: row 1 is the header, row [n >= 2] is data row [n - 2];
    anything malformed, out of range, empty or falsy reads as [0]. *)
Definition getCellValue (cellRef : jsstring) : jsval :=
  match matchCellRef cellRef with
  | None => VNum (ofZ 0)
  | Some (colLetter, digits) =>
      let rowNum := parseInt digits in
      let colIndex := columnLetterToIndex colLetter in
      let rowIndex := rowNum - 2 in
      if rowNum =? 1 then
        match at_ columns colIndex with
        | Some c => orElse (VStr (name c)) (VStr [])
        | None => VStr []
        end
      else
        match at_ gridData rowIndex with
        | Some cells =>
            if (0 <=? colIndex) && (colIndex <? Z.of_nat (length cells)) then
              match at_ cells colIndex with
              | Some cell => orElse (value cell) (VNum (ofZ 0))
              | None => VNum (ofZ 0)
              end
            else VNum (ofZ 0)
        | None => VNum (ofZ 0)
        end
  end.

(** [getCellsInRange]: one reference, or the rectangle between two
    references, row by row; a malformed range is empty. *)
Definition getCellsInRange (range : jsstring) : list jsval :=
  if negb (includes 58 range) then [getCellValue range]
  else
    match split 58 range with
    | startCell :: endCell :: _ =>
        match endCell with
        | [] => []
        | _ :: _ =>
            match matchCellRef startCell, matchCellRef endCell with
            | Some (startLetters, startDigits), Some (endLetters, endDigits) =>
                let startColIndex := columnLetterToIndex startLetters in
                let startRowNum := parseInt startDigits in
                let endColIndex := columnLetterToIndex endLetters in
                let endRowNum := parseInt endDigits in
                let minCol := Z.min startColIndex endColIndex in
                let maxCol := Z.max startColIndex endColIndex in
                let minRow := Z.min startRowNum endRowNum in
                let maxRow := Z.max startRowNum endRowNum in
                flat_map (fun rowNum =>
                  map (fun colIndex =>
                         let colLetter := fromCharCode (65 + colIndex) in
                         getCellValue (colLetter ++ intToString rowNum))
                      (zrange minCol maxCol))
                  (zrange minRow maxRow)
            | _, _ => []
            end
        end
    | _ => []
    end.

(** The arguments of an aggregate whose name and parenthesis take
    [prefix] units: [upperFormula.slice(prefix, -1).split(',')], each
    trimmed and expanded. *)
Definition aggregateArgs (prefix : Z) (upperFormula : jsstring) : list (list jsval) :=
  map (fun arg => getCellsInRange (trim arg)) (split 44 (slice prefix (-1) upperFormula)).

(** [values.filter(val => typeof val === 'number')]. *)
Definition numbersOf (values : list jsval) : list number :=
  omap (fun v => match v with VNum n => Some n | _ => None end) values.

(** The loop of the [SUM] branch over the expanded arguments: each adds the
    sum of its values, a value that is not a number counting as 0. *)
Definition evalSUM (args : list (list jsval)) : number :=
  fold_left (fun sum values =>
    numberAdd sum
      (fold_left (fun acc val =>
         numberAdd acc (match val with VNum n => n | _ => ofZ 0 end)) values (ofZ 0)))
    args (ofZ 0).

(** The [AVERAGE] branch: [sum] and [count] over the numbers of every
    argument, then [count > 0 ? sum / count : 0]. *)
Definition evalAVERAGE (args : list (list jsval)) : number :=
  let '(sum, count) :=
    fold_left (fun '(sum, count) values =>
      let numericValues := numbersOf values in
      (numberAdd sum (fold_left numberAdd numericValues (ofZ 0)),
       count + Z.of_nat (length numericValues)))
      args (ofZ 0, 0) in
  if 0 <? count then numberDivide sum (ofZ count) else ofZ 0.

(** The [COUNT] branch: the numbers of every argument are counted. *)
Definition evalCOUNT (args : list (list jsval)) : number :=
  ofZ (fold_left (fun count values => count + Z.of_nat (length (numbersOf values)))
         args 0).

(** The [MAX] branch: [max] starts at [-Infinity]; an argument with numbers
    makes it [Math.max(max, ...numericValues)]; [-Infinity] is returned as 0. *)
Definition evalMAX (args : list (list jsval)) : number :=
  let max :=
    fold_left (fun max values =>
      let numericValues := numbersOf values in
      match numericValues with
      | [] => max
      | _ :: _ => fold_left Num.max numericValues max
      end) args NegInfinity in
  if decide (max = NegInfinity) then ofZ 0 else max.

(** The [MIN] branch, likewise from [Infinity] with [Math.min]. *)
Definition evalMIN (args : list (list jsval)) : number :=
  let min :=
    fold_left (fun min values =>
      let numericValues := numbersOf values in
      match numericValues with
      | [] => min
      | _ :: _ => fold_left Num.min numericValues min
      end) args PosInfinity in
  if decide (min = PosInfinity) then ofZ 0 else min.

(** [evaluateFormula], on the formula without its leading [=].  The inner
    [try] turns a throwing [eval] into the error marker; nothing else in the
    body can throw in this model, so the outer [catch] has nothing to do. *)
Definition evaluateFormula (formula : jsstring) : Run jsval :=
  let upperFormula := trim (toUpperCase formula) in
  if negb (includes 40 upperFormula) && testArithmeticFormula upperFormula then
    let expression :=
      replaceRefs (fun m =>
        match getCellValue m with
        | VNum n => numberToString n
        | _ => js "0"
        end) upperFormula in
    if negb (testExpression expression) then ret ERROR
    else
      mkRun (match eval expression with
             | Some v => orElse v (VNum (ofZ 0))
             | None => ERROR
             end) [expression]
  else if startsWith (js "SUM(") upperFormula then
    ret (VNum (evalSUM (aggregateArgs 4 upperFormula)))
  else if startsWith (js "AVERAGE(") upperFormula then
    ret (VNum (evalAVERAGE (aggregateArgs 8 upperFormula)))
  else if startsWith (js "COUNT(") upperFormula then
    ret (VNum (evalCOUNT (aggregateArgs 6 upperFormula)))
  else if startsWith (js "MAX(") upperFormula then
    ret (VNum (evalMAX (aggregateArgs 4 upperFormula)))
  else if startsWith (js "MIN(") upperFormula then
    ret (VNum (evalMIN (aggregateArgs 4 upperFormula)))
  else if bool_decide (is_Some (matchCellRef upperFormula)) then
    ret (getCellValue upperFormula)
  else ret ERROR.

End Formula.

(* ===================================================================== *)
(** * Viewport window                                                    *)
(* ===================================================================== *)

Definition ROW_HEIGHT : Z := 40.
Definition BUFFER_SIZE : Z := 10.

Record Viewport (A : Type) := {
  visibleRows : list A;
  totalHeight : Z;
  offsetY : Z;
  startIndex : Z;
  endIndex : Z }.
Arguments visibleRows {A} _.
Arguments totalHeight {A} _.
Arguments offsetY {A} _.
Arguments startIndex {A} _.
Arguments endIndex {A} _.

(** The virtual-scrolling memo.  [scrollTop] and [containerHeight] are pixel
    measures read from the scroll container, not necessarily integral. *)
Definition virtualScroll {A} (filteredData : list A) (scrollTop containerHeight : Q)
  : Viewport A :=
  let totalRows := Z.of_nat (length filteredData) in
  let visibleRowCount :=
    Z.min totalRows (Qceiling (containerHeight / inject_Z ROW_HEIGHT) + BUFFER_SIZE * 2) in
  let startIndex := Z.max 0 (Qfloor (scrollTop / inject_Z ROW_HEIGHT) - BUFFER_SIZE) in
  let endIndex := Z.min totalRows (startIndex + visibleRowCount) in
  {| visibleRows := slice startIndex endIndex filteredData;
     totalHeight := totalRows * ROW_HEIGHT;
     offsetY := startIndex * ROW_HEIGHT;
     startIndex := startIndex;
     endIndex := endIndex |}.

(** The height of the spacer row above the visible rows, rendered only when
    [startIndex > 0], and of the one below, rendered only when
    [endIndex < filteredData.length]; an absent row takes no height. *)
Definition leadingSpacer {A} (v : Viewport A) : Z :=
  if 0 <? startIndex v then offsetY v else 0.
Definition trailingSpacer {A} (filteredData : list A) (v : Viewport A) : Z :=
  if endIndex v <? Z.of_nat (length filteredData)
  then (Z.of_nat (length filteredData) - endIndex v) * ROW_HEIGHT else 0.

(* ===================================================================== *)
(** * Column sort                                                        *)
(* ===================================================================== *)

Inductive SortDirection := asc | desc.

#[global] Instance SortDirection_eq_dec : EqDecision SortDirection.
Proof. solve_decision. Defined.

(** The comparator of [handleSort] (and of the [sortedData] memo) on the
    two cell values it reads. *)
Definition compareValues `{Platform} (direction : SortDirection) (aVal bVal : jsval)
  : number :=
  match aVal, bVal with
  | VNum a, VNum b =>
      match direction with asc => Num.sub a b | desc => Num.sub b a end
  | _, _ =>
      let aStr := toLowerCase (toString aVal) in
      let bStr := toLowerCase (toString bVal) in
      match direction with
      | asc => if strLt aStr bStr then ofZ (-1) else if strLt bStr aStr then ofZ 1 else ofZ 0
      | desc => if strLt bStr aStr then ofZ (-1) else if strLt aStr bStr then ofZ 1 else ofZ 0
      end
  end.

(** [Array.prototype.sort] with a comparator: a stable sort, here by
    insertion from the right, an element going in front of the sorted rest
    unless the rest starts with a strictly smaller one.  (For a comparator
    that is not a consistent order the language leaves the result to the
    implementation; this is one admissible result.) *)
Fixpoint insertSorted {A} (cmp : A -> A -> number) (x : A) (l : list A) : list A :=
  match l with
  | [] => [x]
  | y :: l' =>
      match Num.sign (cmp y x) with
      | Lt => y :: insertSorted cmp x l'
      | _ => x :: l
      end
  end.
Definition sortWith {A} (cmp : A -> A -> number) (l : list A) : list A :=
  foldr (insertSorted cmp) [] l.

(* ===================================================================== *)
(** * Selection model                                                    *)
(* ===================================================================== *)

Record MouseEvent := { ctrlKey : bool; metaKey : bool; shiftKey : bool }.

Record SelectionState := {
  selectedCell : option CellPosition;
  selectedRange : option CellRange;
  selectedCells : gset jsstring;
  editingCell : option CellPosition }.

(** The key [`${row},${col}`] of a cell in [selectedCells]. *)
Definition cellKey (row col : Z) : jsstring :=
  intToString row ++ js "," ++ intToString col.

(** The keys of the rectangle filled by the loops over [r] and [c]. *)
Definition rectangleKeys (startRow endRow startCol endCol : Z) : gset jsstring :=
  list_to_set
    (flat_map (fun r => map (fun c => cellKey r c) (zrange startCol endCol))
       (zrange startRow endRow)).

(** [handleCellClick]. *)
Definition handleCellClick (row col : Z) (e : MouseEvent) (s : SelectionState)
  : SelectionState :=
  let key := cellKey row col in
  if ctrlKey e || metaKey e then
    let newSelectedCells :=
      if bool_decide (key ∈ selectedCells s)
      then selectedCells s ∖ {[ key ]}
      else selectedCells s ∪ {[ key ]} in
    {| selectedCells := newSelectedCells;
       selectedCell := Some {| row := row; col := col |};
       selectedRange := None;
       editingCell := None |}
  else
    match shiftKey e, selectedCell s with
    | true, Some {| row := anchorRow; col := anchorCol |} =>
        let startRow := Z.min anchorRow row in
        let endRow := Z.max anchorRow row in
        let startCol := Z.min anchorCol col in
        let endCol := Z.max anchorCol col in
        {| selectedCells := rectangleKeys startRow endRow startCol endCol;
           selectedCell := Some {| row := row; col := col |};
           selectedRange :=
             Some {| range_start := {| row := startRow; col := startCol |};
                     range_end := {| row := endRow; col := endCol |} |};
           editingCell := None |}
    | _, _ =>
        {| selectedCell := Some {| row := row; col := col |};
           selectedCells := {[ key ]};
           selectedRange := None;
           editingCell := None |}
    end.

(* ===================================================================== *)
(** * Grid store and history                                             *)
(* ===================================================================== *)

(** Row arrays are objects: the state holds references to them, and a write
    through one reference is seen through every other.  The store maps a
    reference to the current content of its row; cells are never written in
    place, only replaced, so they are plain values. *)
Abbreviation loc := nat.
Abbreviation Store := (list (list CellData)).

Definition rowAt (σ : Store) (l : loc) : list CellData := default [] (σ !! l).

(** The cell matrix a list of row references denotes. *)
Definition cellsOf (σ : Store) (rows : list loc) : list (list CellData) :=
  map (rowAt σ) rows.

(** Fresh row arrays. *)
Definition allocRows (σ : Store) (rows : list (list CellData)) : Store * list loc :=
  (σ ++ rows, seq (length σ) (length rows)).

(** [JSON.parse(JSON.stringify(x))]: a structural copy in which a non-finite
    number has become [null]. *)
Definition jsonValue (v : jsval) : jsval :=
  match v with
  | VNum (Fin q) => VNum (Fin q)
  | VNum _ => VNull
  | _ => v
  end.
Definition jsonCell (c : CellData) : CellData :=
  {| value := jsonValue (value c); format := format c; formula := formula c |}.
Definition jsonGrid (g : list (list CellData)) : list (list CellData) :=
  map (map jsonCell) g.

Record HistoryState := {
  hist_gridData : list (list CellData);
  hist_columns : list Column }.

(** The state cells of the component that the grid operations use, with the
    values one render captured. *)
Record GridState := {
  gridData : list loc;
  history : list HistoryState;
  historyIndex : Z;
  columnWidths : list Z;
  rowHeights : list Z;
  sortColumn : option Z;
  sortDirection : SortDirection;
  draggedColumn : option Z;
  dragOverColumn : option Z }.

Definition setGridData (g : list loc) (s : GridState) : GridState :=
  {| gridData := g; history := history s; historyIndex := historyIndex s;
     columnWidths := columnWidths s; rowHeights := rowHeights s;
     sortColumn := sortColumn s; sortDirection := sortDirection s;
     draggedColumn := draggedColumn s; dragOverColumn := dragOverColumn s |}.
Definition setHistory (h : list HistoryState) (s : GridState) : GridState :=
  {| gridData := gridData s; history := h; historyIndex := historyIndex s;
     columnWidths := columnWidths s; rowHeights := rowHeights s;
     sortColumn := sortColumn s; sortDirection := sortDirection s;
     draggedColumn := draggedColumn s; dragOverColumn := dragOverColumn s |}.
Definition setHistoryIndex (i : Z) (s : GridState) : GridState :=
  {| gridData := gridData s; history := history s; historyIndex := i;
     columnWidths := columnWidths s; rowHeights := rowHeights s;
     sortColumn := sortColumn s; sortDirection := sortDirection s;
     draggedColumn := draggedColumn s; dragOverColumn := dragOverColumn s |}.
Definition setColumnWidths (w : list Z) (s : GridState) : GridState :=
  {| gridData := gridData s; history := history s; historyIndex := historyIndex s;
     columnWidths := w; rowHeights := rowHeights s;
     sortColumn := sortColumn s; sortDirection := sortDirection s;
     draggedColumn := draggedColumn s; dragOverColumn := dragOverColumn s |}.
Definition setRowHeights (h : list Z) (s : GridState) : GridState :=
  {| gridData := gridData s; history := history s; historyIndex := historyIndex s;
     columnWidths := columnWidths s; rowHeights := h;
     sortColumn := sortColumn s; sortDirection := sortDirection s;
     draggedColumn := draggedColumn s; dragOverColumn := dragOverColumn s |}.
Definition setSort (c : option Z) (d : SortDirection) (s : GridState) : GridState :=
  {| gridData := gridData s; history := history s; historyIndex := historyIndex s;
     columnWidths := columnWidths s; rowHeights := rowHeights s;
     sortColumn := c; sortDirection := d;
     draggedColumn := draggedColumn s; dragOverColumn := dragOverColumn s |}.
Definition setDrag (dragged over : option Z) (s : GridState) : GridState :=
  {| gridData := gridData s; history := history s; historyIndex := historyIndex s;
     columnWidths := columnWidths s; rowHeights := rowHeights s;
     sortColumn := sortColumn s; sortDirection := sortDirection s;
     draggedColumn := dragged; dragOverColumn := over |}.

(** The calls a handler makes to the callbacks of its parent. *)
Inductive Callback :=
  | onHeaderChange (index : Z) (newName : jsstring)
  | onReorderColumns (sourceIndex targetIndex : Z).

(** What a handler leaves behind: the state of the next render, the store,
    the callbacks it called, and whether it ended in a [TypeError] (the
    state updates queued before the error still apply). *)
Record Outcome := {
  next : GridState;
  store : Store;
  callbacks : list Callback;
  threw : bool }.

Definition finished (s : GridState) (σ : Store) : Outcome :=
  {| next := s; store := σ; callbacks := []; threw := false |}.
Definition thrown (s : GridState) (σ : Store) : Outcome :=
  {| next := s; store := σ; callbacks := []; threw := true |}.

Section Handlers.
(** [data.columns] as the render received it. *)
Variable columns : list Column.

(** [saveToHistory], a callback of the render [c]: it reads [gridData],
    [history] and [historyIndex] as [c] captured them, through the store as
    it is when the call is made, and queues its two updates on [s]. *)
Definition saveToHistory (c : GridState) (σ : Store) (s : GridState) : GridState :=
  let newHistory :=
    slice 0 (historyIndex c + 1) (history c)
    ++ [ {| hist_gridData := jsonGrid (cellsOf σ (gridData c));
            hist_columns := columns |} ] in
  setHistoryIndex (Z.of_nat (length newHistory) - 1) (setHistory newHistory s).

(** The effect that records the initial state once the component is
    mounted. *)
Definition initHistory (c : GridState) (σ : Store) : Outcome :=
  match history c with
  | [] =>
      finished (setHistoryIndex 0
              (setHistory [ {| hist_gridData := jsonGrid (cellsOf σ (gridData c));
                               hist_columns := columns |} ] c)) σ
  | _ :: _ => finished c σ
  end.

(** The renames a restored snapshot asks of the parent: one per column
    whose recorded name differs from the current one. *)
Definition restoreNames (recorded : list Column) : list Callback :=
  mjoin (imap (fun index col =>
           match columns !! index with
           | Some current =>
               if decide (name col = name current) then []
               else [onHeaderChange (Z.of_nat index) (name col)]
           | None => [onHeaderChange (Z.of_nat index) (name col)]
           end) recorded).

(** Replace the grid by a copy of a snapshot and move the cursor. *)
Definition restore (target : Z) (snapshot : HistoryState) (c : GridState) (σ : Store)
  : Outcome :=
  let '(σ', rows) := allocRows σ (jsonGrid (hist_gridData snapshot)) in
  {| next := setHistoryIndex target (setGridData rows c);
     store := σ';
     callbacks := restoreNames (hist_columns snapshot);
     threw := false |}.

(** [undo]: nothing at the first entry; else the grid becomes a copy of the
    entry before the cursor.  (With a cursor beyond the entries, which no
    handler leaves behind, reading the missing entry throws.) *)
Definition undo (c : GridState) (σ : Store) : Outcome :=
  if 0 <? historyIndex c then
    match at_ (history c) (historyIndex c - 1) with
    | Some previousState => restore (historyIndex c - 1) previousState c σ
    | None => thrown c σ
    end
  else finished c σ.

(** [redo]: nothing at the last entry; else the grid becomes a copy of the
    entry after the cursor. *)
Definition redo (c : GridState) (σ : Store) : Outcome :=
  if historyIndex c <? Z.of_nat (length (history c)) - 1 then
    match at_ (history c) (historyIndex c + 1) with
    | Some nextState => restore (historyIndex c + 1) nextState c σ
    | None => thrown c σ
    end
  else finished c σ.

(** [{ ...old, ...patch }] on formats. *)
Definition mergeFormat (old : option CellFormat) (patch : CellFormat) : CellFormat :=
  let old := default emptyFormat old in
  {| bold := match bold patch with Some b => Some b | None => bold old end;
     italic := match italic patch with Some b => Some b | None => italic old end;
     alignment :=
       match alignment patch with Some a => Some a | None => alignment old end;
     backgroundColor :=
       match backgroundColor patch with
       | Some b => Some b
       | None => backgroundColor old
       end |}.

(** [updated = [...gridData]; updated[row][col] = f(updated[row][col])]:
    the outer array is copied, the row array is the shared one, so the
    write lands in the store.  [None] when [updated[row]] or
    [updated[row][col]] is [undefined], where reading a property of it
    throws. *)
Definition writeCell (rows : list loc) (σ : Store) (row col : Z)
    (f : CellData -> CellData) : option Store :=
  match at_ rows row with
  | None => None
  | Some l =>
      match at_ (rowAt σ l) col with
      | None => None
      | Some cell => Some (<[ l := <[ Z.to_nat col := f cell ]> (rowAt σ l) ]> σ)
      end
  end.

(** [formatCell]: the cell is replaced by one with the patch merged into
    its format, then the state is saved. *)
Definition formatCell (row col : Z) (patch : CellFormat) (c : GridState) (σ : Store)
  : Outcome :=
  match writeCell (gridData c) σ row col (fun cell =>
          {| value := value cell;
             formula := formula cell;
             format := Some (mergeFormat (format cell) patch) |}) with
  | None => thrown c σ
  | Some σ' => finished (saveToHistory c σ' (setGridData (gridData c) c)) σ'
  end.

(** [clearCell]: the cell is replaced by [{ value: '', format }] with the
    format it had, then the state is saved. *)
Definition clearCell (row col : Z) (c : GridState) (σ : Store) : Outcome :=
  match writeCell (gridData c) σ row col (fun cell =>
          {| value := VStr []; format := format cell; formula := None |}) with
  | None => thrown c σ
  | Some σ' => finished (saveToHistory c σ' (setGridData (gridData c) c)) σ'
  end.

(** The [Delete] / [Backspace] case of [handleKeyDown]: no modifier key is
    held, no cell is being edited and the event does not come from an
    input. *)
Definition handleKeyDown_Delete (selected : option CellPosition) (c : GridState)
    (σ : Store) : Outcome :=
  match selected with
  | None => finished c σ
  | Some {| row := row; col := col |} =>
      if row =? -1 then finished c σ else clearCell row col c σ
  end.

(** The value the sort comparator reads in a row, [a[colIndex].value]. *)
Definition sortKey (σ : Store) (colIndex : Z) (a : loc) : option jsval :=
  value <$> at_ (rowAt σ a) colIndex.

(** [handleSort].  With two rows or more the comparator reads
    [a[colIndex].value] in every row, which throws where the row has no
    such cell; the sort state is queued before that. *)
Definition handleSort `{Platform} (colIndex : Z) (c : GridState) (σ : Store)
  : Outcome :=
  let newDirection :=
    if bool_decide (sortColumn c = Some colIndex) && bool_decide (sortDirection c = asc)
    then desc else asc in
  let s := setSort (Some colIndex) newDirection c in
  if (2 <=? Z.of_nat (length (gridData c)))
     && negb (forallb (fun a => bool_decide (is_Some (sortKey σ colIndex a))) (gridData c))
  then thrown s σ
  else
    let sorted :=
      sortWith (fun a b =>
        compareValues newDirection
          (default VNull (sortKey σ colIndex a))
          (default VNull (sortKey σ colIndex b))) (gridData c) in
    finished (saveToHistory c σ (setGridData sorted s)) σ.

(** [const [x] = a.splice(start, 1)] and [a.splice(start, 0, x)]; a negative
    [start] counts from the end and both are clamped to the length. *)
Definition spliceOut {A} (start : Z) (l : list A) : option (A * list A) :=
  let k := Z.to_nat (sliceIndex (Z.of_nat (length l)) start) in
  match l !! k with
  | Some x => Some (x, take k l ++ drop (S k) l)
  | None => None
  end.
Definition spliceIn {A} (start : Z) (x : A) (l : list A) : list A :=
  let k := Z.to_nat (sliceIndex (Z.of_nat (length l)) start) in
  take k l ++ x :: drop k l.

(** Take the element at [sourceIndex] out and put it back at
    [targetIndex].  [None] when there is no element at [sourceIndex]: the
    code then inserts [undefined], which a header drag never asks for. *)
Definition moveItem {A} (sourceIndex targetIndex : Z) (l : list A) : option (list A) :=
  match spliceOut sourceIndex l with
  | Some (x, l') => Some (spliceIn targetIndex x l')
  | None => None
  end.

(** [handleColumnDrop]: every row is rebuilt as a new array. *)
Definition handleColumnDrop (targetIndex : Z) (c : GridState) (σ : Store)
  : option Outcome :=
  match draggedColumn c with
  | None => Some (finished (setDrag None None c) σ)
  | Some sourceIndex =>
      if sourceIndex =? targetIndex then Some (finished (setDrag None None c) σ)
      else
        newRows ← mapM (moveItem sourceIndex targetIndex) (cellsOf σ (gridData c));
        newColumnWidths ← moveItem sourceIndex targetIndex (columnWidths c);
        let '(σ', newGridData) := allocRows σ newRows in
        Some {| next :=
                  saveToHistory c σ'
                    (setDrag None None
                       (setColumnWidths newColumnWidths (setGridData newGridData c)));
                store := σ';
                callbacks := [onReorderColumns sourceIndex targetIndex];
                threw := false |}
  end.

(** [handleColumnDragStart]. *)
Definition handleColumnDragStart (colIndex : Z) (c : GridState) (σ : Store) : Outcome :=
  finished (setDrag (Some colIndex) (dragOverColumn c) c) σ.

(** [insertRowAbove]: a new row of empty cells, one per column. *)
Definition insertRowAbove (rowIndex : Z) (c : GridState) (σ : Store) : Outcome :=
  let newRow := replicate (length columns) emptyCell in
  let σ' := σ ++ [newRow] in
  let insertIndex := if rowIndex =? -1 then 0 else rowIndex in
  let updated := spliceIn insertIndex (length σ) (gridData c) in
  let newHeights := spliceIn insertIndex 40 (rowHeights c) in
  finished (saveToHistory c σ' (setRowHeights newHeights (setGridData updated c))) σ'.

(** [isNumericColumn]: never the first column; else every row holds [''] or
    a number there (a row without such a cell makes the column textual). *)
Definition isNumericColumn (rows : list loc) (σ : Store) (colIndex : Z) : bool :=
  if colIndex =? 0 then false
  else
    forallb (fun l =>
      match at_ (rowAt σ l) colIndex with
      | Some cell => bool_decide (value cell = VStr []) || isNumber (value cell)
      | None => false
      end) rows.

(** [isValidNumericInput]: [''], ['-'], or a match of [/^-?\d*\.?\d*$/]. *)
Definition isValidNumericInput (text : jsstring) : bool :=
  let unsigned := match text with 45 :: rest => rest | _ => text end in
  let afterInteger := dropWhile isDigit unsigned in
  let afterPoint := match afterInteger with 46 :: rest => rest | _ => afterInteger end in
  match dropWhile isDigit afterPoint with
  | [] => true
  | _ :: _ => false
  end.

(** [Number(text)] for a text that [isValidNumericInput] accepts and that is
    not empty: the decimal it spells, NaN if it has no digit. *)
Definition numberOfInput (text : jsstring) : number :=
  let negative := match text with 45 :: _ => true | _ => false end in
  let unsigned := match text with 45 :: rest => rest | _ => text end in
  let integer := takeWhile isDigit unsigned in
  let fraction :=
    match dropWhile isDigit unsigned with
    | 46 :: rest => takeWhile isDigit rest
    | _ => []
    end in
  match integer ++ fraction with
  | [] => NaN
  | digits =>
      let q := Q2Qc (Qmake (parseInt digits) (Z.to_pos (10 ^ Z.of_nat (length fraction)))) in
      Fin (if negative then (- q)%Qc else q)
  end.

(** [handleInputChange] with the text of the input.  In the header row the
    rename goes to the parent.  In a data row the cell is replaced, through
    the shared row, by one holding the formula and its result, the number, or
    the text.  [None] when the row exists and the cell does not, where the
    write would create a cell: inputs are rendered only for cells that
    exist. *)
Definition handleInputChange `{Platform} (text : jsstring) (row col : Z)
    (c : GridState) (σ : Store) : option Outcome :=
  if row =? -1 then
    Some {| next := c; store := σ; callbacks := [onHeaderChange col text];
            threw := false |}
  else if isNumericColumn (gridData c) σ col && negb (isValidNumericInput text) then
    Some (finished c σ)
  else
    match at_ (gridData c) row with
    | None => Some (thrown c σ)
    | Some l =>
        match at_ (rowAt σ l) col with
        | None => None
        | Some cell =>
            let newCell :=
              if startsWith (js "=") text then
                {| value :=
                     result (evaluateFormula columns (cellsOf σ (gridData c))
                               (slice 1 (Z.of_nat (length text)) text));
                   format := format cell;
                   formula := Some text |}
              else if isNumericColumn (gridData c) σ col then
                {| value := match text with
                            | [] => VStr []
                            | _ :: _ => VNum (numberOfInput text)
                            end;
                   format := format cell;
                   formula := None |}
              else {| value := VStr text; format := format cell; formula := None |} in
            Some (finished (setGridData (gridData c) c)
                    (<[ l := <[ Z.to_nat col := newCell ]> (rowAt σ l) ]> σ))
        end
    end.

(** [handleInputBlur], as far as the grid goes: the state is saved. *)
Definition handleInputBlur (c : GridState) (σ : Store) : Outcome :=
  finished (saveToHistory c σ c) σ.

End Handlers.

(** The state and the store of the first render: one row array per item,
    one cell per column, an absent or [null] entry read as [''], and no
    history yet.  (The layout effect that later widens the columns to the
    container is not modelled.) *)
Definition initialGrid (columns : list Column) (items : list (gmap jsstring jsval))
  : list (list CellData) :=
  map (fun item =>
         map (fun column =>
                {| value := match item !! key column with
                            | Some VNull | None => VStr []
                            | Some v => v
                            end;
                   format := Some emptyFormat;
                   formula := None |}) columns) items.

Definition mount (columns : list Column) (items : list (gmap jsstring jsval))
  : GridState * Store :=
  let '(σ, rows) := allocRows [] (initialGrid columns items) in
  ({| gridData := rows; history := []; historyIndex := -1;
      columnWidths := replicate (length columns) 150;
      rowHeights := replicate (length items) 40;
      sortColumn := None; sortDirection := asc;
      draggedColumn := None; dragOverColumn := None |}, σ).

(** The events of a session, and the render-to-render step each one causes.
    [data.columns] is held fixed along a run, and an event that falls outside
    what a handler is modelled for (a drop of a column that does not exist, a
    change of a cell that does not exist) leaves the state as it is. *)
Inductive Event :=
  | Mounted
  | SortClick (colIndex : Z)
  | ColumnDragStart (colIndex : Z)
  | ColumnDrop (targetIndex : Z)
  | ApplyFormat (row col : Z) (patch : CellFormat)
  | DeleteKey (selected : option CellPosition)
  | InsertRowAbove (rowIndex : Z)
  | InputChange (text : jsstring) (row col : Z)
  | InputBlur
  | UndoKey
  | RedoKey.

Definition step `{Platform} (columns : list Column) (e : Event) (st : GridState * Store)
  : GridState * Store :=
  let '(c, σ) := st in
  let o :=
    match e with
    | Mounted => initHistory columns c σ
    | SortClick colIndex => handleSort columns colIndex c σ
    | ColumnDragStart colIndex => handleColumnDragStart colIndex c σ
    | ColumnDrop targetIndex =>
        default (finished c σ) (handleColumnDrop columns targetIndex c σ)
    | ApplyFormat row col patch => formatCell columns row col patch c σ
    | DeleteKey selected => handleKeyDown_Delete columns selected c σ
    | InsertRowAbove rowIndex => insertRowAbove columns rowIndex c σ
    | InputChange text row col =>
        default (finished c σ) (handleInputChange columns text row col c σ)
    | InputBlur => handleInputBlur columns c σ
    | UndoKey => undo columns c σ
    | RedoKey => redo columns c σ
    end in
  (next o, store o).

Definition run `{Platform} (columns : list Column) (events : list Event)
    (st : GridState * Store) : GridState * Store :=
  fold_left (fun st e => step columns e st) events st.

(** The cell matrix on screen in a state. *)
Definition liveGrid (st : GridState * Store) : list (list CellData) :=
  cellsOf st.2 (gridData st.1).

(** The cell at a data position, if there is one. *)
Definition cellAt (grid : list (list CellData)) (row col : Z) : option CellData :=
  match at_ grid row with
  | Some cells => at_ cells col
  | None => None
  end.

(* ===================================================================== *)
(** * A host to run the model on                                         *)
(* ===================================================================== *)

(** The case mappings on ASCII letters, the printing of numbers that hold
    an integer, and the exact sum and quotient: this is what JavaScript
    computes on ASCII text and on integers of small size with integer
    results, as the examples have them.  [eval] is whatever oracle is
    supplied. *)
Definition asciiUpper (s : jsstring) : jsstring :=
  map (fun c => if isLower c then c - 32 else c) s.
Definition asciiLower (s : jsstring) : jsstring :=
  map (fun c => if isUpper c then c + 32 else c) s.
Definition integerToString (n : number) : jsstring :=
  match n with
  | Fin q => intToString (Qfloor q)
  | PosInfinity => js "Infinity"
  | NegInfinity => js "-Infinity"
  | NaN => js "NaN"
  end.

Definition asciiHost (oracle : jsstring -> option jsval) : Platform :=
  {| eval := oracle;
     numberToString := integerToString;
     toUpperCase := asciiUpper;
     toLowerCase := asciiLower;
     numberAdd := Num.add;
     numberDivide := Num.div |}.

(** A host whose [eval] always throws. *)
Definition inertHost : Platform := asciiHost (fun _ => None).

(* ===================================================================== *)
(** * States of a session                                                *)
(* ===================================================================== *)

(** The rows of the grid are distinct arrays of the store. *)
Definition wellFormed (st : GridState * Store) : Prop :=
  NoDup (gridData st.1) /\ Forall (fun l => (l < length st.2)%nat) (gridData st.1).

(** The newest entry of the history. *)
Definition newestSnapshot (c : GridState) : option (list (list CellData)) :=
  hist_gridData <$> last (history c).

(** The symmetric difference of two sets of keys. *)
Definition symmetricDifference (X Y : gset jsstring) : gset jsstring :=
  (X ∖ Y) ∪ (Y ∖ X).

(** The selection after a plain click on (0, 0) and a shift-click on (1, 1):
    four selected cells and a selected range. *)
Definition afterShiftClick : SelectionState :=
  handleCellClick 1 1 {| ctrlKey := false; metaKey := false; shiftKey := true |}
    (handleCellClick 0 0 {| ctrlKey := false; metaKey := false; shiftKey := false |}
       {| selectedCell := None; selectedRange := None; selectedCells := ∅;
          editingCell := None |}).

(** A small sheet: a label column and a numeric column, three items. *)
Definition sheetColumns : list Column :=
  [ {| name := js "Product"; key := js "product" |};
    {| name := js "2020"; key := js "y2020" |} ].
Definition sheetItem (product : string) (amount : Z) : gmap jsstring jsval :=
  {[ js "product" := VStr (js product); js "y2020" := VNum (ofZ amount) ]}.
Definition sheetItems : list (gmap jsstring jsval) :=
  [ sheetItem "B" 20; sheetItem "A" 10; sheetItem "C" 30 ].

(** A data cell of that sheet. *)
Definition sheetCell (product : string) : CellData :=
  {| value := VStr (js product); format := Some emptyFormat; formula := None |}.
Definition amountCell (amount : Z) : CellData :=
  {| value := VNum (ofZ amount); format := Some emptyFormat; formula := None |}.

(** The sheet once it is mounted and its initial state is recorded. *)
Definition sheetMounted : GridState * Store :=
  run (H := inertHost) sheetColumns [Mounted] (mount sheetColumns sheetItems).


(** The three-way lexicographic comparison of two strings by code units. *)
Definition lexCompare (a b : jsstring) : comparison := list_compare Z.compare a b.

(** Modelled from the spec: what it means for a cell value to parse as
    numeric, as far as the examples need it: a number does, and so does a
    string of decimal digits, which denotes the integer it spells. *)
Definition parsesAsNumeric (v : jsval) : option number :=
  match v with
  | VNum n => Some n
  | VStr (c :: s) => if forallb isDigit (c :: s) then Some (ofZ (parseInt (c :: s))) else None
  | _ => None
  end.

(** The numeric comparison of two numbers. *)
Definition numCompare (a b : number) : comparison :=
  if Num.ltb a b then Lt else if Num.ltb b a then Gt else Eq.

(** A number other than NaN. *)
Definition isOrdered (v : jsval) : bool :=
  match v with VNum NaN => false | VNum _ => true | _ => false end.

(** The columns a comparison is consistent on: numbers other than NaN only,
    or no number at all. *)
Definition homogeneous (values : list jsval) : Prop :=
  Forall (fun v => isOrdered v = true) values
  \/ Forall (fun v => isNumber v = false) values.


(** ** What the aggregates are specified to compute *)

(** The sum of a list of numbers, added one after the other from the left,
    starting from 0. *)
Definition total `{Platform} (ns : list number) : number :=
  fold_left numberAdd ns (ofZ 0).

(** The sum an aggregate of several arguments accumulates: the totals of
    its arguments, added one after the other from the left, starting from 0.
    (Rounded sums are not associative: this need not be the total of all
    the numbers.) *)
Definition totalOfTotals `{Platform} (perArgument : list (list number)) : number :=
  fold_left numberAdd (map total perArgument) (ofZ 0).

(** The greatest (for [Num.max]) or least (for [Num.min]) of a list of
    numbers, if it has any. *)
Definition extremum (pick : number -> number -> number) (ns : list number)
  : option number :=
  match ns with
  | [] => None
  | n :: ns' => Some (fold_left pick ns' n)
  end.

(** The values an aggregate ranges over: those of all its arguments, in
    order. *)
Definition expandedValues (columns : list Column) (grid : list (list CellData))
    (prefix : Z) (upperFormula : jsstring) : list jsval :=
  concat (aggregateArgs columns grid prefix upperFormula).

(** A sheet whose second column holds the two infinities, as the formulas
    [=1/0] and [=-1/0] leave them. *)
Definition infiniteSheet : list (list CellData) :=
  [ [sheetCell "A"; {| value := VNum PosInfinity; format := Some emptyFormat;
                       formula := Some (js "=1/0") |}];
    [sheetCell "B"; {| value := VNum NegInfinity; format := Some emptyFormat;
                       formula := Some (js "=-1/0") |}] ].


(** The mounted sheet with its first cell set in bold. *)
Definition boldPatch : CellFormat :=
  {| bold := Some true; italic := None; alignment := None; backgroundColor := None |}.
Definition sheetFormatted : GridState * Store :=
  run (H := inertHost) sheetColumns [ApplyFormat 0 0 boldPatch] sheetMounted.

(* ===================================================================== *)
(** * Invariants of a session                                            *)
(* ===================================================================== *)

(** The history cursor points at an entry. *)
Definition cursorValid (c : GridState) : Prop :=
  0 <= historyIndex c < Z.of_nat (length (history c)).

(** Every row of a cell matrix has [n] cells. *)
Definition rectangular (n : nat) (g : list (list CellData)) : Prop :=
  Forall (fun cells => length cells = n) g.

(** What every state of a session satisfies for the columns it was mounted
    with: distinct rows, all in the store, one cell per column in every row
    of the grid and of every recorded snapshot. *)
Definition gridInvariant (columns : list Column) (st : GridState * Store) : Prop :=
  wellFormed st
  /\ rectangular (length columns) (liveGrid st)
  /\ Forall (fun h => rectangular (length columns) (hist_gridData h)) (history st.1).

(* ===================================================================== *)
(** * Rows and columns: drag, drop and insert                            *)
(* ===================================================================== *)

(** The two state cells of a row drag. *)
Record RowDrag := { draggedRow : option Z; dragOverRow : option Z }.

Definition handleRowDragStart (rowIndex : Z) (d : RowDrag) : RowDrag :=
  {| draggedRow := Some rowIndex; dragOverRow := dragOverRow d |}.
Definition handleRowDragOver (rowIndex : Z) (d : RowDrag) : RowDrag :=
  {| draggedRow := draggedRow d; dragOverRow := Some rowIndex |}.
Definition handleRowDragLeave (d : RowDrag) : RowDrag :=
  {| draggedRow := draggedRow d; dragOverRow := None |}.
Definition handleRowDragEnd (d : RowDrag) : RowDrag :=
  {| draggedRow := None; dragOverRow := None |}.

(** The calls to the parent that insert columns. *)
Inductive ParentCall :=
  | onInsertColumn (index : Z) (column : Column)
  | onAddColumns (newColumns : list Column).

Section RowsAndColumns.
(** [data.columns] as the render received it. *)
Variable columns : list Column.

(** [handleRowDrop]: nothing for a drop on the dragged row itself, or between
    the header row (index -1) and a data row; else the row reference and its
    height move from [sourceIndex] to [targetIndex] in copies of the two
    arrays, and the state is saved.  Every path ends the drag.  [None] when
    there is no row or no height at [sourceIndex], where the code would
    insert [undefined]. *)
Definition handleRowDrop (targetIndex : Z) (d : RowDrag) (c : GridState) (σ : Store)
  : option (Outcome * RowDrag) :=
  let ended := {| draggedRow := None; dragOverRow := None |} in
  match draggedRow d with
  | None => Some (finished c σ, ended)
  | Some sourceIndex =>
      if sourceIndex =? targetIndex then Some (finished c σ, ended)
      else if ((sourceIndex =? -1) && negb (targetIndex =? -1))
              || (negb (sourceIndex =? -1) && (targetIndex =? -1))
      then Some (finished c σ, ended)
      else if negb (sourceIndex =? -1) && negb (targetIndex =? -1) then
        newGridData ← moveItem sourceIndex targetIndex (gridData c);
        newRowHeights ← moveItem sourceIndex targetIndex (rowHeights c);
        Some (finished
                (saveToHistory columns c σ
                   (setRowHeights newRowHeights (setGridData newGridData c))) σ,
              ended)
      else Some (finished c σ, ended)
  end.

(** [insertRowBelow]: as [insertRowAbove], one position further down; below
    the header row is the top of the data. *)
Definition insertRowBelow (rowIndex : Z) (c : GridState) (σ : Store) : Outcome :=
  let newRow := replicate (length columns) emptyCell in
  let σ' := σ ++ [newRow] in
  let insertIndex := if rowIndex =? -1 then 0 else rowIndex + 1 in
  let updated := spliceIn insertIndex (length σ) (gridData c) in
  let newHeights := spliceIn insertIndex 40 (rowHeights c) in
  finished (saveToHistory columns c σ' (setRowHeights newHeights (setGridData updated c))) σ'.

(** The body that [insertColumnLeft] and [insertColumnRight] share, for the
    position [insertIndex] of the new column: the parent is asked for a
    column with an empty name and a key made of the letter of the position
    and the time [now] in milliseconds; every row is rebuilt as a new array
    with an empty cell at that position, a width of 150 goes into the widths
    there, and the state is saved. *)
Definition insertColumnAt `{Platform} (now insertIndex : Z) (c : GridState) (σ : Store)
  : Outcome * ParentCall :=
  let newColumnLetter := fromCharCode (65 + insertIndex) in
  let newColumn :=
    {| name := [];
       key := js "col_" ++ toLowerCase newColumnLetter ++ js "_" ++ intToString now |} in
  let updated := map (spliceIn insertIndex emptyCell) (cellsOf σ (gridData c)) in
  let '(σ', rows) := allocRows σ updated in
  let newWidths := spliceIn insertIndex 150 (columnWidths c) in
  ({| next := saveToHistory columns c σ' (setColumnWidths newWidths (setGridData rows c));
      store := σ';
      callbacks := [];
      threw := false |},
   onInsertColumn insertIndex newColumn).

Definition insertColumnLeft `{Platform} (now colIndex : Z) (c : GridState) (σ : Store)
  : Outcome * ParentCall :=
  insertColumnAt now colIndex c σ.
Definition insertColumnRight `{Platform} (now colIndex : Z) (c : GridState) (σ : Store)
  : Outcome * ParentCall :=
  insertColumnAt now (colIndex + 1) c σ.

End RowsAndColumns.

(* ===================================================================== *)
(** * The page that owns the columns                                     *)
(* ===================================================================== *)

(** The updates of [data] in [app/page.tsx], each as the function it hands
    to [setData], on data that has been loaded. *)
Module Page.

Record TableData := {
  columns : list Column;
  items : list (gmap jsstring jsval) }.

(** [handleHeaderChange]: the column keeps its key and takes the new name.
    [None] where there is no column at [columnIndex]: the assignment would
    then add an entry without a key. *)
Definition handleHeaderChange (columnIndex : Z) (newName : jsstring) (prevData : TableData)
  : option TableData :=
  match at_ (columns prevData) columnIndex with
  | Some column =>
      Some {| columns :=
                <[ Z.to_nat columnIndex := {| name := newName; key := key column |} ]>
                  (columns prevData);
              items := items prevData |}
  | None => None
  end.

(** [handleAddColumns]: the columns go to the end, and every item gets the
    empty string under each new key. *)
Definition handleAddColumns (newColumns : list Column) (prevData : TableData)
  : TableData :=
  {| columns := columns prevData ++ newColumns;
     items :=
       map (fun item =>
              fold_left (fun newItem column => <[ key column := VStr [] ]> newItem)
                newColumns item)
         (items prevData) |}.

(** [handleInsertColumn]. *)
Definition handleInsertColumn (index : Z) (column : Column) (prevData : TableData)
  : TableData :=
  {| columns := spliceIn index column (columns prevData);
     items := map (fun item => <[ key column := VStr [] ]> item) (items prevData) |}.

(** [handleReorderColumns]; [None] where there is no column at
    [sourceIndex]. *)
Definition handleReorderColumns (sourceIndex targetIndex : Z) (prevData : TableData)
  : option TableData :=
  newColumns ← moveItem sourceIndex targetIndex (columns prevData);
  Some {| columns := newColumns; items := items prevData |}.

End Page.

(** The props the page passes to the component: each callback is the page's
    handler of that name. *)
Definition applyCallback (call : Callback) (data : Page.TableData)
  : option Page.TableData :=
  match call with
  | onHeaderChange index newName => Page.handleHeaderChange index newName data
  | onReorderColumns sourceIndex targetIndex =>
      Page.handleReorderColumns sourceIndex targetIndex data
  end.
Definition applyParentCall (call : ParentCall) (data : Page.TableData) : Page.TableData :=
  match call with
  | onInsertColumn index column => Page.handleInsertColumn index column data
  | onAddColumns newColumns => Page.handleAddColumns newColumns data
  end.

(** The calls of a handler, made in order; [None] as soon as one of them is
    outside what the page's handlers are modelled for. *)
Definition applyCallbacks (calls : list Callback) (data : Page.TableData)
  : option Page.TableData :=
  fold_left (fun acc call => acc ≫= applyCallback call) calls (Some data).

(* ===================================================================== *)
(** * Selection with the mouse                                           *)
(* ===================================================================== *)

(** The selection together with the two state cells of a drag over cells. *)
Record DragSelection := {
  selection : SelectionState;
  isDragging : bool;
  dragStart : option CellPosition }.

(** [handleCellMouseDown]: with a modifier key held nothing happens; else a
    drag begins at the cell, which becomes the selection. *)
Definition handleCellMouseDown (row col : Z) (e : MouseEvent) (s : DragSelection)
  : DragSelection :=
  if shiftKey e || ctrlKey e || metaKey e then s
  else
    {| isDragging := true;
       dragStart := Some {| row := row; col := col |};
       selection :=
         {| selectedCell := Some {| row := row; col := col |};
            selectedCells := {[ cellKey row col ]};
            selectedRange := None;
            editingCell := editingCell (selection s) |} |}.

(** [handleCellMouseEnter]: during a drag the range runs from where the drag
    began to the cell entered, and the selected cells are the rectangle
    between the two. *)
Definition handleCellMouseEnter (row col : Z) (s : DragSelection) : DragSelection :=
  match isDragging s, dragStart s with
  | true, Some {| row := startRow; col := startCol |} =>
      let minRow := Z.min startRow row in
      let maxRow := Z.max startRow row in
      let minCol := Z.min startCol col in
      let maxCol := Z.max startCol col in
      {| isDragging := isDragging s;
         dragStart := dragStart s;
         selection :=
           {| selectedCell := selectedCell (selection s);
              selectedRange :=
                Some {| range_start := {| row := startRow; col := startCol |};
                        range_end := {| row := row; col := col |} |};
              selectedCells := rectangleKeys minRow maxRow minCol maxCol;
              editingCell := editingCell (selection s) |} |}
  | _, _ => s
  end.

(** [handleMouseUp], with the two resize cells it reads: nothing during a
    resize; else a drag that has a range leaves the cells of that range
    selected, and the drag and the range end. *)
Definition handleMouseUp (resizingColumn resizingRow : option Z) (s : DragSelection)
  : DragSelection :=
  match resizingColumn, resizingRow with
  | None, None =>
      let newSelectedCells :=
        match isDragging s, selectedRange (selection s) with
        | true, Some {| range_start := {| row := startRow; col := startCol |};
                        range_end := {| row := endRow; col := endCol |} |} =>
            rectangleKeys (Z.min startRow endRow) (Z.max startRow endRow)
              (Z.min startCol endCol) (Z.max startCol endCol)
        | _, _ => selectedCells (selection s)
        end in
      {| isDragging := false;
         dragStart := None;
         selection :=
           {| selectedCell := selectedCell (selection s);
              selectedCells := newSelectedCells;
              selectedRange := None;
              editingCell := editingCell (selection s) |} |}
  | _, _ => s
  end.

(** [handleDoubleClick]. *)
Definition handleDoubleClick (row col : Z) (s : SelectionState) : SelectionState :=
  {| selectedCell := selectedCell s;
     selectedRange := selectedRange s;
     selectedCells := selectedCells s;
     editingCell := Some {| row := row; col := col |} |}.

(** [handleRowHeaderClick], for [data.columns.length] columns: the cells of
    the row, from column 0 on. *)
Definition handleRowHeaderClick (columnCount : Z) (row : Z) (s : SelectionState)
  : SelectionState :=
  {| selectedCells :=
       list_to_set (map (fun col => cellKey row col) (zrange 0 (columnCount - 1)));
     selectedCell := Some {| row := row; col := 0 |};
     selectedRange :=
       Some {| range_start := {| row := row; col := 0 |};
               range_end := {| row := row; col := columnCount - 1 |} |};
     editingCell := None |}.

(** [handleColumnHeaderClick], for [gridData.length] rows: nothing during or
    right after a column resize; else the cells of the column, from the
    header row (-1) on. *)
Definition handleColumnHeaderClick (resizingColumn : option Z) (justFinishedResize : bool)
    (rowCount : Z) (col : Z) (s : SelectionState) : SelectionState :=
  if bool_decide (resizingColumn <> None) || justFinishedResize then s
  else
    {| selectedCells :=
         list_to_set (map (fun row => cellKey row col) (zrange (-1) (rowCount - 1)));
       selectedCell := Some {| row := -1; col := col |};
       selectedRange :=
         Some {| range_start := {| row := -1; col := col |};
                 range_end := {| row := rowCount - 1; col := col |} |};
       editingCell := None |}.

(** [isInRange]: the cell is one of the selected cells, or lies in the
    selected range. *)
Definition isInRange (row col : Z) (s : SelectionState) : bool :=
  if bool_decide (cellKey row col ∈ selectedCells s) then true
  else
    match selectedRange s with
    | Some {| range_start := {| row := startRow; col := startCol |};
              range_end := {| row := endRow; col := endCol |} |} =>
        (Z.min startRow endRow <=? row) && (row <=? Z.max startRow endRow)
        && (Z.min startCol endCol <=? col) && (col <=? Z.max startCol endCol)
    | None => false
    end.

(** A selection with nothing selected, and no drag under way. *)
Definition noSelection : SelectionState :=
  {| selectedCell := None; selectedRange := None; selectedCells := ∅;
     editingCell := None |}.
Definition noDrag : DragSelection :=
  {| selection := noSelection; isDragging := false; dragStart := None |}.

(* ===================================================================== *)
(** * Keyboard                                                           *)
(* ===================================================================== *)

(** What [handleKeyDown] reads of a keyboard event; [fromInput] says that
    the target is an INPUT, a TEXTAREA or editable content. *)
Module KeyboardEvent.
Record t := {
  key : jsstring;
  ctrlKey : bool;
  metaKey : bool;
  shiftKey : bool;
  altKey : bool;
  fromInput : bool }.
End KeyboardEvent.

Module Direction.
Inductive t := up | down | left | right.
End Direction.

(** [!gridData[r] || !gridData[r][col] || gridData[r][col].value === '']. *)
Definition isBlankAt (grid : list (list CellData)) (row col : Z) : bool :=
  match cellAt grid row col with
  | Some cell => bool_decide (value cell = VStr [])
  | None => true
  end.

(** A loop over [candidates] whose body either breaks with a value or goes
    on: the value of the first break, [otherwise] if the loop runs out. *)
Definition firstBreak (candidates : list Z) (body : Z -> option Z) (otherwise : Z) : Z :=
  default otherwise (head (omap body candidates)).

(** The integers [hi, hi-1, ..., lo] of a loop that counts down. *)
Definition zrangeDown (hi lo : Z) : list Z := rev (zrange lo hi).

(** The three updates that make one cell the whole selection:
    [setSelectedCell], [setSelectedCells] with its key alone, and
    [setSelectedRange(null)]. *)
Definition singleSelection (row col : Z) (s : SelectionState) : SelectionState :=
  {| selectedCell := Some {| row := row; col := col |};
     selectedCells := {[ cellKey row col ]};
     selectedRange := None;
     editingCell := editingCell s |}.

Definition setEditingCell (editing : option CellPosition) (s : SelectionState)
  : SelectionState :=
  {| selectedCell := selectedCell s;
     selectedCells := selectedCells s;
     selectedRange := selectedRange s;
     editingCell := editing |}.

(** [jumpToDataBoundary], for [data.columns.length] columns and the cells of
    [gridData]. *)
Definition jumpToDataBoundary (direction : Direction.t) (columnCount : Z)
    (grid : list (list CellData)) (s : SelectionState) : SelectionState :=
  let rowCount := Z.of_nat (length grid) in
  match selectedCell s with
  | None => s
  | Some {| row := row; col := col |} =>
      let newRow :=
        match direction with
        | Direction.up =>
            if row =? -1 then row
            else
              firstBreak (zrangeDown (row - 1) (-1))
                (fun r =>
                   if (r =? -1) || isBlankAt grid r col
                   then Some (if r =? -1 then -1 else r + 1)
                   else if r =? 0 then Some (-1) else None)
                row
        | Direction.down =>
            if row =? -1 then 0
            else
              firstBreak (zrange (row + 1) (rowCount - 1))
                (fun r =>
                   if isBlankAt grid r col then Some (r - 1)
                   else if r =? rowCount - 1 then Some r else None)
                row
        | _ => row
        end in
      let newCol :=
        match direction with
        | Direction.left =>
            firstBreak (zrangeDown (col - 1) 0)
              (fun c =>
                 if (row =? -1) || isBlankAt grid row c then Some (c + 1)
                 else if c =? 0 then Some 0 else None)
              col
        | Direction.right =>
            firstBreak (zrange (col + 1) (columnCount - 1))
              (fun c =>
                 if (row =? -1) || isBlankAt grid row c then Some (c - 1)
                 else if c =? columnCount - 1 then Some c else None)
              col
        | _ => col
        end in
      singleSelection newRow newCol s
  end.

(** [e.key === name]. *)
Definition keyIs (e : KeyboardEvent.t) (name : string) : bool :=
  bool_decide (KeyboardEvent.key e = js name).

(** What a key press leaves behind: the selection, and the grid with its
    history. *)
Record KeyResult := { keySelection : SelectionState; keyOutcome : Outcome }.

(** [handleKeyDown]. *)
Definition handleKeyDown `{Platform} (columns : list Column) (e : KeyboardEvent.t)
    (s : SelectionState) (c : GridState) (σ : Store) : KeyResult :=
  let same := {| keySelection := s; keyOutcome := finished c σ |} in
  let selectOnly (s' : SelectionState) :=
    {| keySelection := s'; keyOutcome := finished c σ |} in
  let gridOnly (o : Outcome) := {| keySelection := s; keyOutcome := o |} in
  let grid := cellsOf σ (gridData c) in
  let rowCount := Z.of_nat (length (gridData c)) in
  let columnCount := Z.of_nat (length columns) in
  let key := KeyboardEvent.key e in
  match selectedCell s with
  | None => same
  | Some {| row := row; col := col |} =>
      if KeyboardEvent.fromInput e then same
      else if KeyboardEvent.ctrlKey e || KeyboardEvent.metaKey e then
        if keyIs e "z" then gridOnly (undo columns c σ)
        else if keyIs e "y" then gridOnly (redo columns c σ)
        else if keyIs e "b" then
          if row =? -1 then same
          else
            match cellAt grid row col with
            | None => gridOnly (thrown c σ)
            | Some cell =>
                gridOnly
                  (formatCell columns row col
                     {| bold := Some (negb (default false (format cell ≫= bold)));
                        italic := None; alignment := None; backgroundColor := None |}
                     c σ)
            end
        else if keyIs e "i" then
          if row =? -1 then same
          else
            match cellAt grid row col with
            | None => gridOnly (thrown c σ)
            | Some cell =>
                gridOnly
                  (formatCell columns row col
                     {| bold := None;
                        italic := Some (negb (default false (format cell ≫= italic)));
                        alignment := None; backgroundColor := None |}
                     c σ)
            end
        else if keyIs e "ArrowUp" then
          selectOnly (jumpToDataBoundary Direction.up columnCount grid s)
        else if keyIs e "ArrowDown" then
          selectOnly (jumpToDataBoundary Direction.down columnCount grid s)
        else if keyIs e "ArrowLeft" then
          selectOnly (jumpToDataBoundary Direction.left columnCount grid s)
        else if keyIs e "ArrowRight" then
          selectOnly (jumpToDataBoundary Direction.right columnCount grid s)
        else if keyIs e "Home" then selectOnly (singleSelection (-1) 0 s)
        else if keyIs e "End" then
          selectOnly (singleSelection (rowCount - 1) (columnCount - 1) s)
        else same
      else
        match editingCell s with
        | Some _ =>
            if keyIs e "Escape" then selectOnly (setEditingCell None s)
            else if keyIs e "Enter" then
              if row <? rowCount - 1
              then selectOnly (singleSelection (row + 1) col (setEditingCell None s))
              else selectOnly (setEditingCell None s)
            else if keyIs e "Tab" then
              if KeyboardEvent.shiftKey e then
                if 0 <? col
                then selectOnly (singleSelection row (col - 1) (setEditingCell None s))
                else selectOnly (setEditingCell None s)
              else
                if col <? columnCount - 1
                then selectOnly (singleSelection row (col + 1) (setEditingCell None s))
                else selectOnly (setEditingCell None s)
            else same
        | None =>
            if keyIs e "ArrowUp" then
              if -1 <? row then selectOnly (singleSelection (row - 1) col s) else same
            else if keyIs e "ArrowDown" then
              if row =? -1 then selectOnly (singleSelection 0 col s)
              else if row <? rowCount - 1 then selectOnly (singleSelection (row + 1) col s)
              else same
            else if keyIs e "ArrowLeft" then
              if 0 <? col then selectOnly (singleSelection row (col - 1) s) else same
            else if keyIs e "ArrowRight" then
              if col <? columnCount - 1 then selectOnly (singleSelection row (col + 1) s)
              else same
            else if keyIs e "Tab" then
              if KeyboardEvent.shiftKey e then
                if 0 <? col then selectOnly (singleSelection row (col - 1) s)
                else if -1 <? row
                then selectOnly (singleSelection (row - 1) (columnCount - 1) s)
                else same
              else
                if col <? columnCount - 1 then selectOnly (singleSelection row (col + 1) s)
                else if row <? rowCount - 1 then selectOnly (singleSelection (row + 1) 0 s)
                else same
            else if keyIs e "Enter" || keyIs e "F2" then
              selectOnly (setEditingCell (Some {| row := row; col := col |}) s)
            else if keyIs e "Delete" || keyIs e "Backspace" then
              if row =? -1 then same else gridOnly (clearCell columns row col c σ)
            else if keyIs e "Home" then selectOnly (singleSelection row 0 s)
            else if keyIs e "End" then selectOnly (singleSelection row (columnCount - 1) s)
            else if keyIs e "PageUp" then
              selectOnly (singleSelection (Z.max (-1) (row - 10)) col s)
            else if keyIs e "PageDown" then
              selectOnly (singleSelection (Z.min (rowCount - 1) (row + 10)) col s)
            else if keyIs e "Escape" then
              selectOnly {| selectedCell := selectedCell s;
                            selectedCells := ∅;
                            selectedRange := None;
                            editingCell := editingCell s |}
            else
              match key with
              | [unit] =>
                  if KeyboardEvent.altKey e then same
                  else
                    let isNumeric :=
                      (0 <? col)
                      && forallb (fun l =>
                           match at_ (rowAt σ l) col with
                           | Some cell =>
                               bool_decide (value cell = VStr []) || isNumber (value cell)
                           | None => false
                           end) (gridData c) in
                    let allowed := isDigit unit || (unit =? 46) || (unit =? 45) in
                    if negb (row =? -1) && isNumeric && negb allowed then same
                    else
                      let s' := setEditingCell (Some {| row := row; col := col |}) s in
                      if row =? -1 then selectOnly s'
                      else
                        let typed :=
                          if isNumeric then
                            match numberOfInput key with
                            | NaN => VStr key
                            | numValue => VNum numValue
                            end
                          else VStr key in
                        match writeCell (gridData c) σ row col (fun cell =>
                                {| value := typed; format := format cell;
                                   formula := None |}) with
                        | None => {| keySelection := s'; keyOutcome := thrown c σ |}
                        | Some σ' =>
                            {| keySelection := s';
                               keyOutcome := finished (setGridData (gridData c) c) σ' |}
                        end
              | _ => same
              end
        end
  end.

(** A key pressed alone, outside any input. *)
Definition plainKey (name : string) : KeyboardEvent.t :=
  {| KeyboardEvent.key := js name; KeyboardEvent.ctrlKey := false;
     KeyboardEvent.metaKey := false; KeyboardEvent.shiftKey := false;
     KeyboardEvent.altKey := false; KeyboardEvent.fromInput := false |}.
(** The same with Shift held, and with Ctrl held. *)
Definition shiftedKey (name : string) : KeyboardEvent.t :=
  {| KeyboardEvent.key := js name; KeyboardEvent.ctrlKey := false;
     KeyboardEvent.metaKey := false; KeyboardEvent.shiftKey := true;
     KeyboardEvent.altKey := false; KeyboardEvent.fromInput := false |}.
Definition controlKey (name : string) : KeyboardEvent.t :=
  {| KeyboardEvent.key := js name; KeyboardEvent.ctrlKey := true;
     KeyboardEvent.metaKey := false; KeyboardEvent.shiftKey := false;
     KeyboardEvent.altKey := false; KeyboardEvent.fromInput := false |}.

(** The selection with the one cell at a position. *)
Definition selectionAt (row col : Z) : SelectionState := singleSelection row col noSelection.

(** The primary cell is a cell of the sheet: a data row or the header row
    (-1), and one of the columns. *)
Definition selectionWithin (rowCount columnCount : Z) (s : SelectionState) : Prop :=
  exists r k,
    selectedCell s = Some {| row := r; col := k |}
    /\ -1 <= r < rowCount /\ 0 <= k < columnCount.

(* ===================================================================== *)
(** * Filter and the rows on screen                                      *)
(* ===================================================================== *)

(** [s.includes(needle)] for a string needle. *)
Fixpoint includesString (needle s : jsstring) : bool :=
  startsWith needle s
  || match s with
     | [] => false
     | _ :: s' => includesString needle s'
     end.

Record FilterResult := {
  filteredData : list (list CellData);
  shouldShowHeaderRow : bool }.

(** Whether some cell of a row contains the filter text, as the loop over
    the row decides it. *)
Definition rowMatches `{Platform} (lowerFilterText : jsstring) (cells : list CellData)
  : bool :=
  existsb (fun cell =>
             includesString lowerFilterText (toLowerCase (toString (value cell))))
    cells.

(** The filter memo: without filter text every row; else the rows with a
    cell whose text, in lower case, contains the trimmed lower-case filter
    text, and the header row shows if a column name does or a row is left. *)
Definition filterRows `{Platform} (columns : list Column) (gridData : list (list CellData))
    (debouncedFilterText : jsstring) : FilterResult :=
  match debouncedFilterText with
  | [] => {| filteredData := gridData; shouldShowHeaderRow := true |}
  | _ :: _ =>
      let lowerFilterText := trim (toLowerCase debouncedFilterText) in
      let headerMatches :=
        existsb (fun column => includesString lowerFilterText (toLowerCase (name column)))
          columns in
      let filtered := List.filter (rowMatches lowerFilterText) gridData in
      {| filteredData := filtered;
         shouldShowHeaderRow := headerMatches || (0 <? Z.of_nat (length filtered)) |}
  end.

(** The [sortedData] memo: the visible rows, sorted by the sort column if
    there is one.  [None] where the comparator reads a cell that a row does
    not have, which throws during the render. *)
Definition sortedData `{Platform} (visibleRows : list (list CellData))
    (sortColumn : option Z) (sortDirection : SortDirection)
  : option (list (list CellData)) :=
  match sortColumn with
  | None => Some visibleRows
  | Some column =>
      if (2 <=? Z.of_nat (length visibleRows))
         && negb (forallb (fun a => bool_decide (is_Some (at_ a column))) visibleRows)
      then None
      else
        Some (sortWith (fun a b =>
                compareValues sortDirection
                  (default VNull (value <$> at_ a column))
                  (default VNull (value <$> at_ b column))) visibleRows)
  end.

(** The rows of the table body, in the order they are rendered, with the
    index the window starts at. *)
Definition displayedRows `{Platform} (columns : list Column)
    (gridData : list (list CellData)) (debouncedFilterText : jsstring)
    (scrollTop containerHeight : Q)
    (sortColumn : option Z) (sortDirection : SortDirection)
  : option (Z * list (list CellData)) :=
  let filtered := filteredData (filterRows columns gridData debouncedFilterText) in
  let window := virtualScroll filtered scrollTop containerHeight in
  rows ← sortedData (visibleRows window) sortColumn sortDirection;
  Some (startIndex window, rows).

(** The row index the handlers of a rendered row are given. *)
Definition actualRowIndex (startIndex : Z) (visibleRowIndex : nat) : Z :=
  startIndex + Z.of_nat visibleRowIndex.

(* ===================================================================== *)
(** * Resizing columns and rows                                          *)
(* ===================================================================== *)

(** The state cells of a resize.  Pointer coordinates and sizes are whole
    numbers of pixels. *)
Record ResizeState := {
  resizingColumn : option Z;
  resizeStartX : Z;
  resizeStartWidth : Z;
  resizingRow : option Z;
  resizeStartY : Z;
  resizeStartHeight : Z;
  justFinishedResize : bool }.

(** [handleColumnResize], on the handle of a column with the pointer at
    [clientX]; [None] where the column has no width to start from. *)
Definition handleColumnResize (colIndex clientX : Z) (c : GridState) (r : ResizeState)
  : option ResizeState :=
  width ← at_ (columnWidths c) colIndex;
  Some {| resizingColumn := Some colIndex;
          resizeStartX := clientX;
          resizeStartWidth := width;
          resizingRow := resizingRow r;
          resizeStartY := resizeStartY r;
          resizeStartHeight := resizeStartHeight r;
          justFinishedResize := justFinishedResize r |}.

(** [handleRowResize]. *)
Definition handleRowResize (rowIndex clientY : Z) (c : GridState) (r : ResizeState)
  : option ResizeState :=
  height ← at_ (rowHeights c) rowIndex;
  Some {| resizingColumn := resizingColumn r;
          resizeStartX := resizeStartX r;
          resizeStartWidth := resizeStartWidth r;
          resizingRow := Some rowIndex;
          resizeStartY := clientY;
          resizeStartHeight := height;
          justFinishedResize := justFinishedResize r |}.

(** [a[i] = x] on a copy of an array, for an index the array has; [None]
    else, where the assignment would lengthen the array. *)
Definition assignAt {A} (i : Z) (x : A) (l : list A) : option (list A) :=
  match at_ l i with
  | Some _ => Some (<[ Z.to_nat i := x ]> l)
  | None => None
  end.

(** [handleMouseMove] with the pointer at ([clientX], [clientY]): the column
    being resized gets its starting width plus the distance moved, at least
    50, and the row being resized its starting height plus the distance
    moved, at least 20. *)
Definition handleMouseMove (clientX clientY : Z) (r : ResizeState) (c : GridState)
  : option GridState :=
  afterColumn ←
    match resizingColumn r with
    | Some column =>
        let diff := clientX - resizeStartX r in
        let newWidth := Z.max 50 (resizeStartWidth r + diff) in
        newWidths ← assignAt column newWidth (columnWidths c);
        Some (setColumnWidths newWidths c)
    | None => Some c
    end;
  match resizingRow r with
  | Some row =>
      let diff := clientY - resizeStartY r in
      let newHeight := Z.max 20 (resizeStartHeight r + diff) in
      newHeights ← assignAt row newHeight (rowHeights c);
      Some (setRowHeights newHeights afterColumn)
  | None => Some afterColumn
  end.

(** [handleMouseUpResize]: both resizes end, and after a column resize the
    flag that keeps the click that follows from selecting the column is
    raised; a timer lowers it 100 ms later. *)
Definition handleMouseUpResize (r : ResizeState) : ResizeState :=
  {| resizingColumn := None;
     resizeStartX := resizeStartX r;
     resizeStartWidth := resizeStartWidth r;
     resizingRow := None;
     resizeStartY := resizeStartY r;
     resizeStartHeight := resizeStartHeight r;
     justFinishedResize :=
       match resizingColumn r with Some _ => true | None => justFinishedResize r end |}.
Definition resizeTimerFired (r : ResizeState) : ResizeState :=
  {| resizingColumn := resizingColumn r;
     resizeStartX := resizeStartX r;
     resizeStartWidth := resizeStartWidth r;
     resizingRow := resizingRow r;
     resizeStartY := resizeStartY r;
     resizeStartHeight := resizeStartHeight r;
     justFinishedResize := false |}.

(** No resize under way. *)
Definition noResize : ResizeState :=
  {| resizingColumn := None; resizeStartX := 0; resizeStartWidth := 0;
     resizingRow := None; resizeStartY := 0; resizeStartHeight := 0;
     justFinishedResize := false |}.

(* ===================================================================== *)
(** * The range of the selection                                         *)
(* ===================================================================== *)

(** [Number(s)] for the decimal spelling of an integer, with or without a
    minus sign, which is what the two parts of a cell key are; [None] for
    any other string. *)
Definition integerOfString (s : jsstring) : option Z :=
  let '(negative, digits) :=
    match s with
    | c :: rest => if c =? 45 then (true, rest) else (false, s)
    | [] => (false, [])
    end in
  match digits with
  | [] => None
  | _ :: _ =>
      if forallb isDigit digits
      then Some (if negative then - parseInt digits else parseInt digits)
      else None
  end.

(** [const [row, col] = key.split(',').map(Number)]. *)
Definition parseKey (key : jsstring) : option CellPosition :=
  match split 44 key with
  | rowPart :: colPart :: _ =>
      r ← integerOfString rowPart;
      k ← integerOfString colPart;
      Some {| row := r; col := k |}
  | _ => None
  end.

(** [Math.min(...xs)] and [Math.max(...xs)] for integers, at least one. *)
Definition minimum (xs : list Z) : Z :=
  match xs with
  | [] => 0
  | x :: rest => fold_left Z.min rest x
  end.
Definition maximum (xs : list Z) : Z :=
  match xs with
  | [] => 0
  | x :: rest => fold_left Z.max rest x
  end.

(** [getSelectedRange]: [Some None] is [null], for an empty selection; else
    the reference of the one cell, or the references of two opposite
    corners of the smallest rectangle around the selected cells.  [None]
    where a key is not the key of a cell. *)
Definition getSelectedRange (selectedCells : gset jsstring) : option (option jsstring) :=
  if decide (selectedCells = ∅) then Some None
  else
    positions ← mapM parseKey (elements selectedCells);
    let minRow := minimum (map row positions) in
    let maxRow := maximum (map row positions) in
    let minCol := minimum (map col positions) in
    let maxCol := maximum (map col positions) in
    if (minRow =? maxRow) && (minCol =? maxCol)
    then Some (Some (getCellReference minRow minCol))
    else
      Some (Some (getCellReference minRow minCol ++ js ":"
                    ++ getCellReference maxRow maxCol)).

(** The keys of a list of cells. *)
Definition keysOf (cells : list CellPosition) : gset jsstring :=
  list_to_set (map (fun p => cellKey (row p) (col p)) cells).


(* ===================================================================== *)
(** * A function over the selection                                      *)
(* ===================================================================== *)

(** What [applyFunctionToSelection] leaves behind: the grid and the store,
    what it asked of the parent, and the selection. *)
Record Applied := {
  appliedOutcome : Outcome;
  appliedCalls : list ParentCall;
  appliedSelection : SelectionState }.

(** [applyFunctionToSelection], a callback of the render [c] with the
    selection [s].  The result goes to the right of a selection that is at
    least as wide as it is high, and below any other; a row of empty cells
    is pushed when the target row is past the last row, and columns are
    added, to the parent, to every row (rebuilt as a new array) and to the
    widths, when the target column is past the last column.  The formula
    is evaluated on the grid of the render, the cell is written through
    the row array of [updated], and [saveToHistory] then reads the grid of
    the render.  [None] where a key of the selection is not the key of a
    cell, or the target row has no cell at the target column, where the
    assignment would lengthen the row. *)
Definition applyFunctionToSelection `{Platform} (columns : list Column)
    (functionName : jsstring) (s : SelectionState) (c : GridState) (σ : Store)
  : option Applied :=
  let unchanged :=
    {| appliedOutcome := finished c σ; appliedCalls := []; appliedSelection := s |} in
  range ← getSelectedRange (selectedCells s);
  match range with
  | None | Some [] => Some unchanged
  | Some range =>
      positions ← mapM parseKey (elements (selectedCells s));
      let minRow := minimum (map row positions) in
      let maxRow := maximum (map row positions) in
      let minCol := minimum (map col positions) in
      let maxCol := maximum (map col positions) in
      let isHorizontalSelection := (maxRow - minRow) <=? (maxCol - minCol) in
      let targetRow := if isHorizontalSelection then minRow else maxRow + 1 in
      let targetCol := if isHorizontalSelection then maxCol + 1 else minCol in
      let columnCount := Z.of_nat (length columns) in
      let '(σ1, withRow) :=
        if Z.of_nat (length (gridData c)) <=? targetRow
        then (σ ++ [replicate (length columns) emptyCell], gridData c ++ [length σ])
        else (σ, gridData c) in
      let columnsToAdd := targetCol - columnCount + 1 in
      let '(σ2, updated, calls, widened) :=
        if columnCount <=? targetCol then
          let newColumns :=
            map (fun i =>
                   {| name := [];
                      key := js "col_" ++ toLowerCase (fromCharCode (65 + i)) |})
              (zrange columnCount (columnCount + columnsToAdd - 1)) in
          let '(σ2, rows) :=
            allocRows σ1
              (map (fun cells => cells ++ replicate (Z.to_nat columnsToAdd) emptyCell)
                 (cellsOf σ1 withRow)) in
          (σ2, rows, [onAddColumns newColumns],
           setColumnWidths (columnWidths c ++ replicate (Z.to_nat columnsToAdd) 150) c)
        else (σ1, withRow, [], c) in
      let effectiveColumnCount :=
        if columnCount <=? targetCol then targetCol + 1 else columnCount in
      if (0 <=? targetRow) && (targetRow <? Z.of_nat (length updated))
         && (0 <=? targetCol) && (targetCol <? effectiveColumnCount)
      then
        let formula := js "=" ++ functionName ++ js "(" ++ range ++ js ")" in
        let computed :=
          result (evaluateFormula columns (cellsOf σ2 (gridData c))
                    (slice 1 (Z.of_nat (length formula)) formula)) in
        l ← at_ updated targetRow;
        newCells ←
          assignAt targetCol
            {| value := computed;
               formula := Some formula;
               format := Some (default emptyFormat (at_ (rowAt σ2 l) targetCol ≫= format)) |}
            (rowAt σ2 l);
        let σ3 := <[ l := newCells ]> σ2 in
        let heightened :=
          if Z.of_nat (length (rowHeights c)) <=? targetRow
          then setRowHeights (rowHeights c ++ [40]) (setGridData updated widened)
          else setGridData updated widened in
        Some {| appliedOutcome := finished (saveToHistory columns c σ3 heightened) σ3;
                appliedCalls := calls;
                appliedSelection :=
                  {| selectedCell := Some {| row := targetRow; col := targetCol |};
                     selectedCells := {[ cellKey targetRow targetCol ]};
                     selectedRange := selectedRange s;
                     editingCell := editingCell s |} |}
      else
        Some {| appliedOutcome := finished widened σ2;
                appliedCalls := calls;
                appliedSelection := s |}
  end.
(* ===================================================================== *)
(** * Properties                                                         *)
(* ===================================================================== *)

(** ** The JavaScript fragment on examples *)

Example js_literal : js "A1" = [65; 49].
Proof. reflexivity. Qed.
Example split_examples :
  split 44 (js "A1,B2:B3,") = [js "A1"; js "B2:B3"; []] /\ split 44 [] = [[]].
Proof. split; reflexivity. Qed.
Example slice_examples :
  slice 4 (-1) (js "SUM(A1)") = js "A1" /\ slice 4 (-1) (js "SUM(") = []
  /\ slice 3 1 [1; 2; 3; 4] = [].
Proof. repeat split; reflexivity. Qed.
Example intToString_examples :
  intToString 0 = js "0" /\ intToString 1052 = js "1052" /\ intToString (-1) = js "-1".
Proof. repeat split; reflexivity. Qed.
Example trim_example : trim (js "  a b ") = js "a b".
Proof. reflexivity. Qed.
Example replaceRefs_example :
  replaceRefs (fun m => js "<" ++ m ++ js ">") (js "AB12+C+D3*4E5F")
  = js "<AB12>+C+<D3>*4<E5>F".
Proof. reflexivity. Qed.

(** ** Coordinate codec *)

Section CodecFacts.

(** The number a string of letters denotes in bijective base 26. *)
Let lettersValue (s : jsstring) : Z :=
  fold_left (fun result c => result * 26 + (c - 65 + 1)) s 0.

Lemma fold_letters_shift (s : jsstring) (a : Z) :
  fold_left (fun result c => result * 26 + (c - 65 + 1)) s a
  = a * 26 ^ Z.of_nat (length s) + lettersValue s.
Proof.
  unfold lettersValue. revert a. induction s as [|c s IH]; intros a; simpl.
  - lia.
  - rewrite (IH (a * 26 + _)), (IH (0 * 26 + _)).
    rewrite Nat2Z.inj_succ, Z.pow_succ_r by lia. lia.
Qed.

Lemma getColumnLetter_loop_value (index : Z) (result : jsstring) :
  -1 <= index ->
  lettersValue (getColumnLetter_loop index result)
  = (index + 1) * 26 ^ Z.of_nat (length result) + lettersValue result.
Proof.
  funelim (getColumnLetter_loop index result); intros Hge.
  - rewrite H by (assert (0 <= index / 26) by (apply Z.div_pos; lia); lia).
    unfold fromCharCode. cbn [app length].
    rewrite Z.rem_mod_nonneg by lia.
    rewrite Z.mod_small by (pose proof (Z.mod_pos_bound index 26); lia).
    assert (lettersValue (65 + index mod 26 :: result0)
            = (index mod 26 + 1) * 26 ^ Z.of_nat (length result0)
              + lettersValue result0) as ->.
    { unfold lettersValue at 1. cbn [fold_left].
      rewrite fold_letters_shift. f_equal. lia. }
    rewrite Nat2Z.inj_succ, Z.pow_succ_r by lia.
    replace (index + 1) with (26 * (index / 26) + index mod 26 + 1)
      by (pose proof (Z.div_mod index 26); lia).
    ring.
  - assert (index = -1) by lia. subst. lia.
Qed.

Lemma columnLetterToIndex_getColumnLetter (i : Z) :
  0 <= i -> columnLetterToIndex (getColumnLetter i) = i.
Proof.
  intros Hi. unfold columnLetterToIndex, getColumnLetter.
  change (lettersValue (getColumnLetter_loop i []) - 1 = i).
  rewrite getColumnLetter_loop_value by lia. cbn. lia.
Qed.

End CodecFacts.

(** C7.  Codec round trip: for every index [i] in [[0, 1000)], decoding the
    column letters of [i] with [columnLetterToIndex] gives [i] back. *)
Theorem codec_roundtrip (i : Z) :
  0 <= i < 1000 -> columnLetterToIndex (getColumnLetter i) = i.
Proof. intros [Hi _]. now apply columnLetterToIndex_getColumnLetter. Qed.

Lemma codec_roundtrip_witness :
  0 <= 701 < 1000 /\ getColumnLetter 701 = js "ZZ"
  /\ columnLetterToIndex (getColumnLetter 701) = 701.
Proof.
  split; [lia|]. split; [reflexivity|]. apply (codec_roundtrip 701). lia.
Defined.

(** ** Cell references *)

Lemma parseInt_app (a b : jsstring) :
  parseInt (a ++ b)
  = fold_left (fun n c => n * 10 + (c - 48)) b (parseInt a).
Proof. unfold parseInt. apply fold_left_app. Qed.

(** The digits of a non-negative integer are decimal digits, at least one,
    and [parseInt] reads the integer back. *)
Lemma digitsOf_spec (n : Z) (acc : jsstring) :
  0 <= n ->
  exists ds, digitsOf n acc = ds ++ acc /\ ds <> []
             /\ forallb isDigit ds = true /\ parseInt ds = n.
Proof.
  funelim (digitsOf n acc); intros Hn.
  - exists [48 + n]. repeat split; [done| |cbn; lia].
    cbn. unfold isDigit. rewrite andb_true_r. lia.
  - destruct H as (ds & Heq' & Hne & Hall & Hval).
    { apply Z.div_pos; lia. }
    exists (ds ++ [48 + n mod 10]). repeat split.
    + rewrite Heq'. now rewrite <- app_assoc.
    + now destruct ds.
    + rewrite forallb_app, Hall. cbn. unfold isDigit.
      pose proof (Z.mod_pos_bound n 10). rewrite andb_true_r. lia.
    + rewrite parseInt_app, Hval. cbn.
      pose proof (Z.div_mod n 10). lia.
Qed.

Lemma takeWhile_isUpper_digits (ds : jsstring) :
  forallb isDigit ds = true -> takeWhile isUpper ds = [] /\ dropWhile isUpper ds = ds.
Proof.
  destruct ds as [|d ds]; [done|]. cbn. intros [Hd _]%andb_prop.
  assert (isUpper d = false) as ->; [|done].
  unfold isDigit, isUpper in *. lia.
Qed.

(** A reference made of one capital letter and a row number decodes to the
    column of the letter and the row of the number. *)
Lemma parseCellRef_getCellReference (row col : Z) :
  -1 <= row -> 0 <= col < 26 ->
  parseCellRef (getCellReference row col) = Some {| row := row; col := col |}.
Proof.
  intros Hrow Hcol. unfold getCellReference, parseCellRef, fromCharCode.
  set (rowNumber := if row =? -1 then 1 else row + 2).
  assert (1 <= rowNumber) as Hpos by (subst rowNumber; destruct (Z.eqb_spec row (-1)); lia).
  unfold intToString. destruct (Z.ltb_spec rowNumber 0); [lia|].
  destruct (digitsOf_spec rowNumber [] ltac:(lia)) as (ds & -> & Hne & Hall & Hval).
  rewrite app_nil_r, Z.mod_small by lia.
  destruct (takeWhile_isUpper_digits ds Hall) as [Htake Hdrop].
  unfold matchCellRef. cbn [app takeWhile dropWhile].
  assert (isUpper (65 + col) = true) as -> by (unfold isUpper; lia).
  rewrite Htake, Hdrop. destruct ds as [|d ds]; [done|].
  rewrite Hall, Hval. unfold columnLetterToIndex. cbn [fold_left].
  f_equal. f_equal; [|lia].
  subst rowNumber. destruct (Z.eqb_spec row (-1)); [now subst|].
  destruct (Z.eqb_spec (row + 2) 1); lia.
Qed.

(** C6.  The reference of data row 0 in column 26 (shown as column AA) is
    the string ["[2"], which the decoding used by [getCellValue] rejects:
    converting the position (0, 26) to a reference and back does not yield
    the position. *)
Theorem ref_roundtrip_fails_beyond_Z :
  getCellReference 0 26 = js "[2"
  /\ parseCellRef (getCellReference 0 26) = None
  /\ getColumnLetter 26 = js "AA"
  /\ parseCellRef (getColumnLetter 26 ++ intToString 2) = Some {| row := 0; col := 26 |}.
Proof. repeat split; reflexivity. Qed.

(** ** Viewport window *)

Lemma Qdiv_ROW_HEIGHT_nonneg (x : Q) :
  (0 <= x)%Q -> (0 <= x / inject_Z ROW_HEIGHT)%Q.
Proof. intros Hx. apply Qle_shift_div_l; [reflexivity|]. now rewrite Qmult_0_l. Qed.

Lemma Qfloor_nonneg (x : Q) : (0 <= x)%Q -> 0 <= Qfloor x.
Proof. intros Hx. change 0 with (Qfloor 0). now apply Qfloor_resp_le. Qed.

Lemma Qceiling_nonneg (x : Q) : (0 <= x)%Q -> 0 <= Qceiling x.
Proof. intros Hx. change 0 with (Qceiling 0). now apply Qceiling_resp_le. Qed.

(** The length of [l.slice(first, last)] for bounds that are not negative. *)
Lemma length_slice {A} (first last : Z) (l : list A) :
  0 <= first -> 0 <= last ->
  Z.of_nat (length (slice first last l))
  = Z.max 0 (Z.min last (Z.of_nat (length l)) - Z.min first (Z.of_nat (length l))).
Proof.
  intros Hf Hl. unfold slice, sliceIndex.
  destruct (Z.ltb_spec first 0), (Z.ltb_spec last 0); try lia.
  rewrite length_take, length_drop. lia.
Qed.

(** C2, amended.  Whenever the first row to materialise exists or is the end
    of the list, that is [floor(scrollTop / ROW_HEIGHT) - BUFFER_SIZE] is at
    most the number of rows, the window is well formed: the indices are
    ordered within [0, totalRows], the slice holds the rows between them, and
    the two spacers and the slice together are as tall as all the rows. *)
Theorem viewport_window_invariants {A} (filteredData : list A)
    (scrollTop containerHeight : Q) :
  (0 <= scrollTop)%Q -> (0 <= containerHeight)%Q ->
  Qfloor (scrollTop / inject_Z ROW_HEIGHT) - BUFFER_SIZE
    <= Z.of_nat (length filteredData) ->
  let v := virtualScroll filteredData scrollTop containerHeight in
  let totalRows := Z.of_nat (length filteredData) in
  0 <= startIndex v <= endIndex v /\ endIndex v <= totalRows
  /\ Z.of_nat (length (visibleRows v)) = endIndex v - startIndex v
  /\ leadingSpacer v = startIndex v * ROW_HEIGHT
  /\ trailingSpacer filteredData v = (totalRows - endIndex v) * ROW_HEIGHT
  /\ leadingSpacer v + Z.of_nat (length (visibleRows v)) * ROW_HEIGHT
       + trailingSpacer filteredData v
     = totalRows * ROW_HEIGHT.
Proof.
  intros Hs Hh Hstart v totalRows.
  pose proof (Qceiling_nonneg _ (Qdiv_ROW_HEIGHT_nonneg _ Hh)) as Hceil.
  pose proof (Qfloor_nonneg _ (Qdiv_ROW_HEIGHT_nonneg _ Hs)) as Hfloor.
  assert (Hlen : Z.of_nat (length (visibleRows v)) = endIndex v - startIndex v).
  { subst v. unfold virtualScroll. cbn [visibleRows startIndex endIndex].
    rewrite length_slice by (unfold BUFFER_SIZE in *; lia).
    unfold BUFFER_SIZE in *. lia. }
  assert (Hlead : leadingSpacer v = startIndex v * ROW_HEIGHT).
  { unfold leadingSpacer. subst v. unfold virtualScroll.
    cbn [offsetY startIndex]. case Z.ltb_spec; unfold ROW_HEIGHT; lia. }
  assert (Htrail : trailingSpacer filteredData v = (totalRows - endIndex v) * ROW_HEIGHT).
  { unfold trailingSpacer. subst v totalRows. unfold virtualScroll.
    cbn [endIndex]. case Z.ltb_spec; unfold ROW_HEIGHT; lia. }
  rewrite Hlead, Htrail, Hlen.
  subst v totalRows. unfold virtualScroll in *. cbn [startIndex endIndex] in *.
  unfold BUFFER_SIZE, ROW_HEIGHT in *. lia.
Qed.

Lemma viewport_window_invariants_witness :
  let v := virtualScroll [1; 2; 3] (100 # 1) (600 # 1) in
  0 <= startIndex v <= endIndex v /\ endIndex v <= 3
  /\ Z.of_nat (length (visibleRows v)) = endIndex v - startIndex v
  /\ leadingSpacer v = startIndex v * ROW_HEIGHT
  /\ trailingSpacer [1; 2; 3] v = (3 - endIndex v) * ROW_HEIGHT
  /\ leadingSpacer v + Z.of_nat (length (visibleRows v)) * ROW_HEIGHT
       + trailingSpacer [1; 2; 3] v
     = 3 * ROW_HEIGHT.
Proof.
  apply (viewport_window_invariants [1; 2; 3] (100 # 1) (600 # 1));
    [discriminate | discriminate | vm_compute; discriminate].
Defined.

(** C2 as stated fails: with two rows left (after filtering) and the
    container still scrolled to 800px, the window starts at row 10 and ends
    at row 2, and the only spacer is 400px tall where two rows take 80px. *)
Lemma viewport_window_counterexample :
  (0 <= 800 # 1)%Q /\ (0 <= 600 # 1)%Q
  /\ startIndex (virtualScroll [1; 2] (800 # 1) (600 # 1)) = 10
  /\ endIndex (virtualScroll [1; 2] (800 # 1) (600 # 1)) = 2
  /\ ~ (startIndex (virtualScroll [1; 2] (800 # 1) (600 # 1))
        <= endIndex (virtualScroll [1; 2] (800 # 1) (600 # 1)))
  /\ leadingSpacer (virtualScroll [1; 2] (800 # 1) (600 # 1))
     + Z.of_nat (length (visibleRows (virtualScroll [1; 2] (800 # 1) (600 # 1))))
       * ROW_HEIGHT
     + trailingSpacer [1; 2] (virtualScroll [1; 2] (800 # 1) (600 # 1))
     <> 2 * ROW_HEIGHT.
Proof.
  split; [discriminate|]. split; [discriminate|].
  split; [reflexivity|]. split; [reflexivity|].
  split; vm_compute; [intros Hle; now apply Hle | discriminate].
Qed.

(** ** Selection model *)

(** C9, amended.  A click with Ctrl or Cmd held replaces the set of selected
    cells by its symmetric difference with the singleton of the clicked
    position, makes that position the primary cell, and resets both the
    selected range and the editing cell to [null]. *)
Theorem toggle_is_symmetric_difference (row col : Z) (e : MouseEvent)
    (s : SelectionState) :
  ctrlKey e || metaKey e = true ->
  selectedCells (handleCellClick row col e s)
    = symmetricDifference (selectedCells s) {[ cellKey row col ]}
  /\ selectedRange (handleCellClick row col e s) = None
  /\ selectedCell (handleCellClick row col e s) = Some {| row := row; col := col |}
  /\ editingCell (handleCellClick row col e s) = None.
Proof.
  intros Hmod. unfold handleCellClick, symmetricDifference. rewrite Hmod.
  cbn [selectedCells selectedRange selectedCell editingCell].
  repeat split. apply set_eq. intros k.
  rewrite elem_of_union, !elem_of_difference, !elem_of_singleton.
  case_bool_decide as Hin;
    [rewrite elem_of_difference | rewrite elem_of_union]; rewrite elem_of_singleton;
    destruct (decide (k = cellKey row col)) as [->|]; tauto.
Qed.

Lemma toggle_is_symmetric_difference_witness :
  selectedCells
    (handleCellClick 0 0 {| ctrlKey := true; metaKey := false; shiftKey := false |}
       afterShiftClick)
  = symmetricDifference (selectedCells afterShiftClick) {[ cellKey 0 0 ]}
  /\ selectedRange
       (handleCellClick 0 0 {| ctrlKey := true; metaKey := false; shiftKey := false |}
          afterShiftClick) = None
  /\ selectedCell
       (handleCellClick 0 0 {| ctrlKey := true; metaKey := false; shiftKey := false |}
          afterShiftClick) = Some {| row := 0; col := 0 |}
  /\ editingCell
       (handleCellClick 0 0 {| ctrlKey := true; metaKey := false; shiftKey := false |}
          afterShiftClick) = None.
Proof.
  apply (toggle_is_symmetric_difference 0 0
           {| ctrlKey := true; metaKey := false; shiftKey := false |} afterShiftClick).
  reflexivity.
Defined.

(** C9 as stated fails: after a shift-click the selected range is the
    rectangle from (0, 0) to (1, 1), and a Ctrl-click on (2, 2) leaves no
    selected range. *)
Lemma toggle_alters_selectedRange :
  selectedRange afterShiftClick
    = Some {| range_start := {| row := 0; col := 0 |};
              range_end := {| row := 1; col := 1 |} |}
  /\ selectedRange
       (handleCellClick 2 2 {| ctrlKey := true; metaKey := false; shiftKey := false |}
          afterShiftClick)
     <> selectedRange afterShiftClick.
Proof. split; [reflexivity | discriminate]. Qed.

(** ** Grid store: writes through a shared row *)

Lemma at_Some {A} (l : list A) (i : Z) (x : A) :
  at_ l i = Some x <-> 0 <= i /\ l !! Z.to_nat i = Some x.
Proof. unfold at_. destruct (Z.ltb_spec i 0); split; (intros [? ?] || intro); (done || lia || auto). Qed.

Lemma at_map {A B} (f : A -> B) (l : list A) (i : Z) :
  at_ (map f l) i = f <$> at_ l i.
Proof. unfold at_. destruct (i <? 0); [done|]. apply list_lookup_fmap. Qed.

Lemma rowAt_insert (σ : Store) (l l' : loc) (cells : list CellData) :
  (l < length σ)%nat ->
  rowAt (<[ l := cells ]> σ) l' = if decide (l = l') then cells else rowAt σ l'.
Proof.
  intros Hl. unfold rowAt. destruct (decide (l = l')) as [<-|Hne].
  - now rewrite list_lookup_insert_eq.
  - now rewrite list_lookup_insert_ne.
Qed.

(** A write to an existing cell of a grid whose rows are distinct arrays
    replaces that cell and no other. *)
Lemma writeCell_frame (rows : list loc) (σ : Store) (row col : Z)
    (f : CellData -> CellData) (cell : CellData) :
  NoDup rows ->
  cellAt (cellsOf σ rows) row col = Some cell ->
  exists σ',
    writeCell rows σ row col f = Some σ'
    /\ length σ' = length σ
    /\ cellAt (cellsOf σ' rows) row col = Some (f cell)
    /\ forall r k, (r, k) <> (row, col) ->
         cellAt (cellsOf σ' rows) r k = cellAt (cellsOf σ rows) r k.
Proof.
  intros Hdup Hcell. unfold cellAt, cellsOf in Hcell. rewrite at_map in Hcell.
  destruct (at_ rows row) as [l|] eqn:Hrow; [|done]. cbn in Hcell.
  unfold writeCell. rewrite Hrow, Hcell. eexists. split; [reflexivity|].
  apply at_Some in Hrow as [Hrow0 Hrow]. apply at_Some in Hcell as [Hcol0 Hcol].
  assert (l < length σ)%nat as Hl.
  { unfold rowAt in Hcol. destruct (σ !! l) eqn:Hσ; [|done].
    now apply lookup_lt_Some in Hσ. }
  split; [apply length_insert|]. split.
  - unfold cellAt, cellsOf. rewrite at_map.
    rewrite (proj2 (at_Some rows row l)) by done. cbn.
    rewrite rowAt_insert, decide_True by done.
    apply at_Some. split; [done|].
    apply list_lookup_insert_eq. now apply lookup_lt_Some in Hcol.
  - intros r k Hne. unfold cellAt, cellsOf. rewrite !at_map.
    destruct (at_ rows r) as [l'|] eqn:Hr; [|done]. cbn.
    rewrite rowAt_insert by done. destruct (decide (l = l')) as [<-|]; [|done].
    apply at_Some in Hr as [Hr0 Hr].
    assert (Z.to_nat r = Z.to_nat row) by (eapply NoDup_lookup; eauto).
    assert (r = row) by lia. subst r.
    assert (k <> col) by congruence.
    unfold at_. destruct (k <? 0) eqn:Hk; [done|].
    apply list_lookup_insert_ne. lia.
Qed.

(** C10.  Clearing an in-bounds data cell, which is what Delete or Backspace
    does to the selected cell, leaves in its place a cell with the empty
    string as value, no formula and the same format, and leaves every other
    cell of the grid as it was.  The rows of the grid are distinct arrays, as
    they are in every state a session reaches ([wellFormed_run]). *)
Theorem clearCell_resets_only_that_cell (columns : list Column) (c : GridState)
    (σ : Store) (row col : Z) (cell : CellData) :
  NoDup (gridData c) ->
  cellAt (cellsOf σ (gridData c)) row col = Some cell ->
  let o := clearCell columns row col c σ in
  handleKeyDown_Delete columns (Some {| row := row; col := col |}) c σ = o
  /\ threw o = false
  /\ cellAt (cellsOf (store o) (gridData (next o))) row col
     = Some {| value := VStr []; format := format cell; formula := None |}
  /\ forall r k, (r, k) <> (row, col) ->
       cellAt (cellsOf (store o) (gridData (next o))) r k
       = cellAt (cellsOf σ (gridData c)) r k.
Proof.
  intros Hdup Hcell o.
  assert (0 <= row) as Hrow.
  { unfold cellAt in Hcell. destruct (at_ _ row) eqn:E; [|done].
    now apply at_Some in E as [? _]. }
  split.
  { unfold handleKeyDown_Delete. destruct (Z.eqb_spec row (-1)); [lia|done]. }
  destruct (writeCell_frame _ _ _ _
              (fun cell => {| value := VStr []; format := format cell; formula := None |})
              _ Hdup Hcell) as (σ' & Hw & _ & Hnew & Hframe).
  subst o. unfold clearCell. rewrite Hw. cbn. auto.
Qed.

Example sheetMounted_grid :
  liveGrid sheetMounted
  = [ [sheetCell "B"; amountCell 20]; [sheetCell "A"; amountCell 10];
      [sheetCell "C"; amountCell 30] ]
  /\ newestSnapshot sheetMounted.1 = Some (liveGrid sheetMounted)
  /\ historyIndex sheetMounted.1 = 0.
Proof. repeat split; reflexivity. Qed.

Lemma clearCell_resets_only_that_cell_witness :
  let o := clearCell sheetColumns 1 1 sheetMounted.1 sheetMounted.2 in
  handleKeyDown_Delete sheetColumns (Some {| row := 1; col := 1 |})
    sheetMounted.1 sheetMounted.2 = o
  /\ threw o = false
  /\ cellAt (cellsOf (store o) (gridData (next o))) 1 1
     = Some {| value := VStr []; format := format (amountCell 10); formula := None |}
  /\ forall r k, (r, k) <> (1, 1) ->
       cellAt (cellsOf (store o) (gridData (next o))) r k
       = cellAt (cellsOf sheetMounted.2 (gridData sheetMounted.1)) r k.
Proof.
  apply (clearCell_resets_only_that_cell sheetColumns sheetMounted.1 sheetMounted.2
           1 1 (amountCell 10)).
  - apply (NoDup_seq 0 3).
  - reflexivity.
Defined.

(** ** States of a session keep rows distinct *)

Lemma spliceIn_perm {A} (start : Z) (x : A) (l : list A) :
  spliceIn start x l ≡ₚ x :: l.
Proof.
  unfold spliceIn. rewrite <- Permutation_middle. now rewrite take_drop.
Qed.

Lemma insertSorted_perm {A} (cmp : A -> A -> number) (x : A) (l : list A) :
  insertSorted cmp x l ≡ₚ x :: l.
Proof.
  induction l as [|y l IH]; cbn; [done|].
  destruct (Num.sign (cmp y x)); try done; rewrite IH; apply perm_swap.
Qed.

Lemma sortWith_perm {A} (cmp : A -> A -> number) (l : list A) :
  sortWith cmp l ≡ₚ l.
Proof.
  induction l as [|x l IH]; cbn; [done|].
  now rewrite insertSorted_perm, IH.
Qed.

Lemma wellFormed_alloc (σ : Store) (rows : list (list CellData)) (s : GridState) :
  wellFormed (setGridData (allocRows σ rows).2 s, (allocRows σ rows).1).
Proof.
  split; cbn.
  - apply NoDup_seq.
  - apply Forall_forall. intros l Hl%elem_of_seq. rewrite length_app. lia.
Qed.

Lemma wellFormed_same_rows (c s : GridState) (σ σ' : Store) :
  gridData s = gridData c -> length σ' = length σ ->
  wellFormed (c, σ) -> wellFormed (s, σ').
Proof. intros Hg Hl [? ?]. split; cbn in *; rewrite ?Hg, ?Hl; done. Qed.

Lemma wellFormed_perm (c s : GridState) (σ : Store) :
  gridData s ≡ₚ gridData c -> wellFormed (c, σ) -> wellFormed (s, σ).
Proof. intros Hp [? ?]. split; cbn in *; now rewrite Hp. Qed.

Lemma writeCell_length (rows : list loc) (σ σ' : Store) (row col : Z)
    (f : CellData -> CellData) :
  writeCell rows σ row col f = Some σ' -> length σ' = length σ.
Proof.
  unfold writeCell. destruct (at_ rows row); [|done].
  destruct (at_ _ col); [|done]. intros [= <-]. apply length_insert.
Qed.

Lemma wellFormed_mount (columns : list Column) (items : list (gmap jsstring jsval)) :
  wellFormed (mount columns items).
Proof.
  split; cbn.
  - apply NoDup_seq.
  - apply Forall_forall. intros l Hl%elem_of_seq. lia.
Qed.

Lemma wellFormed_restore (columns : list Column) (target : Z) (snapshot : HistoryState)
    (c : GridState) (σ : Store) :
  wellFormed (next (restore columns target snapshot c σ),
              store (restore columns target snapshot c σ)).
Proof.
  unfold restore. cbn.
  apply (wellFormed_same_rows (setGridData (allocRows σ _).2 c) _ _ _ eq_refl eq_refl).
  apply wellFormed_alloc.
Qed.

Lemma wellFormed_step `{Platform} (columns : list Column) (e : Event)
    (st : GridState * Store) :
  wellFormed st -> wellFormed (step columns e st).
Proof.
  destruct st as [c σ]. intros Hwf.
  assert (Hsame : forall s σ', gridData s = gridData c -> length σ' = length σ ->
                               wellFormed (s, σ'))
    by (intros; now apply (wellFormed_same_rows c s σ σ')).
  destruct e; cbn [step].
  - unfold initHistory. destruct (history c); now apply Hsame.
  - unfold handleSort. destruct (_ && _); cbn; [now apply Hsame|].
    eapply wellFormed_perm; [|exact Hwf]. cbn. apply sortWith_perm.
  - now apply Hsame.
  - unfold handleColumnDrop. destruct (draggedColumn c) as [sourceIndex|];
      [|now apply Hsame].
    destruct (sourceIndex =? targetIndex); [now apply Hsame|].
    destruct (mapM _ _) as [newRows|]; [|now apply Hsame].
    destruct (moveItem _ _ (columnWidths c)); cbn; [|now apply Hsame].
    apply (wellFormed_same_rows (setGridData (allocRows σ newRows).2 c) _ _ _
             eq_refl eq_refl).
    apply wellFormed_alloc.
  - unfold formatCell. destruct (writeCell _ _ _ _ _) eqn:Hw; cbn.
    + apply Hsame; [done|]. eapply writeCell_length, Hw.
    + now apply Hsame.
  - unfold handleKeyDown_Delete. destruct selected as [[row col]|]; [|now apply Hsame].
    destruct (row =? -1); [now apply Hsame|].
    unfold clearCell. destruct (writeCell _ _ _ _ _) eqn:Hw; cbn.
    + apply Hsame; [done|]. eapply writeCell_length, Hw.
    + now apply Hsame.
  - unfold insertRowAbove. cbn. destruct Hwf as [Hdup Hlt]. cbn in *.
    split; cbn.
    + rewrite spliceIn_perm. apply NoDup_cons. split; [|done].
      intros Hin. rewrite Forall_forall in Hlt. apply Hlt in Hin. lia.
    + rewrite spliceIn_perm. apply Forall_cons. rewrite length_app. cbn. split; [lia|].
      eapply Forall_impl; [exact Hlt|]. cbn. lia.
  - unfold handleInputChange. destruct (row0 =? -1); [now apply Hsame|].
    destruct (_ && _); [now apply Hsame|].
    destruct (at_ (gridData c) row0); [|now apply Hsame].
    destruct (at_ _ col0); cbn; [|now apply Hsame].
    apply Hsame; [done|]. apply length_insert.
  - now apply Hsame.
  - unfold undo. destruct (0 <? historyIndex c); [|now apply Hsame].
    destruct (at_ _ _); [apply wellFormed_restore|now apply Hsame].
  - unfold redo. destruct (_ <? _); [|now apply Hsame].
    destruct (at_ _ _); [apply wellFormed_restore|now apply Hsame].
Qed.

(** Every state of a session that starts with the mount has distinct row
    arrays, all of them in the store. *)
Lemma wellFormed_run `{Platform} (columns : list Column)
    (items : list (gmap jsstring jsval)) (events : list Event) :
  wellFormed (run columns events (mount columns items)).
Proof.
  unfold run. generalize (wellFormed_mount columns items).
  generalize (mount columns items). induction events as [|e events IH]; intros st Hwf.
  - exact Hwf.
  - cbn. apply IH. now apply wellFormed_step.
Qed.

(** ** History *)

(** A mutation written through the shared rows (format, clear) is in the
    store by the time [saveToHistory] reads it: the newest snapshot is a copy
    of the grid the mutation produced. *)
Lemma formatCell_snapshot (columns : list Column) (row col : Z) (patch : CellFormat)
    (c : GridState) (σ : Store) :
  threw (formatCell columns row col patch c σ) = false ->
  newestSnapshot (next (formatCell columns row col patch c σ))
  = Some (jsonGrid (liveGrid (next (formatCell columns row col patch c σ),
                              store (formatCell columns row col patch c σ)))).
Proof.
  unfold formatCell. destruct (writeCell _ _ _ _ _); [intros _|done].
  unfold newestSnapshot, liveGrid. cbn. now rewrite last_snoc.
Qed.

(** The same for a cleared cell. *)
Lemma clearCell_snapshot (columns : list Column) (row col : Z)
    (c : GridState) (σ : Store) :
  threw (clearCell columns row col c σ) = false ->
  newestSnapshot (next (clearCell columns row col c σ))
  = Some (jsonGrid (liveGrid (next (clearCell columns row col c σ),
                              store (clearCell columns row col c σ)))).
Proof.
  unfold clearCell. destruct (writeCell _ _ _ _ _); [intros _|done].
  unfold newestSnapshot, liveGrid. cbn. now rewrite last_snoc.
Qed.

(** A mutation that installs a new array (sort, reorder, insert) is not yet
    in the render that [saveToHistory] closes over: the newest snapshot is a
    copy of the grid before the mutation. *)
Lemma handleSort_snapshot `{Platform} (columns : list Column) (colIndex : Z)
    (c : GridState) (σ : Store) :
  threw (handleSort columns colIndex c σ) = false ->
  newestSnapshot (next (handleSort columns colIndex c σ))
  = Some (jsonGrid (liveGrid (c, σ))).
Proof.
  unfold handleSort. destruct (_ && _); [done|intros _].
  unfold newestSnapshot, liveGrid. cbn. now rewrite last_snoc.
Qed.

(** C4.  Sorting the mounted sheet by its second column puts the rows in the
    order A, B, C on screen, while the snapshot recorded for the sort holds
    the order B, A, C that was on screen before it. *)
Theorem sort_snapshot_is_stale :
  liveGrid (run (H := inertHost) sheetColumns [SortClick 1] sheetMounted)
  = [ [sheetCell "A"; amountCell 10]; [sheetCell "B"; amountCell 20];
      [sheetCell "C"; amountCell 30] ]
  /\ newestSnapshot (run (H := inertHost) sheetColumns [SortClick 1] sheetMounted).1
     = Some [ [sheetCell "B"; amountCell 20]; [sheetCell "A"; amountCell 10];
              [sheetCell "C"; amountCell 30] ]
  /\ newestSnapshot (run (H := inertHost) sheetColumns [SortClick 1] sheetMounted).1
     <> Some (liveGrid (run (H := inertHost) sheetColumns [SortClick 1] sheetMounted)).
Proof.
  split; [reflexivity|]. split; [reflexivity|].
  vm_compute. intros [=].
Qed.

(** The same for a column reorder: the columns are swapped on screen and
    not in the snapshot recorded for the drop. *)
Lemma column_drop_snapshot_is_stale :
  liveGrid (run (H := inertHost) sheetColumns [ColumnDragStart 0; ColumnDrop 1]
              sheetMounted)
  = [ [amountCell 20; sheetCell "B"]; [amountCell 10; sheetCell "A"];
      [amountCell 30; sheetCell "C"] ]
  /\ newestSnapshot
       (run (H := inertHost) sheetColumns [ColumnDragStart 0; ColumnDrop 1]
          sheetMounted).1
     = Some (liveGrid sheetMounted).
Proof. split; reflexivity. Qed.

(** And for a row insert: the new row is on screen and not in the snapshot
    recorded for the insert. *)
Lemma row_insert_snapshot_is_stale :
  liveGrid (run (H := inertHost) sheetColumns [InsertRowAbove 0] sheetMounted)
  = [emptyCell; emptyCell] :: liveGrid sheetMounted
  /\ newestSnapshot (run (H := inertHost) sheetColumns [InsertRowAbove 0] sheetMounted).1
     = Some (liveGrid sheetMounted).
Proof. split; reflexivity. Qed.

(** C3.  After two recorded sorts of the mounted sheet the rows are in the
    order C, B, A.  Undo shows B, A, C (the order before the first sort, not
    A, B, C), and redo then shows A, B, C: not the grid that was on screen
    before the undo. *)
Theorem undo_redo_after_sorts :
  liveGrid (run (H := inertHost) sheetColumns [SortClick 1; SortClick 1] sheetMounted)
  = [ [sheetCell "C"; amountCell 30]; [sheetCell "B"; amountCell 20];
      [sheetCell "A"; amountCell 10] ]
  /\ Z.of_nat (length (history
        (run (H := inertHost) sheetColumns [SortClick 1; SortClick 1] sheetMounted).1))
     = 3
  /\ liveGrid (run (H := inertHost) sheetColumns
                 [SortClick 1; SortClick 1; UndoKey] sheetMounted)
     = [ [sheetCell "B"; amountCell 20]; [sheetCell "A"; amountCell 10];
         [sheetCell "C"; amountCell 30] ]
  /\ liveGrid (run (H := inertHost) sheetColumns
                 [SortClick 1; SortClick 1; UndoKey; RedoKey] sheetMounted)
     = [ [sheetCell "A"; amountCell 10]; [sheetCell "B"; amountCell 20];
         [sheetCell "C"; amountCell 30] ]
  /\ liveGrid (run (H := inertHost) sheetColumns
                 [SortClick 1; SortClick 1; UndoKey; RedoKey] sheetMounted)
     <> liveGrid (run (H := inertHost) sheetColumns [SortClick 1; SortClick 1]
                    sheetMounted).
Proof.
  split; [reflexivity|]. split; [reflexivity|]. split; [reflexivity|].
  split; [reflexivity|]. vm_compute. intros [=].
Qed.

(** ** Column sort *)

Lemma Qc_sub_compare (x y : Qc) : ((x + - y) ?= 0)%Qc = (x ?= y)%Qc.
Proof.
  destruct (x ?= y)%Qc eqn:E.
  - apply Qceq_alt in E as ->. apply Qceq_alt. ring.
  - apply Qclt_alt in E. apply Qclt_alt. apply Qclt_minus_iff.
    apply Qclt_minus_iff in E. now replace (0 + - (x + - y))%Qc with (y + - x)%Qc by ring.
  - apply Qcgt_alt in E. apply Qcgt_alt. apply Qclt_minus_iff in E. exact E.
Qed.

Lemma Qc_compare_antisym (x y : Qc) : (y ?= x)%Qc = CompOpp (x ?= y)%Qc.
Proof. unfold Qccompare. symmetry. apply Qcompare_antisym. Qed.

Lemma Z_compare_trans (x y z : Z) (c : comparison) :
  (x ?= y) = c -> (y ?= z) = c -> (x ?= z) = c.
Proof.
  destruct c; rewrite ?Z.compare_eq_iff, ?Z.compare_lt_iff, ?Z.compare_gt_iff; lia.
Qed.

Lemma lexCompare_antisym (a b : jsstring) : lexCompare b a = CompOpp (lexCompare a b).
Proof.
  apply list_compare_antisym.
  - intros x y. apply Z.compare_eq_iff.
  - intros x y. apply Z.compare_antisym.
Qed.

Lemma lexCompare_trans (a b c : jsstring) (r : comparison) :
  lexCompare a b = r -> lexCompare b c = r -> lexCompare a c = r.
Proof.
  apply list_compare_trans.
  - intros x y. apply Z.compare_eq_iff.
  - intros x y z r'. apply Z_compare_trans.
  - intros x y. apply Z.compare_antisym.
Qed.

Lemma lexCompare_refl (a : jsstring) : lexCompare a a = Eq.
Proof. induction a as [|x a IH]; cbn; [done|]. now rewrite Z.compare_refl. Qed.

Lemma lexCompare_Eq (a b : jsstring) : lexCompare a b = Eq -> a = b.
Proof.
  revert b. induction a as [|x a IH]; intros [|y b]; cbn; try done.
  destruct (x ?= y) eqn:E; try done. apply Z.compare_eq_iff in E as ->.
  intros ->%IH. done.
Qed.

(** [a < b] on strings is the lexicographic order. *)
Lemma strLt_lexCompare (a b : jsstring) :
  strLt a b = true <-> lexCompare a b = Lt.
Proof.
  revert b. induction a as [|x a IH]; intros [|y b]; cbn; try done.
  specialize (IH b). unfold lexCompare in IH.
  destruct (Z.compare_spec x y) as [->| |].
  - rewrite Z.ltb_irrefl, Z.eqb_refl. cbn. exact IH.
  - assert ((x <? y) = true) as -> by lia. done.
  - assert ((x <? y) = false) as -> by lia. assert ((x =? y) = false) as -> by lia. done.
Qed.

(** The sign of what the comparator returns for two strings. *)
Lemma sign_compare_strings (a b : jsstring) :
  Num.sign (if strLt a b then ofZ (-1) else if strLt b a then ofZ 1 else ofZ 0)
  = lexCompare a b.
Proof.
  pose proof (strLt_lexCompare a b) as Hab. pose proof (strLt_lexCompare b a) as Hba.
  rewrite (lexCompare_antisym a b) in Hba.
  destruct (strLt a b), (strLt b a), (lexCompare a b); cbn in *;
    try reflexivity; intuition congruence.
Qed.

Lemma numCompare_Fin (x y : Qc) : numCompare (Fin x) (Fin y) = (x ?= y)%Qc.
Proof.
  unfold numCompare. cbn. rewrite (Qc_compare_antisym x y).
  now destruct (x ?= y)%Qc.
Qed.

Lemma numCompare_antisym (a b : number) : numCompare b a = CompOpp (numCompare a b).
Proof.
  destruct a as [x| | |], b as [y| | |]; try reflexivity.
  rewrite !numCompare_Fin. apply Qc_compare_antisym.
Qed.

(** [a - b] is negative, zero or positive as [a] is below, level with or
    above [b]. *)
Lemma sign_sub (a b : number) :
  a <> NaN -> b <> NaN -> Num.sign (Num.sub a b) = numCompare a b.
Proof.
  destruct a as [x| | |], b as [y| | |]; intros Ha Hb; try done.
  rewrite numCompare_Fin. cbn. apply Qc_sub_compare.
Qed.

Lemma sign_sub_antisym (a b : number) :
  Num.sign (Num.sub b a) = CompOpp (Num.sign (Num.sub a b)).
Proof.
  destruct a as [x| | |], b as [y| | |]; try reflexivity.
  cbn. rewrite !Qc_sub_compare. apply Qc_compare_antisym.
Qed.

Lemma numCompare_trans (a b c : number) :
  a <> NaN -> b <> NaN -> c <> NaN ->
  numCompare a b <> Gt -> numCompare b c <> Gt -> numCompare a c <> Gt.
Proof.
  destruct a as [x| | |], b as [y| | |], c as [z| | |]; intros Ha Hb Hc; try done.
  rewrite !numCompare_Fin, <- !Qcle_alt. apply Qcle_trans.
Qed.

Lemma lexCompare_trans_le (a b c : jsstring) :
  lexCompare a b <> Gt -> lexCompare b c <> Gt -> lexCompare a c <> Gt.
Proof.
  intros Hab Hbc.
  destruct (lexCompare a b) eqn:Eab; [| |done].
  - apply lexCompare_Eq in Eab as ->. done.
  - destruct (lexCompare b c) eqn:Ebc; [| |done].
    + apply lexCompare_Eq in Ebc as ->. now rewrite Eab.
    + now rewrite (lexCompare_trans a b c Lt).
Qed.

Section SortFacts.
Context `{Platform}.

Lemma compareValues_numbers (a b : number) :
  a <> NaN -> b <> NaN ->
  Num.sign (compareValues asc (VNum a) (VNum b)) = numCompare a b.
Proof. apply sign_sub. Qed.

Lemma compareValues_strings (a b : jsval) :
  isNumber a && isNumber b = false ->
  Num.sign (compareValues asc a b)
  = lexCompare (toLowerCase (toString a)) (toLowerCase (toString b)).
Proof.
  intros Hab. unfold compareValues.
  destruct a, b; try discriminate Hab; apply sign_compare_strings.
Qed.

Lemma compareValues_desc (a b : jsval) :
  Num.sign (compareValues desc a b) = CompOpp (Num.sign (compareValues asc a b)).
Proof.
  destruct (isNumber a && isNumber b) eqn:Hab.
  - destruct a, b; try discriminate Hab. apply sign_sub_antisym.
  - rewrite compareValues_strings by done.
    rewrite <- lexCompare_antisym, <- sign_compare_strings.
    unfold compareValues. destruct a, b; try discriminate Hab; reflexivity.
Qed.

Lemma compareValues_antisym (d : SortDirection) (a b : jsval) :
  Num.sign (compareValues d b a) = CompOpp (Num.sign (compareValues d a b)).
Proof.
  assert (Hasc : forall a b, Num.sign (compareValues asc b a)
                             = CompOpp (Num.sign (compareValues asc a b))).
  { clear a b. intros a b. destruct (isNumber a && isNumber b) eqn:Hab.
    - destruct a, b; try discriminate Hab. apply sign_sub_antisym.
    - rewrite (compareValues_strings b a) by (now rewrite andb_comm).
      rewrite (compareValues_strings a b) by done.
      apply lexCompare_antisym. }
  destruct d; [apply Hasc|]. rewrite !compareValues_desc. f_equal. apply Hasc.
Qed.

Lemma compareValues_trans_asc (a b c : jsval) :
  homogeneous [a; b; c] ->
  Num.sign (compareValues asc a b) <> Gt ->
  Num.sign (compareValues asc b c) <> Gt ->
  Num.sign (compareValues asc a c) <> Gt.
Proof.
  intros [Hnum|Hstr].
  - apply Forall_cons in Hnum as [Ha Hnum]. apply Forall_cons in Hnum as [Hb Hnum].
    apply Forall_cons in Hnum as [Hc _].
    destruct a as [a| |], b as [b| |], c as [c| |]; try discriminate.
    rewrite !compareValues_numbers by (now intros ->).
    apply numCompare_trans; now intros ->.
  - apply Forall_cons in Hstr as [Ha Hstr]. apply Forall_cons in Hstr as [Hb Hstr].
    apply Forall_cons in Hstr as [Hc _].
    rewrite !compareValues_strings by (now rewrite ?Ha, ?Hb).
    apply lexCompare_trans_le.
Qed.

End SortFacts.

(** C5, amended.  The comparator of the column sort compares two values
    numerically when both are of type number (neither being NaN), and
    otherwise compares their lower-cased string representations
    lexicographically by code units; descending is the mirror image of
    ascending; swapping the operands flips the result; and the comparison is
    transitive on values that are all numbers other than NaN or all of a type
    other than number. *)
Theorem sort_comparator `{Platform} :
  (forall x y : number, x <> NaN -> y <> NaN ->
     Num.sign (compareValues asc (VNum x) (VNum y)) = numCompare x y)
  /\ (forall a b : jsval, isNumber a && isNumber b = false ->
        Num.sign (compareValues asc a b)
        = lexCompare (toLowerCase (toString a)) (toLowerCase (toString b)))
  /\ (forall a b : jsval,
        Num.sign (compareValues desc a b) = CompOpp (Num.sign (compareValues asc a b)))
  /\ (forall (d : SortDirection) (a b : jsval),
        Num.sign (compareValues d b a) = CompOpp (Num.sign (compareValues d a b)))
  /\ (forall (d : SortDirection) (a b c : jsval), homogeneous [a; b; c] ->
        Num.sign (compareValues d a b) <> Gt ->
        Num.sign (compareValues d b c) <> Gt ->
        Num.sign (compareValues d a c) <> Gt).
Proof.
  split; [apply compareValues_numbers|]. split; [apply compareValues_strings|].
  split; [apply compareValues_desc|]. split; [apply compareValues_antisym|].
  intros [] a b c Hhom; [now apply compareValues_trans_asc|].
  rewrite !compareValues_desc, <- !compareValues_antisym. intros Hab Hbc.
  apply (compareValues_trans_asc c b a); [|done|done].
  destruct Hhom as [Hh|Hh]; [left|right];
    apply Forall_cons in Hh as [Ha Hh]; apply Forall_cons in Hh as [Hb Hh];
    apply Forall_cons in Hh as [Hc _]; repeat constructor; done.
Qed.

(** C5 as stated fails twice.  The strings "10" and "9" both parse as
    numeric and 10 is the larger number, yet the comparator puts "10" first,
    as text.  And on a column that mixes numbers and strings the comparator
    is no order: it puts 2 before 10, 10 before "1x" and "1x" before 2. *)
Lemma sort_comparator_counterexample :
  (parsesAsNumeric (VStr (js "10")) = Some (ofZ 10)
   /\ parsesAsNumeric (VStr (js "9")) = Some (ofZ 9)
   /\ numCompare (ofZ 10) (ofZ 9) = Gt
   /\ Num.sign (compareValues (H := inertHost) asc (VStr (js "10")) (VStr (js "9"))) = Lt)
  /\ (Num.sign (compareValues (H := inertHost) asc (VNum (ofZ 2)) (VNum (ofZ 10))) = Lt
      /\ Num.sign (compareValues (H := inertHost) asc (VNum (ofZ 10)) (VStr (js "1x"))) = Lt
      /\ Num.sign (compareValues (H := inertHost) asc (VStr (js "1x")) (VNum (ofZ 2))) = Lt).
Proof. repeat split; reflexivity. Qed.

(** ** Formula engine: the aggregates *)

Lemma add_zero_r (a : number) : Num.add a (ofZ 0) = a.
Proof.
  change (ofZ 0) with (Fin 0%Qc).
  destruct a; try reflexivity. cbn [Num.add]. f_equal. ring.
Qed.

Lemma add_zero_l (a : number) : Num.add (ofZ 0) a = a.
Proof.
  change (ofZ 0) with (Fin 0%Qc).
  destruct a; try reflexivity. cbn [Num.add]. f_equal. ring.
Qed.

Lemma numbersOf_app (xs ys : list jsval) :
  numbersOf (xs ++ ys) = numbersOf xs ++ numbersOf ys.
Proof. apply omap_app. Qed.

(** Where adding 0 changes nothing, adding [0] for each value that is not a
    number is adding the numbers. *)
Lemma fold_add_numbers `{Platform} (values : list jsval) (a : number) :
  (forall b, numberAdd b (ofZ 0) = b) ->
  fold_left (fun acc val => numberAdd acc (match val with VNum n => n | _ => ofZ 0 end))
    values a
  = fold_left numberAdd (numbersOf values) a.
Proof.
  intros Hzero. revert a. induction values as [|v values IH]; intros a; [done|].
  cbn [fold_left]. rewrite IH.
  destruct v; cbn; now rewrite ?Hzero.
Qed.

(** The loop of [SUM] adds the totals of the arguments, one after the
    other. *)
Lemma evalSUM_totals `{Platform} (args : list (list jsval)) :
  (forall b, numberAdd b (ofZ 0) = b) ->
  evalSUM args = totalOfTotals (map numbersOf args).
Proof.
  intros Hzero. unfold evalSUM, totalOfTotals.
  assert (Hfold : forall a,
    fold_left (fun sum values =>
      numberAdd sum
        (fold_left (fun acc val =>
           numberAdd acc (match val with VNum n => n | _ => ofZ 0 end)) values (ofZ 0)))
      args a
    = fold_left numberAdd (map total (map numbersOf args)) a); [|apply Hfold].
  induction args as [|values args IH]; intros a; [done|].
  cbn [fold_left map]. rewrite IH. do 2 f_equal. now apply fold_add_numbers.
Qed.

Lemma evalCOUNT_length (args : list (list jsval)) :
  evalCOUNT args = ofZ (Z.of_nat (length (numbersOf (concat args)))).
Proof.
  unfold evalCOUNT. f_equal.
  replace (Z.of_nat (length (numbersOf (concat args))))
    with (0 + Z.of_nat (length (numbersOf (concat args)))) by lia.
  generalize 0. induction args as [|values args IH]; intros a; cbn [fold_left concat].
  - cbn. lia.
  - rewrite IH, numbersOf_app, length_app. lia.
Qed.

(** The loop of [AVERAGE] adds the totals of the arguments and counts
    their numbers. *)
Lemma evalAVERAGE_totals `{Platform} (args : list (list jsval)) :
  evalAVERAGE args
  = match numbersOf (concat args) with
    | [] => ofZ 0
    | ns => numberDivide (totalOfTotals (map numbersOf args)) (ofZ (Z.of_nat (length ns)))
    end.
Proof.
  unfold evalAVERAGE, totalOfTotals.
  assert (Hfold : forall a k,
    fold_left (fun '(sum, count) values =>
                 (numberAdd sum (fold_left numberAdd (numbersOf values) (ofZ 0)),
                  count + Z.of_nat (length (numbersOf values)))) args (a, k)
    = (fold_left numberAdd (map total (map numbersOf args)) a,
       k + Z.of_nat (length (numbersOf (concat args))))).
  { induction args as [|values args IH]; intros a k; cbn [fold_left concat map].
    - cbn. f_equal. lia.
    - rewrite IH, numbersOf_app, length_app. f_equal. lia. }
  rewrite Hfold.
  destruct (numbersOf (concat args)) as [|n ns]; [done|].
  cbn [length]. destruct (Z.ltb_spec 0 (0 + Z.of_nat (S (length ns)))); [|lia].
  do 2 f_equal.
Qed.

Lemma max_NegInfinity (n : number) : Num.max NegInfinity n = n.
Proof. now destruct n. Qed.

Lemma min_PosInfinity (n : number) : Num.min PosInfinity n = n.
Proof. now destruct n. Qed.

(** Folding the arguments one after the other, skipping those without a
    number, is folding all the numbers. *)
Lemma fold_pick_args (pick : number -> number -> number) (args : list (list jsval))
    (a : number) :
  fold_left (fun acc values =>
               match numbersOf values with
               | [] => acc
               | _ :: _ => fold_left pick (numbersOf values) acc
               end) args a
  = fold_left pick (numbersOf (concat args)) a.
Proof.
  revert a. induction args as [|values args IH]; intros a; [done|].
  cbn [fold_left concat]. rewrite IH, numbersOf_app, fold_left_app.
  now destruct (numbersOf values).
Qed.

Lemma evalMAX_extremum (args : list (list jsval)) :
  evalMAX args
  = match extremum Num.max (numbersOf (concat args)) with
    | None => ofZ 0
    | Some m => if decide (m = NegInfinity) then ofZ 0 else m
    end.
Proof.
  unfold evalMAX. rewrite (fold_pick_args Num.max).
  destruct (numbersOf (concat args)) as [|n ns]; [done|].
  cbn [fold_left extremum]. now rewrite max_NegInfinity.
Qed.

Lemma evalMIN_extremum (args : list (list jsval)) :
  evalMIN args
  = match extremum Num.min (numbersOf (concat args)) with
    | None => ofZ 0
    | Some m => if decide (m = PosInfinity) then ofZ 0 else m
    end.
Proof.
  unfold evalMIN. rewrite (fold_pick_args Num.min).
  destruct (numbersOf (concat args)) as [|n ns]; [done|].
  cbn [fold_left extremum]. now rewrite min_PosInfinity.
Qed.

Lemma startsWith_app (p s : jsstring) :
  startsWith p s = true -> exists rest, s = p ++ rest.
Proof.
  revert s. induction p as [|a p IH]; intros s; [now exists s|].
  destruct s as [|b s]; [done|]. cbn.
  intros [Hab [rest ->]%IH]%andb_prop. exists rest.
  f_equal. symmetry. now apply Z.eqb_eq.
Qed.

Section AggregateFacts.
Context `{Platform}.
Variable columns : list Column.
Variable grid : list (list CellData).

(** Which branch a formula that starts with the name of an aggregate and an
    opening parenthesis takes. *)
Lemma evaluateFormula_aggregate (formula : jsstring) :
  let upperFormula := trim (toUpperCase formula) in
  (startsWith (js "SUM(") upperFormula = true ->
     evaluateFormula columns grid formula
     = ret (VNum (evalSUM (aggregateArgs columns grid 4 upperFormula))))
  /\ (startsWith (js "AVERAGE(") upperFormula = true ->
        evaluateFormula columns grid formula
        = ret (VNum (evalAVERAGE (aggregateArgs columns grid 8 upperFormula))))
  /\ (startsWith (js "COUNT(") upperFormula = true ->
        evaluateFormula columns grid formula
        = ret (VNum (evalCOUNT (aggregateArgs columns grid 6 upperFormula))))
  /\ (startsWith (js "MAX(") upperFormula = true ->
        evaluateFormula columns grid formula
        = ret (VNum (evalMAX (aggregateArgs columns grid 4 upperFormula))))
  /\ (startsWith (js "MIN(") upperFormula = true ->
        evaluateFormula columns grid formula
        = ret (VNum (evalMIN (aggregateArgs columns grid 4 upperFormula)))).
Proof.
  intros upperFormula. unfold evaluateFormula. fold upperFormula.
  repeat split; intros Hstart; destruct (startsWith_app _ _ Hstart) as [rest Hrest];
    rewrite Hrest; reflexivity.
Qed.

(** C8, amended.  [SUM] returns the totals of its arguments added one after
    the other, the total of an argument being its numbers added from the
    left, starting from 0 (for a host on which adding 0 changes nothing, so
    that the 0 the loop adds for a value that is not a number does not
    count); [AVERAGE] returns that sum divided by the count of the numbers,
    and 0 when there is none; [COUNT] returns the count of the numbers;
    [MAX] and [MIN] return 0 when there is no number, and else the greatest
    number if that is not -Infinity, the least if that is not +Infinity.
    Nothing is handed to [eval]. *)
Theorem aggregates_reduce_expanded_values (formula : jsstring) :
  let upperFormula := trim (toUpperCase formula) in
  let perArgument prefix :=
    map numbersOf (aggregateArgs columns grid prefix upperFormula) in
  let numbers prefix := numbersOf (expandedValues columns grid prefix upperFormula) in
  (startsWith (js "SUM(") upperFormula = true ->
     (forall a, numberAdd a (ofZ 0) = a) ->
     evaluateFormula columns grid formula = ret (VNum (totalOfTotals (perArgument 4))))
  /\ (startsWith (js "AVERAGE(") upperFormula = true ->
        evaluateFormula columns grid formula
        = ret (VNum (match numbers 8 with
                     | [] => ofZ 0
                     | ns => numberDivide (totalOfTotals (perArgument 8))
                               (ofZ (Z.of_nat (length ns)))
                     end)))
  /\ (startsWith (js "COUNT(") upperFormula = true ->
        evaluateFormula columns grid formula
        = ret (VNum (ofZ (Z.of_nat (length (numbers 6))))))
  /\ (startsWith (js "MAX(") upperFormula = true ->
        (numbers 4 = [] -> evaluateFormula columns grid formula = ret (VNum (ofZ 0)))
        /\ (forall m, extremum Num.max (numbers 4) = Some m -> m <> NegInfinity ->
              evaluateFormula columns grid formula = ret (VNum m)))
  /\ (startsWith (js "MIN(") upperFormula = true ->
        (numbers 4 = [] -> evaluateFormula columns grid formula = ret (VNum (ofZ 0)))
        /\ (forall m, extremum Num.min (numbers 4) = Some m -> m <> PosInfinity ->
              evaluateFormula columns grid formula = ret (VNum m))).
Proof.
  intros upperFormula perArgument numbers.
  destruct (evaluateFormula_aggregate formula) as (HSUM & HAVG & HCOUNT & HMAX & HMIN).
  fold upperFormula in HSUM, HAVG, HCOUNT, HMAX, HMIN.
  subst perArgument numbers. unfold expandedValues. repeat apply conj; intros Hstart.
  - intros Hzero. now rewrite HSUM, evalSUM_totals.
  - now rewrite HAVG, evalAVERAGE_totals.
  - now rewrite HCOUNT, evalCOUNT_length.
  - rewrite HMAX, evalMAX_extremum by done. split.
    + now intros ->.
    + intros m -> Hm. now rewrite decide_False.
  - rewrite HMIN, evalMIN_extremum by done. split.
    + now intros ->.
    + intros m -> Hm. now rewrite decide_False.
Qed.

End AggregateFacts.

(** The formulas of the spec's example, on the mounted sheet (B2:B4 holds
    20, 10 and 30), in mixed case and with blanks. *)
Example aggregates_on_sheet :
  result (evaluateFormula (H := inertHost) sheetColumns (liveGrid sheetMounted)
            (js "SUM(B2:B4)")) = VNum (ofZ 60)
  /\ result (evaluateFormula (H := inertHost) sheetColumns (liveGrid sheetMounted)
               (js " max( b2:b4 , A2 ) ")) = VNum (ofZ 30)
  /\ result (evaluateFormula (H := inertHost) sheetColumns (liveGrid sheetMounted)
               (js "MIN(B4:B2)")) = VNum (ofZ 10)
  /\ result (evaluateFormula (H := inertHost) sheetColumns (liveGrid sheetMounted)
               (js "COUNT(A1:B4)")) = VNum (ofZ 3)
  /\ result (evaluateFormula (H := inertHost) sheetColumns (liveGrid sheetMounted)
               (js "MAX(A2:A4)")) = VNum (ofZ 0)
  /\ result (evaluateFormula (H := inertHost) sheetColumns (liveGrid sheetMounted)
               (js "MIN(A1:)")) = VNum (ofZ 0).
Proof. repeat split; reflexivity. Qed.

Example average_on_sheet :
  exists q : Qc,
    result (evaluateFormula (H := inertHost) sheetColumns (liveGrid sheetMounted)
              (js "AVERAGE(B2:B4)")) = VNum (Fin q)
    /\ q = Q2Qc (20 # 1).
Proof. eexists. split; [reflexivity|]. apply Qc_is_canon. reflexivity. Qed.

(** On the mounted sheet, with two arguments each: the sum and the average
    of 20 and 10 in the first argument and 30 in the second, and the
    greatest of them. *)
Lemma aggregates_reduce_expanded_values_witness :
  evaluateFormula (H := inertHost) sheetColumns (liveGrid sheetMounted)
    (js "sum(b2:b3, b4)")
  = ret (VNum (totalOfTotals (H := inertHost) [[ofZ 20; ofZ 10]; [ofZ 30]]))
  /\ evaluateFormula (H := inertHost) sheetColumns (liveGrid sheetMounted)
       (js "average(b2:b3, b4)")
     = ret (VNum (Num.div (totalOfTotals (H := inertHost) [[ofZ 20; ofZ 10]; [ofZ 30]])
                    (ofZ 3)))
  /\ evaluateFormula (H := inertHost) sheetColumns (liveGrid sheetMounted)
       (js "max(b2:b3, b4)")
     = ret (VNum (ofZ 30)).
Proof.
  pose proof (aggregates_reduce_expanded_values (H := inertHost) sheetColumns
                (liveGrid sheetMounted) (js "sum(b2:b3, b4)")) as (HSUM & _).
  pose proof (aggregates_reduce_expanded_values (H := inertHost) sheetColumns
                (liveGrid sheetMounted) (js "average(b2:b3, b4)")) as (_ & HAVG & _).
  pose proof (aggregates_reduce_expanded_values (H := inertHost) sheetColumns
                (liveGrid sheetMounted) (js "max(b2:b3, b4)")) as (_ & _ & _ & HMAX & _).
  split; [|split].
  - exact (HSUM eq_refl add_zero_r).
  - exact (HAVG eq_refl).
  - exact (proj2 (HMAX eq_refl) (ofZ 30) eq_refl ltac:(discriminate)).
Defined.

(** C8 as stated fails where a cell holds an infinity, which is what the
    formulas [=1/0] and [=-1/0] leave in it: the maximum of a range that
    contains [Infinity] is returned as [Infinity] (and the minimum of one
    that contains [-Infinity] as [-Infinity]), and the maximum of the single
    numeric value [-Infinity] is returned as 0. *)
Lemma aggregates_counterexample :
  result (evaluateFormula (H := inertHost) sheetColumns infiniteSheet (js "MAX(B2:B3)"))
  = VNum PosInfinity
  /\ result (evaluateFormula (H := inertHost) sheetColumns infiniteSheet (js "MIN(B2:B3)"))
     = VNum NegInfinity
  /\ numbersOf (expandedValues sheetColumns infiniteSheet 4 (js "MAX(B3)"))
     = [NegInfinity]
  /\ result (evaluateFormula (H := inertHost) sheetColumns infiniteSheet (js "MAX(B3)"))
     = VNum (ofZ 0).
Proof. repeat split; reflexivity. Qed.

(** ** Formula engine: what reaches [eval] *)

Lemma testArithmeticFormula_outside (s : jsstring) :
  Exists (fun c => isFormulaChar c = false) s -> testArithmeticFormula s = false.
Proof.
  intros Hex. unfold testArithmeticFormula. destruct s as [|c s]; [done|].
  apply not_true_is_false. intros Hall. rewrite forallb_forall in Hall.
  apply Exists_exists in Hex as (x & Hx & Hout).
  rewrite Hall in Hout; [done|]. now apply list_elem_of_In.
Qed.

Lemma takeWhile_app_stop {A} (p : A -> bool) (l : list A) (x : A) (rest : list A) :
  p x = false -> (length (takeWhile p (l ++ x :: rest)) <= length l)%nat.
Proof.
  intros Hx. induction l as [|y l IH]; cbn.
  - now rewrite Hx.
  - destruct (p y); cbn; lia.
Qed.

Lemma takeWhile_all {A} (p : A -> bool) (l : list A) (x : A) (rest : list A) :
  forallb p l = true -> p x = false ->
  takeWhile p (l ++ x :: rest) = l /\ dropWhile p (l ++ x :: rest) = x :: rest.
Proof.
  intros Hl Hx. induction l as [|y l IH]; cbn in *.
  - now rewrite Hx.
  - apply andb_prop in Hl as [-> Hl]. destruct (IH Hl) as [-> ->]. done.
Qed.

(** A reference that begins in front of a letter which is followed by
    neither a letter nor a digit ends in front of that letter. *)
Lemma refAtStart_before (pre post m : jsstring) (c : Z) :
  isUpper c = true ->
  match post with [] => True | d :: _ => isUpper d = false /\ isDigit d = false end ->
  refAtStart (pre ++ c :: post) = Some m -> (length m <= length pre)%nat.
Proof.
  intros Hc Hpost. unfold refAtStart.
  assert (isDigit c = false) as Hcd by (unfold isUpper, isDigit in *; lia).
  destruct (forallb isUpper pre) eqn:Hpre.
  - (* the letters reach [c], and no digit follows *)
    assert (takeWhile isUpper (pre ++ c :: post) = pre ++ [c]
            /\ dropWhile isUpper (pre ++ c :: post) = post) as [-> ->].
    { destruct post as [|d post].
      - replace (pre ++ [c]) with ((pre ++ [c]) ++ []) at 1 3 by apply app_nil_r.
        clear Hpost. induction pre as [|y pre IH]; cbn in *; [now rewrite Hc|].
        apply andb_prop in Hpre as [-> Hpre]. rewrite !app_nil_r in *.
        destruct (IH Hpre) as [-> ->]. done.
      - destruct Hpost as [Hd _].
        replace (pre ++ c :: d :: post) with ((pre ++ [c]) ++ d :: post)
          by now rewrite <- app_assoc.
        apply takeWhile_all; [|done]. rewrite forallb_app, Hpre. cbn. now rewrite Hc. }
    destruct post as [|d post]; [now destruct (pre ++ [c])|].
    destruct Hpost as [_ Hd]. cbn. rewrite Hd. now destruct (pre ++ [c]).
  - (* the letters stop in front of [c], and so do the digits *)
    assert (exists p1 x p2, pre = p1 ++ x :: p2 /\ forallb isUpper p1 = true
                            /\ isUpper x = false) as (p1 & x & p2 & -> & Hp1 & Hx).
    { clear -Hpre. induction pre as [|y pre IH]; [done|]. cbn in Hpre.
      destruct (isUpper y) eqn:Hy.
      - destruct (IH Hpre) as (p1 & x & p2 & -> & Hp1 & Hx).
        exists (y :: p1), x, p2. cbn. now rewrite Hy.
      - now exists [], y, pre. }
    rewrite <- app_assoc. cbn [app].
    destruct (takeWhile_all isUpper p1 x (p2 ++ c :: post) Hp1 Hx) as [-> ->].
    pose proof (takeWhile_app_stop isDigit (x :: p2) c post Hcd) as Hlen.
    cbn [app] in Hlen.
    destruct p1 as [|l1 p1]; [done|]. revert Hlen.
    destruct (takeWhile isDigit (x :: p2 ++ c :: post)) as [|d1 ds]; [done|].
    intros Hlen [= <-]. cbn [length app] in *. rewrite !length_app. cbn [length]. lia.
Qed.

(** Such a letter is still there after the references are replaced. *)
Lemma replaceRefs_keeps_letter (f : jsstring -> jsstring) (pre post : jsstring) (c : Z)
    (skip : nat) :
  isUpper c = true ->
  match post with [] => True | d :: _ => isUpper d = false /\ isDigit d = false end ->
  (skip <= length pre)%nat ->
  c ∈ replaceRefs_from skip f (pre ++ c :: post).
Proof.
  intros Hc Hpost. revert skip. induction pre as [|a pre IH]; intros skip Hskip.
  - destruct skip; [|cbn in Hskip; lia]. cbn [app replaceRefs_from].
    destruct (refAtStart (c :: post)) as [m|] eqn:Hm.
    + pose proof (refAtStart_before [] post m c Hc Hpost Hm) as Hle.
      destruct m as [|x m]; [|cbn in Hle; lia].
      unfold refAtStart in Hm.
      destruct (takeWhile isUpper (c :: post)); [done|].
      now destruct (takeWhile isDigit _).
    + apply list_elem_of_here.
  - cbn [app replaceRefs_from]. destruct skip as [|k].
    + destruct (refAtStart (a :: pre ++ c :: post)) as [m|] eqn:Hm.
      * apply elem_of_app. right. apply IH.
        apply (refAtStart_before (a :: pre) post m c Hc Hpost) in Hm. cbn in Hm. lia.
      * apply list_elem_of_further, IH. lia.
    + apply IH. cbn in Hskip. lia.
Qed.

Lemma testExpression_outside (s : jsstring) :
  Exists (fun c => isExpressionChar c = false) s -> testExpression s = false.
Proof.
  intros Hex. unfold testExpression. destruct s as [|c s]; [done|].
  apply not_true_is_false. intros Hall. rewrite forallb_forall in Hall.
  apply Exists_exists in Hex as (x & Hx & Hout).
  rewrite Hall in Hout; [done|]. now apply list_elem_of_In.
Qed.

(** A text with such a letter is not a single cell reference. *)
Lemma matchCellRef_word (pre post : jsstring) (c : Z) :
  isUpper c = true ->
  match post with [] => True | d :: _ => isUpper d = false /\ isDigit d = false end ->
  matchCellRef (pre ++ c :: post) = None.
Proof.
  intros Hc Hpost. unfold matchCellRef.
  assert (isDigit c = false) as Hcd by (unfold isUpper, isDigit in *; lia).
  destruct (takeWhile isUpper (pre ++ c :: post)) as [|l ls] eqn:Hletters; [done|].
  destruct (dropWhile isUpper (pre ++ c :: post)) as [|d ds] eqn:Hdigits; [done|].
  destruct (forallb isDigit (d :: ds)) eqn:Hall; [|done]. exfalso.
  rewrite forallb_forall in Hall.
  destruct (forallb isUpper pre) eqn:Hpre.
  - destruct post as [|d' post].
    + assert (dropWhile isUpper (pre ++ [c]) = []) as Hnone; [|congruence].
      clear -Hpre Hc. induction pre as [|y pre IH]; cbn in *; [now rewrite Hc|].
      apply andb_prop in Hpre as [-> Hpre]. now apply IH.
    + destruct Hpost as [Hu Hd].
      replace (pre ++ c :: d' :: post) with ((pre ++ [c]) ++ d' :: post) in Hdigits
        by now rewrite <- app_assoc.
      destruct (takeWhile_all isUpper (pre ++ [c]) d' post) as [_ Hdrop]; [|done|].
      { rewrite forallb_app, Hpre. cbn. now rewrite Hc. }
      rewrite Hdrop in Hdigits. injection Hdigits as <- <-.
      rewrite Hall in Hd; [done|]. now left.
  - assert (In c (d :: ds)) as Hin; [|apply Hall in Hin; congruence].
    rewrite <- Hdigits. clear -Hpre. induction pre as [|y pre IH]; [done|].
    cbn in *. destruct (isUpper y); [now apply IH|].
    right. apply in_or_app. right. now left.
Qed.

Section SafetyFacts.
Context `{Platform}.
Variable columns : list Column.
Variable grid : list (list CellData).

(** C1.  Whatever the formula: a string is handed to [eval] only if it
    passed [/^[0-9+\-*/.() ]+$/], and where [eval] throws the result is the
    error marker, so the function returns in every case.  A payload that
    (trimmed and upper-cased) does not start with an aggregate name and its
    parenthesis evaluates to ["#ERROR!"] without anything being handed to
    [eval] in two cases: it contains a character outside
    [[A-Z0-9+\-*/.\s]] and is not a single cell reference; or it contains a
    letter that is followed by neither a letter nor a digit, that is a word
    which is not the column of a cell reference, such as the name of a
    global function. *)
Theorem formula_injection_safe (formula : jsstring) :
  let upperFormula := trim (toUpperCase formula) in
  Forall (fun e => testExpression e = true)
    (evalCalls (evaluateFormula columns grid formula))
  /\ (forall e, e ∈ evalCalls (evaluateFormula columns grid formula) ->
        eval e = None -> result (evaluateFormula columns grid formula) = ERROR)
  /\ (Exists (fun c => isFormulaChar c = false) upperFormula ->
      startsWith (js "SUM(") upperFormula = false ->
      startsWith (js "AVERAGE(") upperFormula = false ->
      startsWith (js "COUNT(") upperFormula = false ->
      startsWith (js "MAX(") upperFormula = false ->
      startsWith (js "MIN(") upperFormula = false ->
      matchCellRef upperFormula = None ->
      evaluateFormula columns grid formula = ret ERROR)
  /\ (forall pre c post,
        upperFormula = pre ++ c :: post ->
        isUpper c = true ->
        match post with
        | [] => True
        | d :: _ => isUpper d = false /\ isDigit d = false
        end ->
        startsWith (js "SUM(") upperFormula = false ->
        startsWith (js "AVERAGE(") upperFormula = false ->
        startsWith (js "COUNT(") upperFormula = false ->
        startsWith (js "MAX(") upperFormula = false ->
        startsWith (js "MIN(") upperFormula = false ->
        evaluateFormula columns grid formula = ret ERROR).
Proof.
  intros upperFormula. unfold evaluateFormula. fold upperFormula.
  split; [|split; [|split]].
  - destruct (_ && _).
    + destruct (testExpression _) eqn:Hok; cbn; [|constructor].
      repeat constructor. exact Hok.
    + repeat (destruct (startsWith _ _); [constructor|]).
      destruct (bool_decide _); constructor.
  - intros e. destruct (_ && _).
    + destruct (testExpression _) eqn:Hok; cbn; [|now intros ?%elem_of_nil].
      intros ->%list_elem_of_singleton ->. reflexivity.
    + repeat (destruct (startsWith _ _); [now intros ?%elem_of_nil|]).
      destruct (bool_decide _); now intros ?%elem_of_nil.
  - intros Hout -> -> -> -> -> Href.
    rewrite (testArithmeticFormula_outside _ Hout), andb_false_r.
    rewrite Href. reflexivity.
  - intros pre c post Hword Hc Hpost -> -> -> -> ->.
    destruct (_ && _).
    + rewrite testExpression_outside; [reflexivity|].
      apply Exists_exists. exists c. split.
      * rewrite Hword.
        apply (replaceRefs_keeps_letter _ pre post c 0 Hc Hpost). lia.
      * unfold isUpper, isExpressionChar, isDigit in *. lia.
    + rewrite Hword, (matchCellRef_word pre post c Hc Hpost). reflexivity.
Qed.

End SafetyFacts.

(** A host whose [eval] would return a value for any string: a call of a
    global function, and the name of one. *)
Lemma formula_injection_safe_witness :
  evaluateFormula (H := asciiHost (fun _ => Some (VStr (js "executed"))))
    sheetColumns (liveGrid sheetMounted) (js "alert(document.cookie)")
  = ret ERROR
  /\ evaluateFormula (H := asciiHost (fun _ => Some (VStr (js "executed"))))
       sheetColumns (liveGrid sheetMounted) (js "window.alert")
     = ret ERROR.
Proof.
  split.
  - apply (formula_injection_safe (H := asciiHost (fun _ => Some (VStr (js "executed"))))
             sheetColumns (liveGrid sheetMounted) (js "alert(document.cookie)")).
    + apply Exists_exists. exists 40. split; [|reflexivity].
      apply list_elem_of_In. vm_compute. set_solver.
    + reflexivity.
    + reflexivity.
    + reflexivity.
    + reflexivity.
    + reflexivity.
    + reflexivity.
  - apply (proj2 (proj2 (proj2
             (formula_injection_safe (H := asciiHost (fun _ => Some (VStr (js "executed"))))
                sheetColumns (liveGrid sheetMounted) (js "window.alert"))))
             (js "WINDOW.ALER") 84 []); reflexivity.
Defined.

(** What the arithmetic branch does on the same host: references are
    replaced by the numbers they hold and by 0 otherwise, and only a string
    of digits, operators, parentheses and blanks is evaluated. *)
Example arithmetic_branch :
  evaluateFormula (H := asciiHost (fun _ => Some (VNum (ofZ 30))))
    sheetColumns (liveGrid sheetMounted) (js "b2 + B3*2 - a2")
  = mkRun (VNum (ofZ 30)) [js "20 + 10*2 - 0"]
  /\ evaluateFormula (H := asciiHost (fun _ => Some (VStr (js "executed"))))
       sheetColumns (liveGrid sheetMounted) (js "window.alert")
     = ret ERROR
  /\ evaluateFormula (H := inertHost) sheetColumns (liveGrid sheetMounted) (js "1+")
     = mkRun ERROR [js "1+"].
Proof. repeat split; reflexivity. Qed.

(** ** History: when undo and redo do restore the grid *)

Lemma cellsOf_alloc (σ : Store) (rows : list (list CellData)) :
  cellsOf (allocRows σ rows).1 (allocRows σ rows).2 = rows.
Proof.
  unfold cellsOf, allocRows. cbn. apply list_eq. intros i.
  rewrite list_lookup_fmap. destruct (rows !! i) as [cells|] eqn:Hi.
  - rewrite (proj2 (lookup_seq _ _ _ _)) by
      (split; [reflexivity | now apply lookup_lt_Some in Hi]).
    cbn. unfold rowAt. now rewrite lookup_app_r, Nat.add_comm, Nat.add_sub, Hi by lia.
  - rewrite lookup_ge_None_2; [done|]. rewrite length_seq. now apply lookup_ge_None.
Qed.

Lemma jsonValue_idemp (v : jsval) : jsonValue (jsonValue v) = jsonValue v.
Proof. now destruct v as [[]| |]. Qed.

Lemma jsonGrid_idemp (g : list (list CellData)) : jsonGrid (jsonGrid g) = jsonGrid g.
Proof.
  unfold jsonGrid. rewrite map_map. apply map_ext. intros cells.
  rewrite map_map. apply map_ext. intros cell. unfold jsonCell. cbn.
  now rewrite jsonValue_idemp.
Qed.

(** A grid whose numbers are all finite is its own JSON copy. *)
Lemma jsonGrid_finite (g : list (list CellData)) :
  Forall (Forall (fun cell => forall n, value cell = VNum n -> exists q, n = Fin q)) g ->
  jsonGrid g = g.
Proof.
  intros Hfin. unfold jsonGrid. rewrite <- (map_id g) at 2. apply map_ext_Forall.
  eapply Forall_impl; [exact Hfin|]. cbn. intros cells Hcells.
  rewrite <- (map_id cells) at 2. apply map_ext_Forall.
  eapply Forall_impl; [exact Hcells|]. cbn. intros [v f fm] Hv. unfold jsonCell. cbn in *.
  f_equal. destruct v as [n| |]; try done. destruct (Hv n eq_refl) as [q ->]. done.
Qed.

Lemma restore_grid (columns : list Column) (target : Z) (snapshot : HistoryState)
    (c : GridState) (σ : Store) :
  liveGrid (next (restore columns target snapshot c σ),
            store (restore columns target snapshot c σ))
  = jsonGrid (hist_gridData snapshot).
Proof. unfold liveGrid, restore. cbn. apply cellsOf_alloc. Qed.

Lemma restore_cursor (columns : list Column) (target : Z) (snapshot : HistoryState)
    (c : GridState) (σ : Store) :
  historyIndex (next (restore columns target snapshot c σ)) = target
  /\ history (next (restore columns target snapshot c σ)) = history c.
Proof. split; reflexivity. Qed.

(** Where the snapshot under the cursor is the copy of the grid on screen, as
    it is after a mutation written through the rows, undo followed by redo
    shows that copy again. *)
Lemma undo_redo_restores (columns : list Column) (c : GridState) (σ : Store)
    (previous current : HistoryState) :
  0 < historyIndex c ->
  at_ (history c) (historyIndex c - 1) = Some previous ->
  at_ (history c) (historyIndex c) = Some current ->
  hist_gridData current = jsonGrid (liveGrid (c, σ)) ->
  liveGrid (next (redo columns (next (undo columns c σ)) (store (undo columns c σ))),
            store (redo columns (next (undo columns c σ)) (store (undo columns c σ))))
  = jsonGrid (liveGrid (c, σ)).
Proof.
  intros Hpos Hprev Hcur Hcopy. unfold undo.
  destruct (Z.ltb_spec 0 (historyIndex c)); [|lia]. rewrite Hprev.
  unfold redo.
  destruct (restore_cursor columns (historyIndex c - 1) previous c σ) as [-> ->].
  assert (historyIndex c < Z.of_nat (length (history c))) as Hlt.
  { apply at_Some in Hcur as [_ Hcur]. apply lookup_lt_Some in Hcur. lia. }
  destruct (Z.ltb_spec (historyIndex c - 1) (Z.of_nat (length (history c)) - 1)); [|lia].
  replace (historyIndex c - 1 + 1) with (historyIndex c) by lia. rewrite Hcur.
  rewrite restore_grid, Hcopy. apply jsonGrid_idemp.
Qed.

(** ** The general lemmas at work on the small sheet *)

Lemma parseCellRef_getCellReference_witness :
  getCellReference (-1) 25 = js "Z1"
  /\ parseCellRef (getCellReference (-1) 25) = Some {| row := -1; col := 25 |}.
Proof.
  split; [reflexivity|]. apply (parseCellRef_getCellReference (-1) 25); lia.
Defined.

Lemma handleSort_snapshot_witness :
  newestSnapshot
    (next (handleSort (H := inertHost) sheetColumns 1 sheetMounted.1 sheetMounted.2))
  = Some (jsonGrid (liveGrid (sheetMounted.1, sheetMounted.2))).
Proof.
  apply (handleSort_snapshot (H := inertHost) sheetColumns 1 sheetMounted.1 sheetMounted.2).
  reflexivity.
Defined.

Lemma formatCell_snapshot_witness :
  newestSnapshot (next (formatCell sheetColumns 0 0 boldPatch sheetMounted.1 sheetMounted.2))
  = Some (jsonGrid
            (liveGrid
               (next (formatCell sheetColumns 0 0 boldPatch sheetMounted.1 sheetMounted.2),
                store (formatCell sheetColumns 0 0 boldPatch sheetMounted.1
                         sheetMounted.2)))).
Proof.
  apply (formatCell_snapshot sheetColumns 0 0 boldPatch sheetMounted.1 sheetMounted.2).
  reflexivity.
Defined.

Lemma clearCell_snapshot_witness :
  newestSnapshot (next (clearCell sheetColumns 2 1 sheetMounted.1 sheetMounted.2))
  = Some (jsonGrid
            (liveGrid (next (clearCell sheetColumns 2 1 sheetMounted.1 sheetMounted.2),
                       store (clearCell sheetColumns 2 1 sheetMounted.1 sheetMounted.2)))).
Proof.
  apply (clearCell_snapshot sheetColumns 2 1 sheetMounted.1 sheetMounted.2).
  reflexivity.
Defined.

Example sheetFormatted_grid :
  liveGrid sheetFormatted
  = [ [ {| value := VStr (js "B"); format := Some boldPatch; formula := None |};
        amountCell 20 ];
      [sheetCell "A"; amountCell 10]; [sheetCell "C"; amountCell 30] ]
  /\ historyIndex sheetFormatted.1 = 1
  /\ liveGrid (run (H := inertHost) sheetColumns [UndoKey] sheetFormatted)
     = liveGrid sheetMounted.
Proof. repeat split; reflexivity. Qed.

Lemma undo_redo_restores_witness :
  liveGrid (run (H := inertHost) sheetColumns [UndoKey; RedoKey] sheetFormatted)
  = jsonGrid (liveGrid sheetFormatted).
Proof.
  apply (undo_redo_restores sheetColumns sheetFormatted.1 sheetFormatted.2
           {| hist_gridData := liveGrid sheetMounted; hist_columns := sheetColumns |}
           {| hist_gridData := liveGrid sheetFormatted; hist_columns := sheetColumns |});
    reflexivity.
Defined.

(** The sort keeps rows with equal keys in their order. *)
Example sort_is_stable :
  sortWith (fun a b => compareValues (H := inertHost) asc a.1 b.1)
    [ (VNum (ofZ 2), 1); (VNum (ofZ 1), 2); (VNum (ofZ 2), 3); (VNum (ofZ 1), 4) ]
  = [ (VNum (ofZ 1), 2); (VNum (ofZ 1), 4); (VNum (ofZ 2), 1); (VNum (ofZ 2), 3) ].
Proof. reflexivity. Qed.

(** ** Formula engine: the greatest and the least number *)

Lemma ltb_irrefl (a : number) : Num.ltb a a = false.
Proof.
  destruct a as [x| | |]; try reflexivity. cbn.
  now rewrite (proj1 (Qceq_alt x x) eq_refl).
Qed.

Lemma ltb_Fin (x y : Qc) : Num.ltb (Fin x) (Fin y) = true <-> (x < y)%Qc.
Proof. cbn. rewrite Qclt_alt. now destruct (x ?= y)%Qc. Qed.

Lemma ltb_Fin_false (x y : Qc) : Num.ltb (Fin x) (Fin y) = false <-> (y <= x)%Qc.
Proof.
  rewrite <- not_true_iff_false, ltb_Fin. split.
  - apply Qcnot_lt_le.
  - apply Qcle_not_lt.
Qed.

(** [a < b <= c] gives [a < c]. *)
Lemma ltb_le_trans (a b c : number) :
  c <> NaN -> Num.ltb a b = true -> Num.ltb c b = false -> Num.ltb a c = true.
Proof.
  destruct a as [x| | |], b as [y| | |], c as [z| | |]; intros Hc; try done.
  rewrite !ltb_Fin, ltb_Fin_false. apply Qclt_le_trans.
Qed.

Lemma max_cases (a b : number) :
  a <> NaN -> b <> NaN ->
  (Num.max a b = a \/ Num.max a b = b)
  /\ Num.ltb (Num.max a b) a = false /\ Num.ltb (Num.max a b) b = false.
Proof.
  intros Ha Hb. assert (Num.max a b = if Num.ltb a b then b else a) as ->
    by (now destruct a, b).
  destruct (Num.ltb a b) eqn:Hlt.
  - split; [now right|]. split; [|apply ltb_irrefl].
    destruct a as [x| | |], b as [y| | |]; try done.
    apply ltb_Fin in Hlt. apply ltb_Fin_false. now apply Qclt_le_weak.
  - split; [now left|]. split; [apply ltb_irrefl|exact Hlt].
Qed.

Lemma min_cases (a b : number) :
  a <> NaN -> b <> NaN ->
  (Num.min a b = a \/ Num.min a b = b)
  /\ Num.ltb a (Num.min a b) = false /\ Num.ltb b (Num.min a b) = false.
Proof.
  intros Ha Hb. assert (Num.min a b = if Num.ltb b a then b else a) as ->
    by (now destruct a, b).
  destruct (Num.ltb b a) eqn:Hlt.
  - split; [now right|]. split; [|apply ltb_irrefl].
    destruct a as [x| | |], b as [y| | |]; try done.
    apply ltb_Fin in Hlt. apply ltb_Fin_false. now apply Qclt_le_weak.
  - split; [now left|]. split; [apply ltb_irrefl|exact Hlt].
Qed.

Lemma fold_max_greatest (ns : list number) (a : number) :
  a <> NaN -> Forall (fun n => n <> NaN) ns ->
  fold_left Num.max ns a <> NaN
  /\ fold_left Num.max ns a ∈ a :: ns
  /\ Forall (fun n => Num.ltb (fold_left Num.max ns a) n = false) (a :: ns).
Proof.
  revert a. induction ns as [|x ns IH]; intros a Ha Hns.
  - cbn. split; [done|]. split; [apply list_elem_of_here|].
    repeat constructor. apply ltb_irrefl.
  - apply Forall_cons in Hns as [Hx Hns]. cbn [fold_left].
    destruct (max_cases a x Ha Hx) as (Hor & Hma & Hmx).
    assert (Num.max a x <> NaN) as Hm by (destruct Hor as [-> | ->]; done).
    destruct (IH _ Hm Hns) as (Hnan & Hin & Hall).
    apply Forall_cons in Hall as [Htop Hall].
    set (m := fold_left Num.max ns (Num.max a x)) in *.
    assert (forall y, Num.ltb (Num.max a x) y = false -> Num.ltb m y = false) as Hle.
    { intros y Hy. apply not_true_is_false. intros Hlt.
      pose proof (ltb_le_trans m y (Num.max a x) Hm Hlt Hy) as Hbad. congruence. }
    split; [done|]. split.
    + apply elem_of_cons in Hin as [Hin|Hin].
      * rewrite Hin. destruct Hor as [-> | ->];
          [apply list_elem_of_here | apply list_elem_of_further, list_elem_of_here].
      * now do 2 apply list_elem_of_further.
    + repeat (apply Forall_cons; split); auto.
Qed.

Lemma fold_min_least (ns : list number) (a : number) :
  a <> NaN -> Forall (fun n => n <> NaN) ns ->
  fold_left Num.min ns a <> NaN
  /\ fold_left Num.min ns a ∈ a :: ns
  /\ Forall (fun n => Num.ltb n (fold_left Num.min ns a) = false) (a :: ns).
Proof.
  revert a. induction ns as [|x ns IH]; intros a Ha Hns.
  - cbn. split; [done|]. split; [apply list_elem_of_here|].
    repeat constructor. apply ltb_irrefl.
  - apply Forall_cons in Hns as [Hx Hns]. cbn [fold_left].
    destruct (min_cases a x Ha Hx) as (Hor & Hma & Hmx).
    assert (Num.min a x <> NaN) as Hm by (destruct Hor as [-> | ->]; done).
    destruct (IH _ Hm Hns) as (Hnan & Hin & Hall).
    apply Forall_cons in Hall as [Htop Hall].
    set (m := fold_left Num.min ns (Num.min a x)) in *.
    assert (forall y, y <> NaN -> Num.ltb y (Num.min a x) = false -> Num.ltb y m = false)
      as Hle.
    { intros y Hynan Hy. apply not_true_is_false. intros Hlt.
      pose proof (ltb_le_trans y m (Num.min a x) Hm Hlt Htop) as Hbad. congruence. }
    split; [done|]. split.
    + apply elem_of_cons in Hin as [Hin|Hin].
      * rewrite Hin. destruct Hor as [-> | ->];
          [apply list_elem_of_here | apply list_elem_of_further, list_elem_of_here].
      * now do 2 apply list_elem_of_further.
    + repeat (apply Forall_cons; split); auto.
Qed.

(** What [extremum] returns on numbers without NaN: a member of the list
    that none exceeds (for [Num.max]), that exceeds none (for [Num.min]). *)
Lemma extremum_greatest_least (ns : list number) (m : number) :
  Forall (fun n => n <> NaN) ns ->
  (extremum Num.max ns = Some m ->
     m ∈ ns /\ Forall (fun n => Num.ltb m n = false) ns)
  /\ (extremum Num.min ns = Some m ->
        m ∈ ns /\ Forall (fun n => Num.ltb n m = false) ns).
Proof.
  intros Hns. destruct ns as [|a ns]; [done|].
  apply Forall_cons in Hns as [Ha Hns]. cbn [extremum].
  split; intros [= <-].
  - now destruct (fold_max_greatest ns a Ha Hns) as (_ & ? & ?).
  - now destruct (fold_min_least ns a Ha Hns) as (_ & ? & ?).
Qed.

(** No reference reads as NaN, so the numbers an aggregate ranges over
    contain none. *)
Lemma getCellValue_not_NaN (columns : list Column) (grid : list (list CellData))
    (cellRef : jsstring) :
  getCellValue columns grid cellRef <> VNum NaN.
Proof.
  assert (Hor : forall v d, d <> VNum NaN -> orElse v d <> VNum NaN).
  { intros v d Hd. unfold orElse. destruct (truthy v) eqn:Hv; [|done].
    intros ->. discriminate Hv. }
  unfold getCellValue. destruct (matchCellRef cellRef) as [[letters digits]|]; [|done].
  destruct (parseInt digits =? 1).
  - destruct (at_ columns _); [apply Hor|]; done.
  - destruct (at_ grid _); [|done]. destruct (_ && _); [|done].
    destruct (at_ _ _); [apply Hor|]; done.
Qed.

Lemma expandedValues_not_NaN (columns : list Column) (grid : list (list CellData))
    (prefix : Z) (upperFormula : jsstring) :
  Forall (fun n => n <> NaN)
    (numbersOf (expandedValues columns grid prefix upperFormula)).
Proof.
  apply Forall_forall. intros n Hn. unfold numbersOf in Hn.
  apply list_elem_of_omap in Hn as (v & Hv & Hvn).
  destruct v as [n'| |]; try done. injection Hvn as ->.
  unfold expandedValues, aggregateArgs in Hv.
  apply list_elem_of_In, in_concat in Hv as (values & Hvalues & Hv).
  apply in_map_iff in Hvalues as (arg & <- & _).
  intros ->. revert Hv. unfold getCellsInRange.
  destruct (negb _).
  - intros [Hv|[]]. now apply getCellValue_not_NaN in Hv.
  - destruct (split 58 (trim arg)) as [|startCell [|endCell rest]]; try done.
    destruct endCell; [done|].
    destruct (matchCellRef startCell) as [[? ?]|]; [|done].
    destruct (matchCellRef _) as [[? ?]|]; [|done].
    intros Hv%in_flat_map. destruct Hv as (rowNum & _ & Hv).
    apply in_map_iff in Hv as (colIndex & Hv & _).
    now apply getCellValue_not_NaN in Hv.
Qed.

(** ** Editing a cell *)

(** Leaving the input saves the grid as the last change left it: an edit is
    recorded after it is applied. *)
Lemma handleInputBlur_snapshot (columns : list Column) (c : GridState) (σ : Store) :
  newestSnapshot (next (handleInputBlur columns c σ)) = Some (jsonGrid (liveGrid (c, σ)))
  /\ liveGrid (next (handleInputBlur columns c σ), store (handleInputBlur columns c σ))
     = liveGrid (c, σ).
Proof.
  split; [|reflexivity]. unfold newestSnapshot, handleInputBlur, liveGrid. cbn.
  now rewrite last_snoc.
Qed.

(** The edit of the undo/redo tests: a label is retyped, the input is left,
    the change is undone and redone. *)
Example edit_undo_redo :
  cellAt (liveGrid (run (H := inertHost) sheetColumns
                      [InputChange (js "Changed") 0 0; InputBlur] sheetMounted)) 0 0
  = Some (sheetCell "Changed")
  /\ cellAt (liveGrid (run (H := inertHost) sheetColumns
                         [InputChange (js "Changed") 0 0; InputBlur; UndoKey]
                         sheetMounted)) 0 0
     = Some (sheetCell "B")
  /\ cellAt (liveGrid (run (H := inertHost) sheetColumns
                         [InputChange (js "Changed") 0 0; InputBlur; UndoKey; RedoKey]
                         sheetMounted)) 0 0
     = Some (sheetCell "Changed").
Proof. repeat split; reflexivity. Qed.

(** What typing does in a numeric column and in the label column: a decimal
    is stored as a number, a lone minus sign as NaN, other text is refused
    (a formula included), and a formula typed in the label column is stored
    with its result. *)
Example typing_into_cells :
  (exists q : Qc,
     value <$> cellAt (liveGrid (run (H := inertHost) sheetColumns
                                   [InputChange (js "-12.50") 0 1] sheetMounted)) 0 1
     = Some (VNum (Fin q))
     /\ q = Q2Qc (- 25 # 2))
  /\ value <$> cellAt (liveGrid (run (H := inertHost) sheetColumns
                                   [InputChange (js "-") 0 1] sheetMounted)) 0 1
     = Some (VNum NaN)
  /\ liveGrid (run (H := inertHost) sheetColumns
                 [InputChange (js "=SUM(B2:B4)") 0 1] sheetMounted)
     = liveGrid sheetMounted
  /\ cellAt (liveGrid (run (H := inertHost) sheetColumns
                         [InputChange (js "=SUM(B2:B4)") 0 0] sheetMounted)) 0 0
     = Some {| value := VNum (ofZ 60); format := Some emptyFormat;
               formula := Some (js "=SUM(B2:B4)") |}.
Proof.
  split; [|repeat split; reflexivity].
  eexists. split; [reflexivity|]. apply Qc_is_canon. reflexivity.
Qed.

(* ===================================================================== *)
(** * Properties of the rest of the component                            *)
(* ===================================================================== *)

(** ** The history cursor *)

Lemma cursorValid_saveToHistory (columns : list Column) (c s : GridState) (σ : Store) :
  cursorValid (saveToHistory columns c σ s).
Proof.
  unfold cursorValid, saveToHistory. cbn. rewrite length_app. cbn. lia.
Qed.

Lemma cursorValid_same (c s : GridState) :
  history s = history c -> historyIndex s = historyIndex c ->
  cursorValid c -> cursorValid s.
Proof. unfold cursorValid. now intros -> ->. Qed.

Lemma cursorValid_step `{Platform} (columns : list Column) (e : Event)
    (st : GridState * Store) :
  cursorValid st.1 -> cursorValid (step columns e st).1.
Proof.
  destruct st as [c σ]. cbn [fst]. intros Hc.
  assert (Hsame : forall s, history s = history c -> historyIndex s = historyIndex c ->
                            cursorValid s)
    by (intros; now apply (cursorValid_same c)).
  destruct e as [|colIndex|colIndex|targetIndex|r k patch|selected|rowIndex|text r k| | |];
    cbn [step fst].
  - unfold initHistory. destruct (history c) eqn:E; cbn; [|done].
    unfold cursorValid. cbn. lia.
  - unfold handleSort. destruct (_ && _); cbn; [now apply Hsame|].
    apply cursorValid_saveToHistory.
  - now apply Hsame.
  - unfold handleColumnDrop. destruct (draggedColumn c) as [sourceIndex|];
      [|now apply Hsame].
    destruct (sourceIndex =? targetIndex); [now apply Hsame|].
    destruct (mapM _ _) as [newRows|]; [|now apply Hsame].
    destruct (moveItem _ _ (columnWidths c)); cbn; [|now apply Hsame].
    apply cursorValid_saveToHistory.
  - unfold formatCell. destruct (writeCell _ _ _ _ _); cbn; [|done].
    apply cursorValid_saveToHistory.
  - unfold handleKeyDown_Delete. destruct selected as [[row col]|]; [|done].
    destruct (row =? -1); [done|].
    unfold clearCell. destruct (writeCell _ _ _ _ _); cbn; [|done].
    apply cursorValid_saveToHistory.
  - apply cursorValid_saveToHistory.
  - unfold handleInputChange. destruct (r =? -1); [done|].
    destruct (_ && _); [done|].
    destruct (at_ (gridData c) r); [|done].
    destruct (at_ _ k); cbn; [|done]. now apply Hsame.
  - apply cursorValid_saveToHistory.
  - unfold undo. destruct (Z.ltb_spec 0 (historyIndex c)); [|done].
    destruct (at_ _ _); [|done]. unfold cursorValid in *. cbn. lia.
  - unfold redo. destruct (Z.ltb_spec (historyIndex c) (Z.of_nat (length (history c)) - 1)); [|done].
    destruct (at_ _ _); [|done]. unfold cursorValid in *. cbn. lia.
Qed.

Lemma cursorValid_run_from `{Platform} (columns : list Column) (events : list Event)
    (st : GridState * Store) :
  cursorValid st.1 -> cursorValid (run columns events st).1.
Proof.
  unfold run. revert st. induction events as [|e events IH]; intros st Hc; [done|].
  cbn. apply IH. now apply cursorValid_step.
Qed.

Lemma at_is_Some {A} (l : list A) (i : Z) :
  0 <= i < Z.of_nat (length l) -> is_Some (at_ l i).
Proof.
  intros Hi. unfold at_. destruct (Z.ltb_spec i 0); [lia|].
  apply lookup_lt_is_Some. lia.
Qed.

(** In every state of a session that began with the mount and the recording
    of the initial state, the history cursor points at an entry, so neither
    undo nor redo reads an entry that is missing. *)
Theorem history_cursor_stays_valid `{Platform} (columns : list Column)
    (items : list (gmap jsstring jsval)) (events : list Event) :
  let st := run columns (Mounted :: events) (mount columns items) in
  0 <= historyIndex st.1 < Z.of_nat (length (history st.1))
  /\ threw (undo columns st.1 st.2) = false
  /\ threw (redo columns st.1 st.2) = false.
Proof.
  intros st.
  assert (Hc : cursorValid st.1).
  { subst st. cbn [run fold_left]. apply (cursorValid_run_from columns events).
    unfold cursorValid. cbn. lia. }
  split; [exact Hc|]. unfold cursorValid in Hc. split.
  - unfold undo. destruct (Z.ltb_spec 0 (historyIndex st.1)); [|done].
    destruct (at_is_Some (history st.1) (historyIndex st.1 - 1)) as [x ->]; [lia|].
    reflexivity.
  - unfold redo.
    destruct (Z.ltb_spec (historyIndex st.1) (Z.of_nat (length (history st.1)) - 1)); [|done].
    destruct (at_is_Some (history st.1) (historyIndex st.1 + 1)) as [x ->]; [lia|].
    reflexivity.
Qed.

Lemma redo_at_newest (columns : list Column) (s : GridState) (σ : Store) :
  historyIndex s = Z.of_nat (length (history s)) - 1 -> redo columns s σ = finished s σ.
Proof.
  intros Hi. unfold redo.
  destruct (Z.ltb_spec (historyIndex s) (Z.of_nat (length (history s)) - 1)); [lia|done].
Qed.

Lemma saveToHistory_cursor (columns : list Column) (c s : GridState) (σ : Store) :
  historyIndex (saveToHistory columns c σ s)
  = Z.of_nat (length (history (saveToHistory columns c σ s))) - 1.
Proof. reflexivity. Qed.

(** An event that changes the history keeps the entries up to the cursor,
    drops the entries behind it, which are those that had been undone, and
    puts one new entry after them; it leaves the cursor on that newest
    entry, and a redo that follows does nothing. *)
Theorem recording_disables_redo `{Platform} (columns : list Column) (e : Event)
    (st : GridState * Store) (σ : Store) :
  history (step columns e st).1 <> history st.1 ->
  (exists newest,
     history (step columns e st).1
     = slice 0 (historyIndex st.1 + 1) (history st.1) ++ [newest])
  /\ historyIndex (step columns e st).1
     = Z.of_nat (length (history (step columns e st).1)) - 1
  /\ redo columns (step columns e st).1 σ = finished (step columns e st).1 σ.
Proof.
  intros Hne.
  assert (Hsave : (exists newest,
                     history (step columns e st).1
                     = slice 0 (historyIndex st.1 + 1) (history st.1) ++ [newest])
                  /\ historyIndex (step columns e st).1
                     = Z.of_nat (length (history (step columns e st).1)) - 1).
  { destruct st as [c σ0]. revert Hne.
    destruct e as [|colIndex|colIndex|targetIndex|r k patch|selected|rowIndex|text r k| | |];
      cbn [step fst].
    - unfold initHistory. destruct (history c) eqn:E; cbn; [|now rewrite E].
      intros _. split; [|done]. eexists. unfold slice. now rewrite drop_nil, take_nil.
    - unfold handleSort. destruct (_ && _); cbn; [done|]. intros _. split; [|done]. now eexists.
    - done.
    - unfold handleColumnDrop. destruct (draggedColumn c) as [sourceIndex|]; [|done].
      destruct (sourceIndex =? targetIndex); [done|].
      destruct (mapM _ _) as [newRows|]; [|done].
      destruct (moveItem _ _ (columnWidths c)); cbn; [|done].
      intros _. split; [|done]. now eexists.
    - unfold formatCell. destruct (writeCell _ _ _ _ _); cbn; [|done].
      intros _. split; [|done]. now eexists.
    - unfold handleKeyDown_Delete. destruct selected as [[row col]|]; [|done].
      destruct (row =? -1); [done|].
      unfold clearCell. destruct (writeCell _ _ _ _ _); cbn; [|done].
      intros _. split; [|done]. now eexists.
    - intros _. cbn. split; [|done]. now eexists.
    - unfold handleInputChange. destruct (r =? -1); [done|].
      destruct (_ && _); [done|].
      destruct (at_ (gridData c) r); [|done].
      destruct (at_ _ k); cbn; done.
    - intros _. cbn. split; [|done]. now eexists.
    - unfold undo. destruct (0 <? historyIndex c); [|done].
      destruct (at_ _ _); done.
    - unfold redo. destruct (_ <? _); [|done].
      destruct (at_ _ _); done. }
  destruct Hsave as [Hnew Hi]. split; [exact Hnew|]. split; [exact Hi|].
  now apply redo_at_newest.
Qed.

(** The sheet after a format and an undo, which leaves the entry of the
    format behind the cursor; then a sort. *)
Lemma recording_disables_redo_witness :
  let st := run (H := inertHost) sheetColumns [UndoKey] sheetFormatted in
  let st' := step (H := inertHost) sheetColumns (SortClick 1) st in
  (exists newest,
     history st'.1 = slice 0 (historyIndex st.1 + 1) (history st.1) ++ [newest])
  /\ historyIndex st'.1 = Z.of_nat (length (history st'.1)) - 1
  /\ redo sheetColumns st'.1 st'.2 = finished st'.1 st'.2.
Proof.
  apply (recording_disables_redo (H := inertHost) sheetColumns (SortClick 1)
           (run (H := inertHost) sheetColumns [UndoKey] sheetFormatted)
           (step (H := inertHost) sheetColumns (SortClick 1)
              (run (H := inertHost) sheetColumns [UndoKey] sheetFormatted)).2).
  vm_compute. discriminate.
Defined.

(** There the history has two entries before and after the sort: the first
    is kept, and the entry of the format has made way for that of the
    sort. *)
Example recording_drops_the_undone_entry :
  let st := run (H := inertHost) sheetColumns [UndoKey] sheetFormatted in
  let st' := step (H := inertHost) sheetColumns (SortClick 1) st in
  (length (history st.1), historyIndex st.1) = (2%nat, 0)
  /\ (length (history st'.1), historyIndex st'.1) = (2%nat, 1)
  /\ history st'.1 !! 0%nat = history st.1 !! 0%nat
  /\ history st'.1 !! 1%nat <> history st.1 !! 1%nat.
Proof. vm_compute. repeat split; discriminate. Qed.

(** ** Every row has a cell per column *)

Lemma rectangular_jsonGrid (n : nat) (g : list (list CellData)) :
  rectangular n g -> rectangular n (jsonGrid g).
Proof.
  unfold rectangular, jsonGrid. intros Hg. apply Forall_map.
  eapply Forall_impl; [exact Hg|]. cbn. intros cells. now rewrite length_map.
Qed.

Lemma rowAt_app (σ extra : Store) (l : loc) :
  (l < length σ)%nat -> rowAt (σ ++ extra) l = rowAt σ l.
Proof. intros Hl. unfold rowAt. now rewrite lookup_app_l. Qed.

Lemma cellsOf_app (σ extra : Store) (rows : list loc) :
  Forall (fun l => (l < length σ)%nat) rows -> cellsOf (σ ++ extra) rows = cellsOf σ rows.
Proof.
  intros Hrows. unfold cellsOf. apply map_ext_Forall.
  eapply Forall_impl; [exact Hrows|]. cbn. intros l. apply rowAt_app.
Qed.

Lemma Forall_slice {A} (P : A -> Prop) (first last : Z) (l : list A) :
  Forall P l -> Forall P (slice first last l).
Proof. intros Hl. unfold slice. now apply Forall_take, Forall_drop. Qed.

Lemma history_saveToHistory (P : HistoryState -> Prop) (columns : list Column)
    (c s : GridState) (σ : Store) :
  Forall P (history c) ->
  P {| hist_gridData := jsonGrid (cellsOf σ (gridData c)); hist_columns := columns |} ->
  Forall P (history (saveToHistory columns c σ s)).
Proof.
  intros Hh Hnew. unfold saveToHistory. cbn. apply Forall_app. split.
  - now apply Forall_slice.
  - now apply Forall_cons.
Qed.

Lemma spliceOut_length {A} (start : Z) (l l' : list A) (x : A) :
  spliceOut start l = Some (x, l') -> S (length l') = length l.
Proof.
  unfold spliceOut. destruct (l !! _) eqn:E; [|done]. intros [= <- <-].
  apply lookup_lt_Some in E. rewrite length_app, length_take, length_drop. lia.
Qed.

Lemma spliceIn_length {A} (start : Z) (x : A) (l : list A) :
  length (spliceIn start x l) = S (length l).
Proof.
  unfold spliceIn. rewrite length_app. cbn. rewrite length_take, length_drop. lia.
Qed.

Lemma moveItem_length {A} (sourceIndex targetIndex : Z) (l l' : list A) :
  moveItem sourceIndex targetIndex l = Some l' -> length l' = length l.
Proof.
  unfold moveItem. destruct (spliceOut _ _) as [[x l'']|] eqn:E; [|done].
  intros [= <-]. rewrite spliceIn_length. now apply spliceOut_length in E.
Qed.

Lemma rectangular_mapM_moveItem (n : nat) (sourceIndex targetIndex : Z)
    (g g' : list (list CellData)) :
  mapM (moveItem sourceIndex targetIndex) g = Some g' ->
  rectangular n g -> rectangular n g'.
Proof.
  intros Hm Hg. apply mapM_Some in Hm. unfold rectangular in *.
  induction Hm as [|cells cells' g g' Hc _ IH]; [done|].
  apply Forall_cons in Hg as [Hlen Hg]. apply Forall_cons. split; [|auto].
  apply moveItem_length in Hc. congruence.
Qed.

Lemma rectangular_write (n : nat) (σ : Store) (rows : list loc) (l : loc) (k : nat)
    (cell : CellData) :
  rectangular n (cellsOf σ rows) ->
  rectangular n (cellsOf (<[ l := <[ k := cell ]> (rowAt σ l) ]> σ) rows).
Proof.
  unfold rectangular, cellsOf. rewrite !Forall_map. intros Hg.
  eapply Forall_impl; [exact Hg|]. cbn. intros l' Hlen.
  destruct (decide (l < length σ)%nat) as [Hl|Hl].
  - rewrite rowAt_insert by done. destruct (decide (l = l')) as [<-|]; [|done].
    now rewrite length_insert.
  - now rewrite list_insert_ge by lia.
Qed.

Lemma gridInvariant_step `{Platform} (columns : list Column) (e : Event)
    (st : GridState * Store) :
  gridInvariant columns st -> gridInvariant columns (step columns e st).
Proof.
  intros (Hwf & Hrect & Hhist).
  split; [now apply wellFormed_step|].
  destruct st as [c σ]. unfold liveGrid in *. cbn [fst snd] in *.
  assert (Hsnap : forall s, Forall (fun h => rectangular (length columns) (hist_gridData h))
                              (history (saveToHistory columns c σ s))).
  { intros s. apply history_saveToHistory; [done|]. cbn. now apply rectangular_jsonGrid. }
  destruct e as [|colIndex|colIndex|targetIndex|r k patch|selected|rowIndex|text r k| | |];
    cbn [step fst snd].
  - unfold initHistory. destruct (history c) eqn:E; cbn; [|now rewrite E].
    split; [done|]. apply Forall_cons. split; [|done]. cbn. now apply rectangular_jsonGrid.
  - unfold handleSort. destruct (_ && _); cbn [next store thrown finished]; [done|].
    split; [|apply Hsnap]. cbn. unfold rectangular, cellsOf in *.
    now rewrite sortWith_perm.
  - done.
  - unfold handleColumnDrop. destruct (draggedColumn c) as [sourceIndex|]; [|done].
    destruct (sourceIndex =? targetIndex); [done|].
    destruct (mapM _ _) as [newRows|] eqn:Hm; [|done].
    destruct (moveItem _ _ (columnWidths c)); cbn [default next store finished]; [|done].
    assert (Hnew : rectangular (length columns) newRows)
      by (eapply rectangular_mapM_moveItem; eauto).
    split.
    + pose proof (cellsOf_alloc σ newRows) as Ha. unfold allocRows in Ha.
      unfold cellsOf in Ha. cbn [fst snd] in Ha. cbn. now rewrite Ha.
    + apply history_saveToHistory; [done|]. cbn. apply rectangular_jsonGrid.
      rewrite cellsOf_app; [done|]. apply Hwf.
  - unfold formatCell, writeCell.
    destruct (at_ (gridData c) r) as [l|]; [|done].
    destruct (at_ (rowAt σ l) k) as [cell|]; cbn [next store thrown finished]; [|done].
    assert (Hw : rectangular (length columns)
              (cellsOf (<[l:=<[Z.to_nat k:=
                 {| value := value cell; format := Some (mergeFormat (format cell) patch);
                    formula := formula cell |}]> (rowAt σ l)]> σ) (gridData c)))
      by now apply rectangular_write.
    split; [exact Hw|]. apply history_saveToHistory; [done|]. cbn.
    now apply rectangular_jsonGrid.
  - unfold handleKeyDown_Delete. destruct selected as [[row col]|]; [|done].
    destruct (row =? -1); [done|].
    unfold clearCell, writeCell.
    destruct (at_ (gridData c) row) as [l|]; [|done].
    destruct (at_ (rowAt σ l) col) as [cell|]; cbn [next store thrown finished]; [|done].
    assert (Hw : rectangular (length columns)
              (cellsOf (<[l:=<[Z.to_nat col:=
                 {| value := VStr []; format := format cell; formula := None |}]>
                 (rowAt σ l)]> σ) (gridData c)))
      by now apply rectangular_write.
    split; [exact Hw|]. apply history_saveToHistory; [done|]. cbn.
    now apply rectangular_jsonGrid.
  - unfold insertRowAbove. cbn [next store finished].
    destruct Hwf as [Hdup Hlt]. cbn [fst snd] in Hdup, Hlt.
    assert (Hold : cellsOf (σ ++ [replicate (length columns) emptyCell]) (gridData c)
                   = cellsOf σ (gridData c)) by now apply cellsOf_app.
    split.
    + cbn. unfold rectangular, cellsOf. rewrite spliceIn_perm. cbn.
      apply Forall_cons. split.
      * unfold rowAt. rewrite lookup_app_r, Nat.sub_diag by lia. cbn.
        apply length_replicate.
      * fold (cellsOf (σ ++ [replicate (length columns) emptyCell]) (gridData c)).
        now rewrite Hold.
    + apply history_saveToHistory; [done|]. cbn. rewrite Hold.
      now apply rectangular_jsonGrid.
  - unfold handleInputChange. destruct (r =? -1); [done|].
    destruct (_ && _); [done|].
    destruct (at_ (gridData c) r) as [l|]; [|done].
    destruct (at_ (rowAt σ l) k) as [cell|]; cbn [default next store finished]; [|done].
    split; [|done]. cbn. now apply rectangular_write.
  - unfold handleInputBlur. cbn [next store finished]. split; [done|]. apply Hsnap.
  - unfold undo. destruct (0 <? historyIndex c); [|done].
    destruct (at_ _ _) as [snapshot|] eqn:E; [|done].
    split; [|done].
    pose proof (restore_grid columns (historyIndex c - 1) snapshot c σ) as Hg.
    unfold liveGrid in Hg. cbn [fst snd] in Hg. rewrite Hg.
    apply rectangular_jsonGrid. rewrite Forall_forall in Hhist. apply Hhist.
    apply at_Some in E as [_ E]. eapply list_elem_of_lookup_2, E.
  - unfold redo. destruct (_ <? _); [|done].
    destruct (at_ _ _) as [snapshot|] eqn:E; [|done].
    split; [|done].
    pose proof (restore_grid columns (historyIndex c + 1) snapshot c σ) as Hg.
    unfold liveGrid in Hg. cbn [fst snd] in Hg. rewrite Hg.
    apply rectangular_jsonGrid. rewrite Forall_forall in Hhist. apply Hhist.
    apply at_Some in E as [_ E]. eapply list_elem_of_lookup_2, E.
Qed.

Lemma gridInvariant_mount (columns : list Column) (items : list (gmap jsstring jsval)) :
  gridInvariant columns (mount columns items).
Proof.
  split; [apply wellFormed_mount|]. split; [|apply Forall_nil_2].
  pose proof (cellsOf_alloc [] (initialGrid columns items)) as Ha.
  unfold liveGrid, mount. unfold allocRows in *. cbn [fst snd] in *. cbn [gridData].
  rewrite Ha. unfold rectangular, initialGrid. apply Forall_map, Forall_true.
  intros item. cbn. now rewrite length_map.
Qed.

Lemma gridInvariant_run `{Platform} (columns : list Column) (events : list Event)
    (st : GridState * Store) :
  gridInvariant columns st -> gridInvariant columns (run columns events st).
Proof.
  unfold run. revert st. induction events as [|e events IH]; intros st Hc; [done|].
  cbn. apply IH. now apply gridInvariant_step.
Qed.

(** Every state of a session has one cell per column in every row of the
    grid, so a position holds a cell exactly when its row and its column
    exist. *)
Theorem grid_stays_rectangular `{Platform} (columns : list Column)
    (items : list (gmap jsstring jsval)) (events : list Event) (row col : Z) :
  let st := run columns events (mount columns items) in
  Forall (fun cells => length cells = length columns) (liveGrid st)
  /\ (is_Some (cellAt (liveGrid st) row col)
      <-> 0 <= row < Z.of_nat (length (liveGrid st))
          /\ 0 <= col < Z.of_nat (length columns)).
Proof.
  intros st.
  destruct (gridInvariant_run columns events _ (gridInvariant_mount columns items))
    as (_ & Hrect & _).
  fold st in Hrect. split; [exact Hrect|].
  unfold cellAt, at_. split.
  - intros [cell Hcell].
    destruct (Z.ltb_spec row 0); [done|].
    destruct (liveGrid st !! Z.to_nat row) as [cells|] eqn:Hrow; [|done].
    destruct (Z.ltb_spec col 0); [done|].
    pose proof (lookup_lt_Some _ _ _ Hrow). pose proof (lookup_lt_Some _ _ _ Hcell).
    unfold rectangular in Hrect. rewrite Forall_forall in Hrect.
    rewrite <- (Hrect cells) by (eapply list_elem_of_lookup_2, Hrow). lia.
  - intros [Hrow Hcol].
    destruct (Z.ltb_spec row 0); [lia|].
    destruct (lookup_lt_is_Some_2 (liveGrid st) (Z.to_nat row)) as [cells Hcells]; [lia|].
    rewrite Hcells.
    destruct (Z.ltb_spec col 0); [lia|].
    apply lookup_lt_is_Some_2.
    unfold rectangular in Hrect. rewrite Forall_forall in Hrect.
    rewrite (Hrect cells) by (eapply list_elem_of_lookup_2, Hcells). lia.
Qed.

(** ** Moving an element of an array *)

Lemma sliceIndex_inside (len i : Z) : 0 <= i <= len -> sliceIndex len i = i.
Proof. intros Hi. unfold sliceIndex. destruct (Z.ltb_spec i 0); lia. Qed.

Lemma spliceOut_inside {A} (start : Z) (l : list A) (x : A) :
  0 <= start -> l !! Z.to_nat start = Some x ->
  spliceOut start l = Some (x, delete (Z.to_nat start) l).
Proof.
  intros H0 Hx. unfold spliceOut. pose proof (lookup_lt_Some _ _ _ Hx).
  rewrite sliceIndex_inside by lia. rewrite Hx. now rewrite delete_take_drop.
Qed.

Lemma spliceIn_inside {A} (start : Z) (x : A) (l : list A) :
  0 <= start <= Z.of_nat (length l) ->
  spliceIn start x l = take (Z.to_nat start) l ++ x :: drop (Z.to_nat start) l.
Proof. intros Hs. unfold spliceIn. now rewrite sliceIndex_inside. Qed.

Lemma spliceIn_lookup {A} (start : Z) (x : A) (l : list A) :
  0 <= start <= Z.of_nat (length l) ->
  spliceIn start x l !! Z.to_nat start = Some x
  /\ delete (Z.to_nat start) (spliceIn start x l) = l.
Proof.
  intros Hs. rewrite spliceIn_inside by done.
  assert (Hlen : length (take (Z.to_nat start) l) = Z.to_nat start)
    by (rewrite length_take; lia).
  split.
  - rewrite <- Hlen at 1. apply list_lookup_middle. reflexivity.
  - rewrite <- Hlen at 1. rewrite delete_middle. apply take_drop.
Qed.

(** Moving an element between two positions of a list: it is found at the
    target, and the other elements keep their order. *)
Lemma moveItem_spec {A} (sourceIndex targetIndex : Z) (l : list A) :
  0 <= sourceIndex < Z.of_nat (length l) ->
  0 <= targetIndex < Z.of_nat (length l) ->
  exists l',
    moveItem sourceIndex targetIndex l = Some l'
    /\ l' !! Z.to_nat targetIndex = l !! Z.to_nat sourceIndex
    /\ delete (Z.to_nat targetIndex) l' = delete (Z.to_nat sourceIndex) l.
Proof.
  intros Hs Ht.
  destruct (lookup_lt_is_Some_2 l (Z.to_nat sourceIndex)) as [x Hx]; [lia|].
  unfold moveItem. rewrite (spliceOut_inside _ _ x) by (done || lia).
  eexists. split; [reflexivity|].
  assert (Hlen : 0 <= targetIndex
                 <= Z.of_nat (length (delete (Z.to_nat sourceIndex) l))).
  { rewrite length_delete by (now exists x). lia. }
  destruct (spliceIn_lookup targetIndex x _ Hlen) as [-> ->]. now rewrite Hx.
Qed.

Lemma list_eq_by_delete {A} (i : nat) (l1 l2 : list A) (x : A) :
  l1 !! i = Some x -> l2 !! i = Some x -> delete i l1 = delete i l2 -> l1 = l2.
Proof.
  intros H1 H2 Hd.
  rewrite <- (take_drop_middle l1 i x H1), <- (take_drop_middle l2 i x H2).
  rewrite !delete_take_drop in Hd.
  apply app_inj_1 in Hd as [-> ->]; [done|].
  rewrite !length_take. apply lookup_lt_Some in H1, H2. lia.
Qed.

(** Moving it back restores the list. *)
Lemma moveItem_back {A} (sourceIndex targetIndex : Z) (l l' : list A) :
  0 <= sourceIndex < Z.of_nat (length l) ->
  0 <= targetIndex < Z.of_nat (length l) ->
  moveItem sourceIndex targetIndex l = Some l' ->
  moveItem targetIndex sourceIndex l' = Some l.
Proof.
  intros Hs Ht Hm.
  destruct (moveItem_spec sourceIndex targetIndex l Hs Ht) as (l1 & Hm1 & Hat & Hdel).
  assert (l1 = l') by congruence. subst l1.
  pose proof (moveItem_length _ _ _ _ Hm) as Hlen.
  destruct (moveItem_spec targetIndex sourceIndex l') as (l2 & Hm2 & Hat2 & Hdel2);
    [lia..|].
  rewrite Hm2. f_equal.
  destruct (lookup_lt_is_Some_2 l (Z.to_nat sourceIndex)) as [x Hx]; [lia|].
  apply (list_eq_by_delete (Z.to_nat sourceIndex) _ _ x); congruence.
Qed.

(** ** Dragging a row *)

(** Dropping a dragged data row on another one moves the row to the
    target position and keeps the order of the others; the row heights move
    in the same way, and the drag is over. *)
Theorem row_drop_moves_row (columns : list Column) (sourceIndex targetIndex : Z)
    (d : RowDrag) (c : GridState) (σ : Store) :
  draggedRow d = Some sourceIndex ->
  0 <= sourceIndex < Z.of_nat (length (gridData c)) ->
  0 <= targetIndex < Z.of_nat (length (gridData c)) ->
  sourceIndex < Z.of_nat (length (rowHeights c)) ->
  targetIndex < Z.of_nat (length (rowHeights c)) ->
  exists o,
    handleRowDrop columns targetIndex d c σ
      = Some (o, {| draggedRow := None; dragOverRow := None |})
    /\ threw o = false
    /\ liveGrid (next o, store o) !! Z.to_nat targetIndex
       = liveGrid (c, σ) !! Z.to_nat sourceIndex
    /\ delete (Z.to_nat targetIndex) (liveGrid (next o, store o))
       = delete (Z.to_nat sourceIndex) (liveGrid (c, σ))
    /\ rowHeights (next o) !! Z.to_nat targetIndex = rowHeights c !! Z.to_nat sourceIndex
    /\ delete (Z.to_nat targetIndex) (rowHeights (next o))
       = delete (Z.to_nat sourceIndex) (rowHeights c).
Proof.
  intros Hd Hs Ht Hhs Hht. unfold handleRowDrop. rewrite Hd.
  destruct (Z.eqb_spec sourceIndex targetIndex) as [->|Hne].
  { eexists. split; [reflexivity|]. repeat split. }
  destruct (Z.eqb_spec sourceIndex (-1)); [lia|].
  destruct (Z.eqb_spec targetIndex (-1)); [lia|]. cbn [negb andb orb].
  destruct (moveItem_spec sourceIndex targetIndex (gridData c) Hs Ht)
    as (rows & -> & Hat & Hdel).
  destruct (moveItem_spec sourceIndex targetIndex (rowHeights c))
    as (heights & -> & Hhat & Hhdel); [lia..|].
  cbn. eexists. split; [reflexivity|]. split; [reflexivity|].
  unfold liveGrid, cellsOf. cbn.
  rewrite !list_lookup_fmap, Hat. split; [done|].
  split; [|done].
  change (map (rowAt σ)) with (fmap (M := list) (rowAt σ)).
  rewrite <- !list_fmap_delete. now rewrite Hdel.
Qed.

Lemma row_drop_moves_row_witness :
  exists o,
    handleRowDrop sheetColumns 2 {| draggedRow := Some 0; dragOverRow := Some 2 |}
      sheetMounted.1 sheetMounted.2
      = Some (o, {| draggedRow := None; dragOverRow := None |})
    /\ threw o = false
    /\ liveGrid (next o, store o) !! Z.to_nat 2
       = liveGrid (sheetMounted.1, sheetMounted.2) !! Z.to_nat 0
    /\ delete (Z.to_nat 2) (liveGrid (next o, store o))
       = delete (Z.to_nat 0) (liveGrid (sheetMounted.1, sheetMounted.2))
    /\ rowHeights (next o) !! Z.to_nat 2 = rowHeights sheetMounted.1 !! Z.to_nat 0
    /\ delete (Z.to_nat 2) (rowHeights (next o))
       = delete (Z.to_nat 0) (rowHeights sheetMounted.1).
Proof.
  apply (row_drop_moves_row sheetColumns 0 2
           {| draggedRow := Some 0; dragOverRow := Some 2 |}
           sheetMounted.1 sheetMounted.2);
    [reflexivity | vm_compute; split; [discriminate | reflexivity]
     | vm_compute; split; [discriminate | reflexivity] | reflexivity | reflexivity].
Defined.

Example row_drop_on_sheet :
  (fun r => liveGrid (next r.1, store r.1))
    <$> handleRowDrop sheetColumns 2 {| draggedRow := Some 0; dragOverRow := Some 2 |}
          sheetMounted.1 sheetMounted.2
  = Some [ [sheetCell "A"; amountCell 10]; [sheetCell "C"; amountCell 30];
           [sheetCell "B"; amountCell 20] ]
  /\ (fun r => liveGrid (next r.1, store r.1))
       <$> handleRowDrop sheetColumns (-1) {| draggedRow := Some 0; dragOverRow := None |}
             sheetMounted.1 sheetMounted.2
     = Some (liveGrid sheetMounted).
Proof. split; reflexivity. Qed.

(** ** Dragging a column *)

Lemma mapM_moveItem_back (n : nat) (sourceIndex targetIndex : Z)
    (g : list (list CellData)) :
  0 <= sourceIndex < Z.of_nat n -> 0 <= targetIndex < Z.of_nat n ->
  rectangular n g ->
  exists g',
    mapM (moveItem sourceIndex targetIndex) g = Some g'
    /\ mapM (moveItem targetIndex sourceIndex) g' = Some g.
Proof.
  intros Hs Ht Hg. induction Hg as [|cells g Hlen _ (g' & Hg' & Hback)].
  - now exists [].
  - destruct (moveItem_spec sourceIndex targetIndex cells) as (cells' & Hm & _);
      [lia..|].
    exists (cells' :: g'). cbn. rewrite Hm, Hg'. cbn. split; [done|].
    rewrite (moveItem_back sourceIndex targetIndex cells cells') by (lia || done).
    cbn. now rewrite Hback.
Qed.

Lemma liveGrid_alloc (σ : Store) (g : list (list CellData)) (s : GridState) :
  liveGrid (setGridData (allocRows σ g).2 s, (allocRows σ g).1) = g.
Proof. unfold liveGrid. cbn [fst snd]. apply cellsOf_alloc. Qed.

Lemma handleColumnDrop_result (columns : list Column) (sourceIndex targetIndex : Z)
    (c : GridState) (σ : Store) (g' : list (list CellData)) (w' : list Z) :
  draggedColumn c = Some sourceIndex -> sourceIndex <> targetIndex ->
  mapM (moveItem sourceIndex targetIndex) (cellsOf σ (gridData c)) = Some g' ->
  moveItem sourceIndex targetIndex (columnWidths c) = Some w' ->
  exists o,
    handleColumnDrop columns targetIndex c σ = Some o
    /\ liveGrid (next o, store o) = g'
    /\ columnWidths (next o) = w'
    /\ callbacks o = [onReorderColumns sourceIndex targetIndex]
    /\ threw o = false.
Proof.
  intros Hd Hne Hg Hw. unfold handleColumnDrop. rewrite Hd.
  destruct (Z.eqb_spec sourceIndex targetIndex); [done|].
  rewrite Hg, Hw. cbn. eexists. split; [reflexivity|]. cbn.
  split; [|done]. apply (liveGrid_alloc σ g' c).
Qed.

(** Dragging a column to another position and then back restores the
    cells and the column widths. *)
Theorem column_drag_back_restores `{Platform} (columns : list Column) (n : nat)
    (sourceIndex targetIndex : Z) (st : GridState * Store) :
  0 <= sourceIndex < Z.of_nat n -> 0 <= targetIndex < Z.of_nat n ->
  Forall (fun cells => length cells = n) (liveGrid st) ->
  length (columnWidths st.1) = n ->
  let st' := run columns [ColumnDragStart sourceIndex; ColumnDrop targetIndex;
                          ColumnDragStart targetIndex; ColumnDrop sourceIndex] st in
  liveGrid st' = liveGrid st /\ columnWidths st'.1 = columnWidths st.1.
Proof.
  intros Hs Ht Hrect Hw. destruct st as [c σ]. cbn [fst snd] in *.
  cbn [run fold_left].
  destruct (Z.eq_dec sourceIndex targetIndex) as [->|Hne].
  { cbn [step handleColumnDragStart finished next store].
    unfold handleColumnDrop.
    do 2 (cbn [default finished next store draggedColumn setDrag]; rewrite ?Z.eqb_refl).
    split; reflexivity. }
  destruct (mapM_moveItem_back n sourceIndex targetIndex (cellsOf σ (gridData c)))
    as (g' & Hg' & Hback); [done..|].
  destruct (moveItem_spec sourceIndex targetIndex (columnWidths c))
    as (w' & Hw' & _); [lia..|].
  pose proof (moveItem_back sourceIndex targetIndex (columnWidths c) w'
                ltac:(lia) ltac:(lia) Hw') as Hwback.
  set (st1 := step columns (ColumnDragStart sourceIndex) (c, σ)).
  destruct (handleColumnDrop_result columns sourceIndex targetIndex st1.1 st1.2 g' w')
    as (o2 & Ho2 & Hg2 & Hw2 & _); [reflexivity | done | exact Hg' | exact Hw' |].
  set (st2 := step columns (ColumnDrop targetIndex) st1).
  assert (Hst2 : st2 = (next o2, store o2)).
  { subst st2. destruct st1 as [c1 σ1]. cbn [step fst snd] in *. now rewrite Ho2. }
  set (st3 := step columns (ColumnDragStart targetIndex) st2).
  assert (Hst3 : liveGrid st3 = g' /\ columnWidths st3.1 = w'
                 /\ draggedColumn st3.1 = Some targetIndex).
  { subst st3. rewrite Hst2. cbn [step handleColumnDragStart finished next store].
    unfold liveGrid in *. cbn [fst snd setDrag gridData columnWidths draggedColumn] in *.
    auto. }
  destruct Hst3 as (Hg3 & Hw3 & Hd3).
  destruct (handleColumnDrop_result columns targetIndex sourceIndex st3.1 st3.2
              (cellsOf σ (gridData c)) (columnWidths c))
    as (o4 & Ho4 & Hg4 & Hw4 & _).
  { exact Hd3. }
  { congruence. }
  { unfold liveGrid in Hg3. now rewrite Hg3. }
  { now rewrite Hw3. }
  assert (Hst4 : step columns (ColumnDrop sourceIndex) st3 = (next o4, store o4)).
  { destruct st3 as [c3 σ3]. cbn [step fst snd] in *. now rewrite Ho4. }
  rewrite Hst4. cbn [fst]. unfold liveGrid at 2. cbn [fst snd]. auto.
Qed.

Lemma column_drag_back_restores_witness :
  let st' := run (H := inertHost) sheetColumns
               [ColumnDragStart 0; ColumnDrop 1; ColumnDragStart 1; ColumnDrop 0]
               sheetMounted in
  liveGrid st' = liveGrid sheetMounted /\ columnWidths st'.1 = columnWidths sheetMounted.1.
Proof.
  apply (column_drag_back_restores (H := inertHost) sheetColumns 2 0 1 sheetMounted);
    [lia | lia | repeat constructor | reflexivity].
Defined.

(** ** Headers and cells move together *)

Lemma delete_zip {A B} (i : nat) (a : list A) (b : list B) :
  delete i (zip a b) = zip (delete i a) (delete i b).
Proof.
  revert i b. induction a as [|x a IH]; intros i [|y b]; cbn.
  - now destruct i.
  - now destruct i.
  - destruct i; cbn; [now destruct a | now destruct (delete i a)].
  - destruct i; cbn; [done|]. now rewrite IH.
Qed.

Lemma lookup_zip {A B} (i : nat) (a : list A) (b : list B) :
  zip a b !! i = (a !! i) ≫= fun x => (b !! i) ≫= fun y => Some (x, y).
Proof.
  revert i b. induction a as [|x a IH]; intros i [|y b]; cbn; try done.
  - now destruct ((x :: a) !! i).
  - destruct i; cbn; [done|]. apply IH.
Qed.

(** A column drop moves the headers in the page and the cells in every row
    in the same way: the pair of header and cell found at the target is the
    one that was at the source, the other pairs keep their order, and the
    items of the page are untouched. *)
Theorem column_drop_keeps_headers_over_cells (data : Page.TableData)
    (sourceIndex targetIndex : Z) (c : GridState) (σ : Store) :
  let n := length (Page.columns data) in
  draggedColumn c = Some sourceIndex ->
  0 <= sourceIndex < Z.of_nat n -> 0 <= targetIndex < Z.of_nat n ->
  Forall (fun cells => length cells = n) (liveGrid (c, σ)) ->
  length (columnWidths c) = n ->
  exists o data',
    handleColumnDrop (Page.columns data) targetIndex c σ = Some o
    /\ applyCallbacks (callbacks o) data = Some data'
    /\ Page.items data' = Page.items data
    /\ length (liveGrid (next o, store o)) = length (liveGrid (c, σ))
    /\ forall r cells cells',
         liveGrid (c, σ) !! r = Some cells ->
         liveGrid (next o, store o) !! r = Some cells' ->
         zip (Page.columns data') cells' !! Z.to_nat targetIndex
         = zip (Page.columns data) cells !! Z.to_nat sourceIndex
         /\ delete (Z.to_nat targetIndex) (zip (Page.columns data') cells')
            = delete (Z.to_nat sourceIndex) (zip (Page.columns data) cells).
Proof.
  intros n Hd Hs Ht Hrect Hw.
  destruct (Z.eq_dec sourceIndex targetIndex) as [->|Hne].
  { exists (finished (setDrag None None c) σ), data.
    unfold handleColumnDrop. rewrite Hd, Z.eqb_refl. cbn.
    do 4 (split; [reflexivity|]). intros r cells cells' Hr Hr'.
    unfold liveGrid, cellsOf in Hr, Hr'. cbn in Hr, Hr'.
    now replace cells' with cells by congruence. }
  destruct (mapM_moveItem_back n sourceIndex targetIndex (cellsOf σ (gridData c)))
    as (g' & Hg' & _); [done..|].
  destruct (moveItem_spec sourceIndex targetIndex (columnWidths c))
    as (w' & Hw' & _); [lia..|].
  destruct (handleColumnDrop_result (Page.columns data) sourceIndex targetIndex c σ g' w')
    as (o & Ho & Hg & _ & Hcalls & _); [done..|].
  destruct (moveItem_spec sourceIndex targetIndex (Page.columns data))
    as (cols' & Hcols' & Hcat & Hcdel); [done..|].
  exists o, {| Page.columns := cols'; Page.items := Page.items data |}.
  split; [exact Ho|]. rewrite Hcalls, Hg. cbn.
  unfold Page.handleReorderColumns. rewrite Hcols'. cbn.
  split; [done|]. split; [done|].
  apply mapM_Some in Hg'. split; [symmetry; eapply Forall2_length, Hg'|].
  intros r cells cells' Hr Hr'. unfold liveGrid in Hr. cbn [fst snd] in Hr.
  destruct (Forall2_lookup_l _ _ _ _ _ Hg' Hr) as (cells2 & Hr2 & Hm).
  assert (cells2 = cells') by congruence. subst cells2.
  assert (Hlen : length cells = n).
  { unfold liveGrid in Hrect. cbn [fst snd] in Hrect. rewrite Forall_forall in Hrect.
    apply Hrect. eapply list_elem_of_lookup_2, Hr. }
  destruct (moveItem_spec sourceIndex targetIndex cells) as (cells3 & Hm3 & Hat & Hdel);
    [lia..|].
  assert (cells3 = cells') by congruence. subst cells3.
  split.
  - now rewrite !lookup_zip, Hcat, Hat.
  - now rewrite !delete_zip, Hcdel, Hdel.
Qed.

Lemma column_drop_keeps_headers_over_cells_witness :
  exists o data',
    handleColumnDrop sheetColumns 1
      (setDrag (Some 0) None sheetMounted.1) sheetMounted.2 = Some o
    /\ applyCallbacks (callbacks o)
         {| Page.columns := sheetColumns; Page.items := sheetItems |} = Some data'
    /\ Page.items data' = sheetItems
    /\ length (liveGrid (next o, store o))
       = length (liveGrid (setDrag (Some 0) None sheetMounted.1, sheetMounted.2))
    /\ forall r cells cells',
         liveGrid (setDrag (Some 0) None sheetMounted.1, sheetMounted.2) !! r = Some cells ->
         liveGrid (next o, store o) !! r = Some cells' ->
         zip (Page.columns data') cells' !! Z.to_nat 1
         = zip sheetColumns cells !! Z.to_nat 0
         /\ delete (Z.to_nat 1) (zip (Page.columns data') cells')
            = delete (Z.to_nat 0) (zip sheetColumns cells).
Proof.
  apply (column_drop_keeps_headers_over_cells
           {| Page.columns := sheetColumns; Page.items := sheetItems |} 0 1
           (setDrag (Some 0) None sheetMounted.1) sheetMounted.2);
    [reflexivity | cbn; lia | cbn; lia | repeat constructor | reflexivity].
Defined.

(** ** Inserting a row *)

(** A row inserted below row [rowIndex] (the header row being -1) is a row
    of empty cells, one per column, right behind that row; the rows and the
    row heights before and after it are as they were, the new height is 40,
    and inserting below a row is inserting above the next. *)
Theorem insert_row_below_places_blank_row (columns : list Column) (rowIndex : Z)
    (c : GridState) (σ : Store) :
  wellFormed (c, σ) ->
  -1 <= rowIndex < Z.of_nat (length (gridData c)) ->
  rowIndex < Z.of_nat (length (rowHeights c)) ->
  let o := insertRowBelow columns rowIndex c σ in
  let k := Z.to_nat (rowIndex + 1) in
  liveGrid (next o, store o)
    = take k (liveGrid (c, σ)) ++ replicate (length columns) emptyCell
        :: drop k (liveGrid (c, σ))
  /\ rowHeights (next o) = take k (rowHeights c) ++ 40 :: drop k (rowHeights c)
  /\ o = insertRowAbove columns (rowIndex + 1) c σ.
Proof.
  intros [_ Hlt] Hr Hh o k. cbn [fst snd] in Hlt.
  assert (Hidx : (if rowIndex =? -1 then 0 else rowIndex + 1) = rowIndex + 1)
    by (destruct (Z.eqb_spec rowIndex (-1)); lia).
  assert (Habove : (if rowIndex + 1 =? -1 then 0 else rowIndex + 1) = rowIndex + 1)
    by (destruct (Z.eqb_spec (rowIndex + 1) (-1)); lia).
  subst o. unfold insertRowBelow, insertRowAbove. rewrite Hidx, Habove.
  cbn [next store finished]. split; [|split; [|reflexivity]].
  - unfold liveGrid. cbn [fst snd]. cbn [saveToHistory setHistoryIndex setHistory
      setRowHeights setGridData gridData].
    rewrite spliceIn_inside by lia. fold k. unfold cellsOf.
    rewrite map_app. cbn [map].
    pose proof (cellsOf_app σ [replicate (length columns) emptyCell] (take k (gridData c))
                  (Forall_take _ _ _ Hlt)) as Htake.
    pose proof (cellsOf_app σ [replicate (length columns) emptyCell] (drop k (gridData c))
                  (Forall_drop _ _ _ Hlt)) as Hdrop.
    unfold cellsOf in Htake, Hdrop. rewrite Htake, Hdrop.
    rewrite <- !fmap_take, <- !fmap_drop. f_equal. f_equal.
    unfold rowAt. now rewrite lookup_app_r, Nat.sub_diag by lia.
  - cbn. now rewrite spliceIn_inside by lia.
Qed.

Lemma insert_row_below_places_blank_row_witness :
  let o := insertRowBelow sheetColumns 0 sheetMounted.1 sheetMounted.2 in
  let k := Z.to_nat (0 + 1) in
  liveGrid (next o, store o)
    = take k (liveGrid (sheetMounted.1, sheetMounted.2))
        ++ replicate (length sheetColumns) emptyCell
        :: drop k (liveGrid (sheetMounted.1, sheetMounted.2))
  /\ rowHeights (next o)
     = take k (rowHeights sheetMounted.1) ++ 40 :: drop k (rowHeights sheetMounted.1)
  /\ o = insertRowAbove sheetColumns (0 + 1) sheetMounted.1 sheetMounted.2.
Proof.
  apply (insert_row_below_places_blank_row sheetColumns 0 sheetMounted.1 sheetMounted.2);
    [apply (wellFormed_step (H := inertHost) sheetColumns Mounted), wellFormed_mount
    | vm_compute; split; [discriminate | reflexivity] | reflexivity].
Defined.

(** ** Inserting a column *)

(** A column inserted at a position puts a column with an empty name into
    the page, a width of 150 into the widths and an empty cell into every
    row, all at that position: taking the position out again gives the
    headers, the widths and the rows as they were.  Inserting to the right
    of a column is inserting to the left of the next. *)
Theorem insert_column_keeps_headers_over_cells `{Platform} (data : Page.TableData)
    (now colIndex : Z) (c : GridState) (σ : Store) :
  let n := length (Page.columns data) in
  0 <= colIndex <= Z.of_nat n ->
  Forall (fun cells => length cells = n) (liveGrid (c, σ)) ->
  length (columnWidths c) = n ->
  let r := insertColumnLeft (Page.columns data) now colIndex c σ in
  let data' := applyParentCall r.2 data in
  let k := Z.to_nat colIndex in
  insertColumnRight (Page.columns data) now (colIndex - 1) c σ = r
  /\ name <$> Page.columns data' !! k = Some []
  /\ delete k (Page.columns data') = Page.columns data
  /\ columnWidths (next r.1) !! k = Some 150
  /\ delete k (columnWidths (next r.1)) = columnWidths c
  /\ Forall2 (fun cells cells' => cells' !! k = Some emptyCell /\ delete k cells' = cells)
       (liveGrid (c, σ)) (liveGrid (next r.1, store r.1)).
Proof.
  intros n Hk Hrect Hw r data' k.
  split.
  { unfold insertColumnRight, insertColumnLeft in *. subst r. f_equal. lia. }
  subst r data'. unfold insertColumnLeft, insertColumnAt.
  cbn [fst snd next store applyParentCall Page.handleInsertColumn Page.columns allocRows].
  destruct (spliceIn_lookup colIndex
              {| name := [];
                 key := js "col_" ++ toLowerCase (fromCharCode (65 + colIndex))
                        ++ js "_" ++ intToString now |}
              (Page.columns data) Hk) as [Hc1 Hc2].
  fold k in Hc1, Hc2. rewrite Hc1, Hc2.
  destruct (spliceIn_lookup colIndex 150 (columnWidths c)) as [Hw1 Hw2]; [lia|].
  fold k in Hw1, Hw2.
  cbn [saveToHistory setHistoryIndex setHistory setColumnWidths setGridData columnWidths].
  rewrite Hw1, Hw2. do 4 (split; [reflexivity|]).
  pose proof (cellsOf_alloc σ (map (spliceIn colIndex emptyCell) (cellsOf σ (gridData c))))
    as Ha.
  unfold allocRows in Ha. cbn [fst snd] in Ha.
  unfold liveGrid.
  cbn [fst snd gridData saveToHistory setHistoryIndex setHistory setColumnWidths
       setGridData].
  rewrite Ha. apply Forall2_fmap_r, Forall_Forall2_diag.
  eapply Forall_impl; [exact Hrect|]. cbn. intros cells Hlen.
  destruct (spliceIn_lookup colIndex emptyCell cells) as [H1 H2]; [lia|]. now split.
Qed.

Lemma insert_column_keeps_headers_over_cells_witness :
  let data := {| Page.columns := sheetColumns; Page.items := sheetItems |} in
  let r := insertColumnLeft (H := inertHost) sheetColumns 1700000000000 1
             sheetMounted.1 sheetMounted.2 in
  let data' := applyParentCall r.2 data in
  let k := Z.to_nat 1 in
  insertColumnRight (H := inertHost) sheetColumns 1700000000000 (1 - 1)
    sheetMounted.1 sheetMounted.2 = r
  /\ name <$> Page.columns data' !! k = Some []
  /\ delete k (Page.columns data') = sheetColumns
  /\ columnWidths (next r.1) !! k = Some 150
  /\ delete k (columnWidths (next r.1)) = columnWidths sheetMounted.1
  /\ Forall2 (fun cells cells' => cells' !! k = Some emptyCell /\ delete k cells' = cells)
       (liveGrid (sheetMounted.1, sheetMounted.2)) (liveGrid (next r.1, store r.1)).
Proof.
  apply (insert_column_keeps_headers_over_cells (H := inertHost)
           {| Page.columns := sheetColumns; Page.items := sheetItems |}
           1700000000000 1 sheetMounted.1 sheetMounted.2);
    [cbn; lia | repeat constructor | reflexivity].
Defined.

Example insert_column_on_sheet :
  let r := insertColumnLeft (H := inertHost) sheetColumns 1700000000000 1
             sheetMounted.1 sheetMounted.2 in
  r.2 = onInsertColumn 1 {| name := []; key := js "col_b_1700000000000" |}
  /\ liveGrid (next r.1, store r.1)
     = [ [sheetCell "B"; emptyCell; amountCell 20];
         [sheetCell "A"; emptyCell; amountCell 10];
         [sheetCell "C"; emptyCell; amountCell 30] ]
  /\ columnWidths (next r.1) = [150; 150; 150].
Proof. repeat split; reflexivity. Qed.

(** ** Keys of selected cells *)

Lemma elem_of_zrange (lo hi x : Z) : x ∈ zrange lo hi <-> lo <= x <= hi.
Proof.
  unfold zrange. change (map ?f) with (fmap (M := list) f). rewrite list_elem_of_fmap.
  split.
  - intros (i & -> & Hi%elem_of_seq). lia.
  - intros Hx. exists (Z.to_nat (x - lo)). split; [lia|]. apply elem_of_seq. lia.
Qed.

Lemma intToString_digits (n : Z) :
  exists ds, ds <> [] /\ forallb isDigit ds = true /\ parseInt ds = Z.abs n
             /\ intToString n = if n <? 0 then 45 :: ds else ds.
Proof.
  unfold intToString. destruct (Z.ltb_spec n 0).
  - destruct (digitsOf_spec (- n) [] ltac:(lia)) as (ds & -> & Hne & Hall & Hval).
    exists ds. rewrite app_nil_r. repeat split; (done || lia).
  - destruct (digitsOf_spec n [] ltac:(lia)) as (ds & -> & Hne & Hall & Hval).
    exists ds. rewrite app_nil_r. repeat split; (done || lia).
Qed.

Lemma intToString_inj (a b : Z) : intToString a = intToString b -> a = b.
Proof.
  destruct (intToString_digits a) as (da & Hna & Hda & Hva & ->).
  destruct (intToString_digits b) as (db & Hnb & Hdb & Hvb & ->).
  destruct (Z.ltb_spec a 0), (Z.ltb_spec b 0); intros Heq.
  - injection Heq as ->. lia.
  - subst db. cbn in Hdb. discriminate.
  - subst da. cbn in Hda. discriminate.
  - subst db. lia.
Qed.

Lemma intToString_no_comma (n : Z) : Forall (fun c => c <> 44) (intToString n).
Proof.
  destruct (intToString_digits n) as (ds & _ & Hds & _ & ->).
  assert (Forall (fun c => c <> 44) ds) as Hno.
  { apply Forall_forall. intros c Hc Heq. subst c.
    rewrite forallb_forall in Hds. apply list_elem_of_In in Hc.
    apply Hds in Hc. discriminate. }
  destruct (n <? 0); [apply Forall_cons; split; [lia|done] | done].
Qed.

Lemma app_comma_inj (a a' b b' : jsstring) :
  Forall (fun c => c <> 44) a -> Forall (fun c => c <> 44) a' ->
  a ++ 44 :: b = a' ++ 44 :: b' -> a = a' /\ b = b'.
Proof.
  intros Ha. revert a'. induction Ha as [|x a Hx _ IH]; intros a' Ha' Heq.
  - destruct Ha' as [|y a' Hy _]; cbn in Heq; [now injection Heq|].
    injection Heq as <- _. done.
  - destruct Ha' as [|y a' Hy Ha']; cbn in Heq.
    + injection Heq as -> _. done.
    + injection Heq as -> Heq. destruct (IH a' Ha' Heq) as [-> ->]. done.
Qed.

(** The key of a cell determines the cell. *)
Lemma cellKey_inj (r c r' c' : Z) : cellKey r c = cellKey r' c' -> r = r' /\ c = c'.
Proof.
  unfold cellKey. intros Heq.
  apply app_comma_inj in Heq as [Hr Hc]; try apply intToString_no_comma.
  split; now apply intToString_inj.
Qed.

Lemma elem_of_rectangleKeys (r c startRow endRow startCol endCol : Z) :
  cellKey r c ∈ rectangleKeys startRow endRow startCol endCol
  <-> startRow <= r <= endRow /\ startCol <= c <= endCol.
Proof.
  unfold rectangleKeys. rewrite elem_of_list_to_set, list_elem_of_In, in_flat_map.
  split.
  - intros (r' & Hr' & Hin). apply in_map_iff in Hin as (c' & Heq & Hc').
    symmetry in Heq. apply cellKey_inj in Heq as [-> ->].
    apply list_elem_of_In, elem_of_zrange in Hr'.
    apply list_elem_of_In, elem_of_zrange in Hc'. done.
  - intros [Hr Hc]. exists r. split.
    + now apply list_elem_of_In, elem_of_zrange.
    + apply in_map_iff. exists c. split; [done|].
      now apply list_elem_of_In, elem_of_zrange.
Qed.

(** ** Selecting by dragging *)

(** A drag that begins on one cell, without modifier keys, and enters
    another marks exactly the cells of the rectangle between the two, during
    the drag and after the button is released; these are the cells that a
    click on the first followed by a shift-click on the second selects.  The
    release ends the drag, leaves no selected range and keeps the first cell
    as the primary cell. *)
Theorem drag_selects_rectangle (r0 c0 r1 c1 : Z) (e : MouseEvent) (s : DragSelection)
    (row col : Z) :
  shiftKey e || ctrlKey e || metaKey e = false ->
  let dragging := handleCellMouseEnter r1 c1 (handleCellMouseDown r0 c0 e s) in
  let released := handleMouseUp None None dragging in
  let inside :=
    Z.min r0 r1 <= row <= Z.max r0 r1 /\ Z.min c0 c1 <= col <= Z.max c0 c1 in
  (isInRange row col (selection dragging) = true <-> inside)
  /\ (isInRange row col (selection released) = true <-> inside)
  /\ selectedCells (selection released) = selectedCells (selection dragging)
  /\ selectedCells (selection released)
     = selectedCells (handleCellClick r1 c1 {| ctrlKey := false; metaKey := false;
                                              shiftKey := true |}
                        (handleCellClick r0 c0 e (selection s)))
  /\ selectedRange (selection released) = None
  /\ selectedCell (selection released) = Some {| row := r0; col := c0 |}
  /\ isDragging released = false.
Proof.
  intros Hmod dragging released inside.
  subst dragging released. unfold handleCellMouseDown. rewrite Hmod.
  unfold handleCellMouseEnter, handleMouseUp.
  cbn [isDragging dragStart selection selectedRange selectedCells selectedCell].
  assert (Hkeys : cellKey row col
                    ∈ rectangleKeys (Z.min r0 r1) (Z.max r0 r1) (Z.min c0 c1) (Z.max c0 c1)
                  <-> inside) by apply elem_of_rectangleKeys.
  split; [|split; [|split; [reflexivity|split; [|done]]]].
  - unfold isInRange. cbn [selectedCells selectedRange].
    case_bool_decide as Hin; [tauto|]. split; [|tauto].
    intros Hr. subst inside. cbn beta. lia.
  - unfold isInRange. cbn [selectedCells selectedRange].
    case_bool_decide as Hin; [tauto|]. split; [done|tauto].
  - unfold handleCellClick.
    assert (ctrlKey e || metaKey e = false) as ->
      by (destruct (shiftKey e), (ctrlKey e), (metaKey e); done).
    assert (shiftKey e = false) as -> by (destruct (shiftKey e); done).
    reflexivity.
Qed.

Lemma drag_selects_rectangle_witness :
  let e := {| ctrlKey := false; metaKey := false; shiftKey := false |} in
  let dragging := handleCellMouseEnter 0 1 (handleCellMouseDown 2 0 e noDrag) in
  let released := handleMouseUp None None dragging in
  let inside := Z.min 2 0 <= 1 <= Z.max 2 0 /\ Z.min 0 1 <= 1 <= Z.max 0 1 in
  (isInRange 1 1 (selection dragging) = true <-> inside)
  /\ (isInRange 1 1 (selection released) = true <-> inside)
  /\ selectedCells (selection released) = selectedCells (selection dragging)
  /\ selectedCells (selection released)
     = selectedCells (handleCellClick 0 1 {| ctrlKey := false; metaKey := false;
                                            shiftKey := true |}
                        (handleCellClick 2 0 e (selection noDrag)))
  /\ selectedRange (selection released) = None
  /\ selectedCell (selection released) = Some {| row := 2; col := 0 |}
  /\ isDragging released = false.
Proof.
  apply (drag_selects_rectangle 2 0 0 1
           {| ctrlKey := false; metaKey := false; shiftKey := false |} noDrag 1 1).
  reflexivity.
Defined.

(** ** Selecting a whole row or column *)

(** A click on a row header selects the cells of that row in every column,
    a click on a column header the cells of that column in the header row
    and every data row, and these are the cells marked on screen; during a
    column resize, and right after one, the click on the column header does
    nothing.  (Without any column the range of a row header click still
    spans columns -1 and 0, hence the first hypothesis.) *)
Theorem header_clicks_select_whole_lines (columnCount rowCount line : Z)
    (s : SelectionState) (r c : Z) :
  1 <= columnCount -> 0 <= rowCount ->
  (cellKey r c ∈ selectedCells (handleRowHeaderClick columnCount line s)
   <-> r = line /\ 0 <= c < columnCount)
  /\ (cellKey r c ∈ selectedCells (handleColumnHeaderClick None false rowCount line s)
      <-> -1 <= r < rowCount /\ c = line)
  /\ (isInRange r c (handleRowHeaderClick columnCount line s) = true
      <-> r = line /\ 0 <= c < columnCount)
  /\ (isInRange r c (handleColumnHeaderClick None false rowCount line s) = true
      <-> -1 <= r < rowCount /\ c = line)
  /\ forall resizing justFinished,
       resizing <> None \/ justFinished = true ->
       handleColumnHeaderClick resizing justFinished rowCount line s = s.
Proof.
  intros Hcolumns Hrows.
  assert (Hrow : cellKey r c ∈ selectedCells (handleRowHeaderClick columnCount line s)
                 <-> r = line /\ 0 <= c < columnCount).
  { cbn. rewrite elem_of_list_to_set.
    change (map ?f) with (fmap (M := list) f). rewrite list_elem_of_fmap. split.
    - intros (c' & Heq & Hc'%elem_of_zrange). apply cellKey_inj in Heq as [-> ->]. lia.
    - intros [-> Hc]. exists c. split; [done|]. apply elem_of_zrange. lia. }
  assert (Hcol : cellKey r c
                   ∈ selectedCells (handleColumnHeaderClick None false rowCount line s)
                 <-> -1 <= r < rowCount /\ c = line).
  { cbn. rewrite elem_of_list_to_set.
    change (map ?f) with (fmap (M := list) f). rewrite list_elem_of_fmap. split.
    - intros (r' & Heq & Hr'%elem_of_zrange). apply cellKey_inj in Heq as [-> ->]. lia.
    - intros [Hr ->]. exists r. split; [done|]. apply elem_of_zrange. lia. }
  split; [exact Hrow|]. split; [exact Hcol|]. split; [|split].
  - unfold isInRange. case_bool_decide as Hin; [tauto|].
    cbn [selectedRange handleRowHeaderClick]. split; [|tauto]. intros Hr.
    exfalso. apply Hin, Hrow. lia.
  - unfold isInRange. case_bool_decide as Hin; [tauto|].
    cbn. split; [|tauto]. intros Hr. exfalso. apply Hin, Hcol. lia.
  - intros resizing justFinished Hbusy. unfold handleColumnHeaderClick.
    destruct Hbusy as [Hres| ->].
    + now rewrite bool_decide_eq_true_2.
    + now rewrite orb_true_r.
Qed.

Lemma header_clicks_select_whole_lines_witness :
  (cellKey 1 1 ∈ selectedCells (handleRowHeaderClick 2 1 noSelection)
   <-> 1 = 1 /\ 0 <= 1 < 2)
  /\ (cellKey 1 1 ∈ selectedCells (handleColumnHeaderClick None false 3 1 noSelection)
      <-> -1 <= 1 < 3 /\ 1 = 1)
  /\ (isInRange 1 1 (handleRowHeaderClick 2 1 noSelection) = true
      <-> 1 = 1 /\ 0 <= 1 < 2)
  /\ (isInRange 1 1 (handleColumnHeaderClick None false 3 1 noSelection) = true
      <-> -1 <= 1 < 3 /\ 1 = 1)
  /\ forall resizing justFinished,
       resizing <> None \/ justFinished = true ->
       handleColumnHeaderClick resizing justFinished 3 1 noSelection = noSelection.
Proof.
  apply (header_clicks_select_whole_lines 2 3 1 noSelection 1 1); lia.
Defined.

(** ** Keyboard navigation *)

Lemma firstBreak_cases (candidates : list Z) (body : Z -> option Z) (otherwise : Z) :
  firstBreak candidates body otherwise = otherwise
  \/ exists x, x ∈ candidates /\ body x = Some (firstBreak candidates body otherwise).
Proof.
  unfold firstBreak. induction candidates as [|x l IH]; cbn; [now left|].
  destruct (body x) as [y|] eqn:Hx; cbn.
  - right. exists x. split; [apply list_elem_of_here|done].
  - destruct IH as [IH|(z & Hz & IH)]; [now left|].
    right. exists z. split; [now apply list_elem_of_further|done].
Qed.

Lemma elem_of_zrangeDown (hi lo x : Z) : x ∈ zrangeDown hi lo <-> lo <= x <= hi.
Proof.
  unfold zrangeDown. rewrite list_elem_of_In, <- in_rev, <- list_elem_of_In.
  apply elem_of_zrange.
Qed.

Lemma selectionWithin_single (rowCount columnCount r k : Z) (s : SelectionState) :
  -1 <= r < rowCount -> 0 <= k < columnCount ->
  selectionWithin rowCount columnCount (singleSelection r k s).
Proof. intros Hr Hk. now exists r, k. Qed.

Lemma jumpToDataBoundary_within (direction : Direction.t) (columnCount : Z)
    (grid : list (list CellData)) (s : SelectionState) :
  1 <= Z.of_nat (length grid) ->
  selectionWithin (Z.of_nat (length grid)) columnCount s ->
  selectionWithin (Z.of_nat (length grid)) columnCount
    (jumpToDataBoundary direction columnCount grid s).
Proof.
  intros Hrows (r & k & Hsel & Hr & Hk). unfold jumpToDataBoundary. rewrite Hsel.
  apply selectionWithin_single.
  - destruct direction; try lia.
    + destruct (Z.eqb_spec r (-1)); [lia|].
      match goal with |- context [firstBreak ?l ?f ?o] =>
        destruct (firstBreak_cases l f o) as [->|(x & Hx%elem_of_zrangeDown & Hbody)];
        [lia|] end.
      destruct ((x =? -1) || isBlankAt grid x k).
      * injection Hbody as Hbody. destruct (Z.eqb_spec x (-1)); lia.
      * destruct (x =? 0); [injection Hbody as Hbody; lia|done].
    + destruct (Z.eqb_spec r (-1)); [lia|].
      match goal with |- context [firstBreak ?l ?f ?o] =>
        destruct (firstBreak_cases l f o) as [->|(x & Hx%elem_of_zrange & Hbody)];
        [lia|] end.
      destruct (isBlankAt grid x k).
      * injection Hbody as Hbody. lia.
      * destruct (x =? _); [injection Hbody as Hbody; lia|done].
  - destruct direction; try lia.
    + match goal with |- context [firstBreak ?l ?f ?o] =>
        destruct (firstBreak_cases l f o) as [->|(x & Hx%elem_of_zrangeDown & Hbody)];
        [lia|] end.
      destruct ((r =? -1) || isBlankAt grid r x).
      * injection Hbody as Hbody. lia.
      * destruct (x =? 0); [injection Hbody as Hbody; lia|done].
    + match goal with |- context [firstBreak ?l ?f ?o] =>
        destruct (firstBreak_cases l f o) as [->|(x & Hx%elem_of_zrange & Hbody)];
        [lia|] end.
      destruct ((r =? -1) || isBlankAt grid r x).
      * injection Hbody as Hbody. lia.
      * destruct (x =? _); [injection Hbody as Hbody; lia|done].
Qed.

Ltac split_keys :=
  repeat match goal with
  | |- context [if keyIs ?e ?name then _ else _] => destruct (keyIs e name)
  | |- context [if keyIs ?e ?a || keyIs ?e ?b then _ else _] =>
      destruct (keyIs e a || keyIs e b)
  end.

(** On a sheet with at least one data row, a key press leaves the primary
    cell within the rows and columns the sheet had when the key was
    pressed. *)
Lemma handleKeyDown_within `{Platform} (columns : list Column)
    (e : KeyboardEvent.t) (s : SelectionState) (c : GridState) (σ : Store) :
  let rowCount := Z.of_nat (length (gridData c)) in
  let columnCount := Z.of_nat (length columns) in
  1 <= rowCount ->
  selectionWithin rowCount columnCount s ->
  selectionWithin rowCount columnCount (keySelection (handleKeyDown columns e s c σ)).
Proof.
  intros rowCount columnCount Hrows Hs.
  pose proof Hs as (r & k & Hsel & Hr & Hk).
  assert (Hjump : forall direction,
            selectionWithin rowCount columnCount
              (jumpToDataBoundary direction columnCount (cellsOf σ (gridData c)) s)).
  { intros direction. subst rowCount.
    replace (length (gridData c)) with (length (cellsOf σ (gridData c)))
      in * by apply length_map.
    now apply jumpToDataBoundary_within. }
  unfold handleKeyDown. rewrite Hsel. fold rowCount columnCount.
  destruct (KeyboardEvent.fromInput e); [exact Hs|].
  destruct (KeyboardEvent.ctrlKey e || KeyboardEvent.metaKey e).
  { split_keys; cbn [keySelection]; try exact Hs; try apply Hjump;
      try (apply selectionWithin_single; lia).
    - destruct (r =? -1); [exact Hs|]. now destruct (cellAt _ r k).
    - destruct (r =? -1); [exact Hs|]. now destruct (cellAt _ r k). }
  assert (Hedit : forall editing, selectionWithin rowCount columnCount (setEditingCell editing s))
    by (intros; now exists r, k).
  destruct (editingCell s) as [editing|].
  { split_keys; cbn [keySelection]; try exact Hs; try apply Hedit.
    - destruct (Z.ltb_spec r (rowCount - 1)); cbn [keySelection];
        [apply selectionWithin_single; lia | apply Hedit].
    - destruct (KeyboardEvent.shiftKey e).
      + destruct (Z.ltb_spec 0 k); cbn [keySelection];
          [apply selectionWithin_single; lia | apply Hedit].
      + destruct (Z.ltb_spec k (columnCount - 1)); cbn [keySelection];
          [apply selectionWithin_single; lia | apply Hedit]. }
  split_keys;
    try (repeat match goal with
         | |- context [if ?a <? ?b then _ else _] => destruct (Z.ltb_spec a b)
         | |- context [if ?a =? ?b then _ else _] => destruct (Z.eqb_spec a b)
         | |- context [if KeyboardEvent.shiftKey ?e then _ else _] =>
             destruct (KeyboardEvent.shiftKey e)
         end;
         cbn [keySelection];
         first [exact Hs | apply Hedit | apply selectionWithin_single; lia
               | now exists r, k]).
  destruct (KeyboardEvent.key e) as [|unit [|]]; try exact Hs.
  destruct (KeyboardEvent.altKey e); [exact Hs|].
  destruct (_ && _); [exact Hs|].
  destruct (r =? -1); cbn [keySelection]; [apply Hedit|].
  destruct (writeCell _ _ _ _ _); cbn [keySelection]; apply Hedit.
Qed.

(** Apart from undo and redo, no key replaces the array of rows. *)
Lemma handleKeyDown_same_rows `{Platform} (columns : list Column)
    (e : KeyboardEvent.t) (s : SelectionState) (c : GridState) (σ : Store) :
  (KeyboardEvent.ctrlKey e || KeyboardEvent.metaKey e) && (keyIs e "z" || keyIs e "y")
  = false ->
  gridData (next (keyOutcome (handleKeyDown columns e s c σ))) = gridData c.
Proof.
  intros Hkey. unfold handleKeyDown.
  destruct (selectedCell s) as [[r k]|]; [|reflexivity].
  destruct (KeyboardEvent.fromInput e); [reflexivity|].
  destruct (KeyboardEvent.ctrlKey e || KeyboardEvent.metaKey e).
  { cbn [andb] in Hkey. apply orb_false_elim in Hkey as [-> ->].
    split_keys; try reflexivity.
    - destruct (r =? -1); [reflexivity|]. destruct (cellAt _ r k); [|reflexivity].
      unfold formatCell. now destruct (writeCell _ _ _ _ _).
    - destruct (r =? -1); [reflexivity|]. destruct (cellAt _ r k); [|reflexivity].
      unfold formatCell. now destruct (writeCell _ _ _ _ _). }
  clear Hkey.
  destruct (editingCell s) as [editing|].
  { split_keys;
      repeat match goal with
             | |- context [if ?b then _ else _] => destruct b
             end; reflexivity. }
  split_keys;
    try (repeat match goal with
                | |- context [if ?a <? ?b then _ else _] => destruct (a <? b)
                | |- context [if ?a =? ?b then _ else _] => destruct (a =? b)
                | |- context [if KeyboardEvent.shiftKey ?e then _ else _] =>
                    destruct (KeyboardEvent.shiftKey e)
                end; reflexivity);
    try (destruct (r =? -1); [reflexivity|]; unfold clearCell;
         now destruct (writeCell _ _ _ _ _)).
  destruct (KeyboardEvent.key e) as [|unit [|]]; try reflexivity.
  destruct (KeyboardEvent.altKey e); [reflexivity|].
  destruct (_ && _); [reflexivity|].
  destruct (r =? -1); [reflexivity|].
  now destruct (writeCell _ _ _ _ _).
Qed.

(** Undo and redo leave the selection as it is. *)
Lemma handleKeyDown_history_shortcut `{Platform} (columns : list Column)
    (e : KeyboardEvent.t) (s : SelectionState) (c : GridState) (σ : Store) :
  (KeyboardEvent.ctrlKey e || KeyboardEvent.metaKey e) && (keyIs e "z" || keyIs e "y")
  = true ->
  keySelection (handleKeyDown columns e s c σ) = s.
Proof.
  intros [Hmod Hkey]%andb_prop. unfold handleKeyDown.
  destruct (selectedCell s) as [[r k]|]; [|reflexivity].
  destruct (KeyboardEvent.fromInput e); [reflexivity|]. rewrite Hmod.
  destruct (keyIs e "z"); [reflexivity|]. cbn in Hkey. now rewrite Hkey.
Qed.

(** On a sheet with at least one data row, a key other than the shortcuts
    of undo and redo (Ctrl or Cmd with z or y) keeps the rows of the grid
    and never takes the primary cell outside the sheet: if it is a cell of
    the sheet before, in the header row or a data row, it is one after,
    whatever the key, the other modifiers and the editing state.  The
    shortcuts of undo and redo leave the selection as it is, while they
    replace the grid. *)
Theorem keyboard_selection_stays_within `{Platform} (columns : list Column)
    (e : KeyboardEvent.t) (s : SelectionState) (c : GridState) (σ : Store) :
  let columnCount := Z.of_nat (length columns) in
  let historyShortcut :=
    (KeyboardEvent.ctrlKey e || KeyboardEvent.metaKey e)
    && (keyIs e "z" || keyIs e "y") in
  let pressed := handleKeyDown columns e s c σ in
  let rowsAfter := gridData (next (keyOutcome pressed)) in
  1 <= Z.of_nat (length (gridData c)) ->
  selectionWithin (Z.of_nat (length (gridData c))) columnCount s ->
  (historyShortcut = false ->
     rowsAfter = gridData c
     /\ selectionWithin (Z.of_nat (length rowsAfter)) columnCount (keySelection pressed))
  /\ (historyShortcut = true -> keySelection pressed = s).
Proof.
  intros columnCount historyShortcut pressed rowsAfter Hrows Hs. split.
  - intros Hkey. subst rowsAfter pressed.
    rewrite (handleKeyDown_same_rows columns e s c σ Hkey). split; [reflexivity|].
    now apply handleKeyDown_within.
  - apply handleKeyDown_history_shortcut.
Qed.

Lemma keyboard_selection_stays_within_witness :
  let pressed :=
    handleKeyDown (H := inertHost) sheetColumns (plainKey "ArrowDown")
      (selectionAt 0 0) sheetMounted.1 sheetMounted.2 in
  gridData (next (keyOutcome pressed)) = gridData sheetMounted.1
  /\ selectionWithin (Z.of_nat (length (gridData (next (keyOutcome pressed))))) 2
       (keySelection pressed).
Proof.
  apply (keyboard_selection_stays_within (H := inertHost) sheetColumns
           (plainKey "ArrowDown") (selectionAt 0 0) sheetMounted.1 sheetMounted.2).
  - vm_compute. discriminate.
  - exists 0, 0. split; [reflexivity|]. vm_compute. repeat split; discriminate.
  - reflexivity.
Defined.

(** After an undo the selection can lie outside the sheet: with a row
    inserted at the top and the last of the four rows selected, Ctrl+z
    brings back the three rows and leaves the primary cell in row 3. *)
Example undo_leaves_the_selection_behind :
  let st := run (H := inertHost) sheetColumns [InsertRowAbove 0] sheetMounted in
  let pressed :=
    handleKeyDown (H := inertHost) sheetColumns (controlKey "z") (selectionAt 3 0)
      st.1 st.2 in
  length (gridData st.1) = 4%nat
  /\ length (gridData (next (keyOutcome pressed))) = 3%nat
  /\ selectedCell (keySelection pressed) = Some {| row := 3; col := 0 |}.
Proof. repeat split; reflexivity. Qed.

(** On a sheet without data rows the arrow leaves the header row for a row
    that does not exist. *)
Example arrow_down_without_rows :
  selectedCell
    (keySelection
       (handleKeyDown (H := inertHost) sheetColumns (plainKey "ArrowDown")
          (selectionAt (-1) 0) (mount sheetColumns []).1 (mount sheetColumns []).2))
  = Some {| row := 0; col := 0 |}.
Proof. reflexivity. Qed.

(** Which key an event names, decided by evaluation. *)
Ltac decide_keys :=
  unfold keyIs, plainKey, shiftedKey, controlKey;
  cbn [KeyboardEvent.key KeyboardEvent.ctrlKey KeyboardEvent.metaKey
       KeyboardEvent.shiftKey KeyboardEvent.altKey KeyboardEvent.fromInput orb];
  repeat match goal with
  | |- context [bool_decide (js ?a = js ?b)] =>
      let v := eval vm_compute in (bool_decide (js a = js b)) in
      change (bool_decide (js a = js b)) with v
  end;
  cbn match.

Lemma handleKeyDown_Tab `{Platform} (columns : list Column) (s : SelectionState)
    (c : GridState) (σ : Store) (r k : Z) :
  selectedCell s = Some {| row := r; col := k |} -> editingCell s = None ->
  handleKeyDown columns (plainKey "Tab") s c σ
  = {| keySelection :=
         if k <? Z.of_nat (length columns) - 1 then singleSelection r (k + 1) s
         else if r <? Z.of_nat (length (gridData c)) - 1 then singleSelection (r + 1) 0 s
         else s;
       keyOutcome := finished c σ |}.
Proof.
  intros Hsel Hedit. unfold handleKeyDown. rewrite Hsel, Hedit. decide_keys.
  destruct (_ <? _); [done|]. now destruct (_ <? _).
Qed.

Lemma handleKeyDown_ShiftTab `{Platform} (columns : list Column) (s : SelectionState)
    (c : GridState) (σ : Store) (r k : Z) :
  selectedCell s = Some {| row := r; col := k |} -> editingCell s = None ->
  handleKeyDown columns (shiftedKey "Tab") s c σ
  = {| keySelection :=
         if 0 <? k then singleSelection r (k - 1) s
         else if -1 <? r then singleSelection (r - 1) (Z.of_nat (length columns) - 1) s
         else s;
       keyOutcome := finished c σ |}.
Proof.
  intros Hsel Hedit. unfold handleKeyDown. rewrite Hsel, Hedit. decide_keys.
  destruct (_ <? _); [done|]. now destruct (_ <? _).
Qed.

(** Outside editing, Tab and Shift+Tab undo each other: from any cell but
    the last one Tab moves and Shift+Tab returns, from any cell but the
    first header cell Shift+Tab moves and Tab returns, wrapping at the ends
    of the rows; neither touches the grid. *)
Theorem tab_and_shift_tab_are_inverse `{Platform} (columns : list Column)
    (s : SelectionState) (c : GridState) (σ : Store) (r k : Z) :
  let rowCount := Z.of_nat (length (gridData c)) in
  let columnCount := Z.of_nat (length columns) in
  let forth := fun s => keySelection (handleKeyDown columns (plainKey "Tab") s c σ) in
  let back := fun s => keySelection (handleKeyDown columns (shiftedKey "Tab") s c σ) in
  selectedCell s = Some {| row := r; col := k |} -> editingCell s = None ->
  -1 <= r < rowCount -> 0 <= k < columnCount ->
  ((r, k) <> (rowCount - 1, columnCount - 1) ->
     selectedCell (forth s) <> selectedCell s
     /\ selectedCell (back (forth s)) = selectedCell s)
  /\ ((r, k) <> (-1, 0) ->
        selectedCell (back s) <> selectedCell s
        /\ selectedCell (forth (back s)) = selectedCell s)
  /\ keyOutcome (handleKeyDown columns (plainKey "Tab") s c σ) = finished c σ
  /\ keyOutcome (handleKeyDown columns (shiftedKey "Tab") s c σ) = finished c σ.
Proof.
  intros rowCount columnCount forth back Hsel Hedit Hr Hk.
  subst forth back. cbn beta.
  rewrite (handleKeyDown_Tab columns s c σ r k Hsel Hedit).
  rewrite (handleKeyDown_ShiftTab columns s c σ r k Hsel Hedit).
  fold rowCount columnCount. cbn [keySelection keyOutcome].
  split; [|split; [|split; reflexivity]].
  - intros Hlast.
    destruct (Z.ltb_spec k (columnCount - 1)).
    + rewrite (handleKeyDown_ShiftTab columns _ c σ r (k + 1)) by done.
      fold columnCount. cbn [keySelection].
      destruct (Z.ltb_spec 0 (k + 1)); [|lia]. cbn. rewrite Hsel.
      split; [intros [=]; lia | repeat f_equal; lia].
    + destruct (Z.ltb_spec r (rowCount - 1)).
      * rewrite (handleKeyDown_ShiftTab columns _ c σ (r + 1) 0) by done.
        fold columnCount. cbn [keySelection].
        destruct (Z.ltb_spec (-1) (r + 1)); [|lia]. cbn. rewrite Hsel.
        split; [intros [=]; lia | repeat f_equal; lia].
      * exfalso. apply Hlast. f_equal; lia.
  - intros Hfirst.
    destruct (Z.ltb_spec 0 k).
    + rewrite (handleKeyDown_Tab columns _ c σ r (k - 1)) by done.
      fold columnCount. cbn [keySelection].
      destruct (Z.ltb_spec (k - 1) (columnCount - 1)); [|lia]. cbn. rewrite Hsel.
      split; [intros [=]; lia | repeat f_equal; lia].
    + destruct (Z.ltb_spec (-1) r).
      * rewrite (handleKeyDown_Tab columns _ c σ (r - 1) (columnCount - 1)) by done.
        fold columnCount rowCount. cbn [keySelection].
        destruct (Z.ltb_spec (columnCount - 1) (columnCount - 1)); [lia|].
        destruct (Z.ltb_spec (r - 1) (rowCount - 1)); [|lia]. cbn. rewrite Hsel.
        split; [intros [=]; lia | repeat f_equal; lia].
      * exfalso. apply Hfirst. f_equal; lia.
Qed.

Lemma tab_and_shift_tab_are_inverse_witness :
  let s := selectionAt 0 1 in
  let forth := fun s => keySelection (handleKeyDown (H := inertHost) sheetColumns
                                        (plainKey "Tab") s sheetMounted.1 sheetMounted.2) in
  let back := fun s => keySelection (handleKeyDown (H := inertHost) sheetColumns
                                       (shiftedKey "Tab") s sheetMounted.1 sheetMounted.2) in
  ((0, 1) <> (3 - 1, 2 - 1) ->
     selectedCell (forth s) <> selectedCell s
     /\ selectedCell (back (forth s)) = selectedCell s)
  /\ ((0, 1) <> (-1, 0) ->
        selectedCell (back s) <> selectedCell s
        /\ selectedCell (forth (back s)) = selectedCell s)
  /\ keyOutcome (handleKeyDown (H := inertHost) sheetColumns (plainKey "Tab") s
                   sheetMounted.1 sheetMounted.2)
     = finished sheetMounted.1 sheetMounted.2
  /\ keyOutcome (handleKeyDown (H := inertHost) sheetColumns (shiftedKey "Tab") s
                   sheetMounted.1 sheetMounted.2)
     = finished sheetMounted.1 sheetMounted.2.
Proof.
  apply (tab_and_shift_tab_are_inverse (H := inertHost) sheetColumns (selectionAt 0 1)
           sheetMounted.1 sheetMounted.2 0 1);
    [reflexivity | reflexivity | vm_compute; split; [discriminate | reflexivity]
     | vm_compute; split; [discriminate | reflexivity]].
Defined.

(** ** Typing over a selected cell *)

Lemma cellAt_cellsOf (σ : Store) (rows : list loc) (r k : Z) (cell : CellData) :
  cellAt (cellsOf σ rows) r k = Some cell
  <-> exists l, at_ rows r = Some l /\ at_ (rowAt σ l) k = Some cell.
Proof.
  unfold cellAt, cellsOf. rewrite at_map.
  destruct (at_ rows r) as [l|]; cbn; [|split; [done|now intros (? & ? & _)]].
  split; [now exists l|]. now intros (l' & [= <-] & ?).
Qed.

Ltac single_unit_key Hkey :=
  unfold keyIs; rewrite Hkey;
  repeat match goal with
  | |- context [bool_decide ([?u] = js ?b)] =>
      rewrite (bool_decide_eq_false_2 ([u] = js b)) by (vm_compute; discriminate)
  end;
  cbn [orb].

(** Typing a minus sign or a decimal point over a selected cell of a
    numeric column starts the edit and stores the character itself, a
    string, without recording anything; the column is then no longer
    numeric, so whatever the input holds next is stored as text. *)
Theorem typing_a_sign_makes_the_column_textual `{Platform} (columns : list Column)
    (e : KeyboardEvent.t) (s : SelectionState) (c : GridState) (σ : Store)
    (r k unit : Z) (cell : CellData) :
  NoDup (gridData c) ->
  selectedCell s = Some {| row := r; col := k |} -> editingCell s = None ->
  cellAt (liveGrid (c, σ)) r k = Some cell ->
  isNumericColumn (gridData c) σ k = true ->
  KeyboardEvent.key e = [unit] -> unit = 45 \/ unit = 46 ->
  KeyboardEvent.ctrlKey e = false -> KeyboardEvent.metaKey e = false ->
  KeyboardEvent.altKey e = false -> KeyboardEvent.fromInput e = false ->
  let res := handleKeyDown columns e s c σ in
  let c' := next (keyOutcome res) in
  let σ' := store (keyOutcome res) in
  threw (keyOutcome res) = false
  /\ editingCell (keySelection res) = Some {| row := r; col := k |}
  /\ history c' = history c
  /\ cellAt (liveGrid (c', σ')) r k
     = Some {| value := VStr [unit]; format := format cell; formula := None |}
  /\ isNumericColumn (gridData c') σ' k = false
  /\ forall text, startsWith (js "=") text = false ->
       exists o,
         handleInputChange columns text r k c' σ' = Some o
         /\ cellAt (liveGrid (next o, store o)) r k
            = Some {| value := VStr text; format := format cell; formula := None |}.
Proof.
  intros Hdup Hsel Hedit Hcell Hnum Hkey Hunit Hctrl Hmeta Halt Hinput res c' σ'.
  unfold liveGrid in Hcell. cbn [fst snd] in Hcell.
  pose proof Hcell as (l & Hrow & Hcol)%cellAt_cellsOf.
  pose proof Hrow as [Hr0 _]%at_Some. pose proof Hcol as [Hk0 _]%at_Some.
  unfold isNumericColumn in Hnum. destruct (Z.eqb_spec k 0) as [|Hk1]; [done|].
  set (typedCell := fun cell : CellData =>
         {| value := VStr [unit]; format := format cell; formula := None |}).
  destruct (writeCell_frame (gridData c) σ r k typedCell cell Hdup Hcell)
    as (σ1 & Hw & Hlen & Hnew & Hframe).
  assert (Hres : res = {| keySelection := setEditingCell (Some {| row := r; col := k |}) s;
                          keyOutcome := finished (setGridData (gridData c) c) σ1 |}).
  { subst res. unfold handleKeyDown. rewrite Hsel, Hinput, Hctrl, Hmeta, Hedit. cbn [orb].
    single_unit_key Hkey. rewrite Halt, Hnum.
    destruct (Z.ltb_spec 0 k); [|lia]. destruct (Z.eqb_spec r (-1)); [lia|].
    assert (isDigit unit || (unit =? 46) || (unit =? 45) = true) as ->
      by (destruct Hunit; subst; reflexivity).
    cbn [negb andb].
    assert ((match numberOfInput [unit] with
             | NaN => VStr [unit]
             | numValue => VNum numValue
             end) = VStr [unit]) as -> by (destruct Hunit; subst; reflexivity).
    fold typedCell. now rewrite Hw. }
  subst c' σ'. rewrite Hres. cbn [keyOutcome keySelection finished next store threw
    setEditingCell editingCell setGridData history gridData].
  do 3 (split; [reflexivity|]). unfold liveGrid. cbn [fst snd].
  split; [exact Hnew|].
  pose proof Hnew as (l1 & Hrow1 & Hcol1)%cellAt_cellsOf.
  assert (l1 = l) by congruence. subst l1.
  assert (Htext : isNumericColumn (gridData c) σ1 k = false).
  { unfold isNumericColumn. destruct (Z.eqb_spec k 0); [done|].
    apply not_true_is_false. intros Hall. rewrite forallb_forall in Hall.
    specialize (Hall l). rewrite Hcol1 in Hall. cbn in Hall.
    assert (In l (gridData c)) as Hin.
    { apply list_elem_of_In. apply at_Some in Hrow as [_ Hrow].
      eapply list_elem_of_lookup_2, Hrow. }
    apply Hall in Hin. rewrite bool_decide_eq_false_2 in Hin; [done|].
    destruct Hunit; subst; discriminate. }
  split; [exact Htext|].
  intros text Hformula.
  set (textCell := {| value := VStr text; format := format cell; formula := None |}).
  destruct (writeCell_frame (gridData c) σ1 r k (fun _ => textCell) _ Hdup Hnew)
    as (σ2 & Hw2 & _ & Hnew2 & _).
  unfold writeCell in Hw2. rewrite Hrow, Hcol1 in Hw2. injection Hw2 as Hw2.
  unfold handleInputChange. destruct (Z.eqb_spec r (-1)); [lia|].
  cbn [gridData setGridData]. rewrite Htext. cbn [andb]. rewrite Hrow, Hcol1, Hformula. cbn [typedCell format].
  eexists. split; [reflexivity|]. cbn [next store finished setGridData gridData fst snd].
  fold textCell. rewrite Hw2. exact Hnew2.
Qed.

Lemma typing_a_sign_makes_the_column_textual_witness :
  let res := handleKeyDown (H := inertHost) sheetColumns (plainKey "-") (selectionAt 1 1)
               sheetMounted.1 sheetMounted.2 in
  let c' := next (keyOutcome res) in
  let σ' := store (keyOutcome res) in
  threw (keyOutcome res) = false
  /\ editingCell (keySelection res) = Some {| row := 1; col := 1 |}
  /\ history c' = history sheetMounted.1
  /\ cellAt (liveGrid (c', σ')) 1 1
     = Some {| value := VStr [45]; format := format (amountCell 10); formula := None |}
  /\ isNumericColumn (gridData c') σ' 1 = false
  /\ forall text, startsWith (js "=") text = false ->
       exists o,
         handleInputChange (H := inertHost) sheetColumns text 1 1 c' σ' = Some o
         /\ cellAt (liveGrid (next o, store o)) 1 1
            = Some {| value := VStr text; format := format (amountCell 10);
                      formula := None |}.
Proof.
  apply (typing_a_sign_makes_the_column_textual (H := inertHost) sheetColumns
           (plainKey "-") (selectionAt 1 1) sheetMounted.1 sheetMounted.2 1 1 45
           (amountCell 10));
    try reflexivity.
  - apply (NoDup_seq 0 3).
  - now left.
Defined.

(** Typed into the input of a numeric cell, the same sign is stored as the
    number NaN and the column stays numeric. *)
Example sign_typed_into_the_input :
  let st := run (H := inertHost) sheetColumns [InputChange (js "-") 1 1] sheetMounted in
  cellAt (liveGrid st) 1 1
  = Some {| value := VNum NaN; format := Some emptyFormat; formula := None |}
  /\ isNumericColumn (gridData st.1) st.2 1 = true.
Proof. split; reflexivity. Qed.

(** ** Jumping to the boundary of the data *)

Lemma firstBreak_first (candidates : list Z) (body : Z -> option Z) (otherwise : Z) :
  (Forall (fun z => body z = None) candidates
   /\ firstBreak candidates body otherwise = otherwise)
  \/ exists before x after,
       candidates = before ++ x :: after
       /\ Forall (fun z => body z = None) before
       /\ body x = Some (firstBreak candidates body otherwise).
Proof.
  unfold firstBreak. induction candidates as [|x l IH]; cbn; [now left|].
  destruct (body x) as [y|] eqn:Hx; cbn.
  - right. now exists [], x, l.
  - destruct IH as [[Hall ->]|(before & z & after & -> & Hbefore & Hz)].
    + left. split; [now apply Forall_cons|done].
    + right. exists (x :: before), z, after. split; [done|].
      split; [now apply Forall_cons|done].
Qed.

Lemma length_zrange (lo hi : Z) : length (zrange lo hi) = Z.to_nat (hi - lo + 1).
Proof. unfold zrange. now rewrite length_map, length_seq. Qed.

Lemma lookup_zrange (lo hi : Z) (i : nat) (v : Z) :
  zrange lo hi !! i = Some v -> v = lo + Z.of_nat i.
Proof.
  unfold zrange. change (map ?f) with (fmap (M := list) f).
  rewrite list_lookup_fmap. destruct (seq _ _ !! i) as [j|] eqn:Hj; [|done].
  apply lookup_seq in Hj as [-> _]. cbn. now intros [= <-].
Qed.

Lemma zrange_middle (lo hi x : Z) :
  lo <= x <= hi -> zrange lo hi = zrange lo (x - 1) ++ x :: zrange (x + 1) hi.
Proof.
  intros Hx. unfold zrange.
  replace (Z.to_nat (hi - lo + 1))
    with (Z.to_nat (x - 1 - lo + 1) + S (Z.to_nat (hi - (x + 1) + 1)))%nat by lia.
  rewrite seq_app, map_app. f_equal. cbn [seq map]. f_equal; [lia|].
  replace (S (0 + Z.to_nat (x - 1 - lo + 1)))
    with (S (Z.to_nat (x - 1 - lo + 1)) + 0)%nat by lia.
  rewrite <- (fmap_add_seq (S _) 0).
  change (fmap (M := list) ?f) with (map f). rewrite map_map.
  apply map_ext. intros i. lia.
Qed.

Lemma zrange_split (lo hi x : Z) (before after : list Z) :
  zrange lo hi = before ++ x :: after ->
  lo <= x <= hi /\ before = zrange lo (x - 1) /\ after = zrange (x + 1) hi.
Proof.
  intros Heq.
  assert (Hin : x ∈ zrange lo hi).
  { rewrite Heq. apply elem_of_app. right. apply list_elem_of_here. }
  apply elem_of_zrange in Hin.
  assert (Hx : x = lo + Z.of_nat (length before)).
  { apply (lookup_zrange lo hi). rewrite Heq. now apply list_lookup_middle. }
  split; [done|]. rewrite (zrange_middle lo hi x Hin) in Heq.
  apply app_inj_1 in Heq as [Hb Ha].
  - split; [done|]. congruence.
  - rewrite length_zrange. lia.
Qed.

Lemma zrangeDown_split (hi lo x : Z) (before after : list Z) :
  zrangeDown hi lo = before ++ x :: after ->
  lo <= x <= hi /\ forall r, x < r <= hi -> r ∈ before.
Proof.
  unfold zrangeDown. intros Heq.
  assert (Hrev : zrange lo hi = rev after ++ x :: rev before).
  { rewrite <- (rev_involutive (zrange lo hi)), Heq, rev_app_distr. cbn.
    now rewrite <- app_assoc. }
  apply zrange_split in Hrev as (Hx & _ & Hbefore). split; [done|].
  intros r Hr. apply list_elem_of_In, in_rev, list_elem_of_In.
  rewrite Hbefore. apply elem_of_zrange. lia.
Qed.

(** From a data cell, Ctrl+Down goes to the end of the unbroken run of
    filled cells below it: no blank cell is passed, and the cell after the
    landing row is blank or does not exist.  Ctrl+Up goes up to just below
    the nearest blank cell above, and to the header row when there is none:
    it never lands on the first data row. *)
Theorem jump_runs_over_filled_cells (columnCount : Z) (grid : list (list CellData))
    (s : SelectionState) (r k : Z) :
  let rowCount := Z.of_nat (length grid) in
  selectedCell s = Some {| row := r; col := k |} ->
  0 <= r < rowCount ->
  exists below above,
    selectedCell (jumpToDataBoundary Direction.down columnCount grid s)
      = Some {| row := below; col := k |}
    /\ selectedCell (jumpToDataBoundary Direction.up columnCount grid s)
       = Some {| row := above; col := k |}
    /\ r <= below < rowCount
    /\ (forall i, r < i <= below -> isBlankAt grid i k = false)
    /\ (below = rowCount - 1 \/ isBlankAt grid (below + 1) k = true)
    /\ -1 <= above <= r /\ above <> 0
    /\ (forall i, 0 <= i -> above <= i < r -> isBlankAt grid i k = false)
    /\ (above = -1 \/ isBlankAt grid (above - 1) k = true).
Proof.
  intros rowCount Hsel Hr. unfold jumpToDataBoundary. rewrite Hsel. fold rowCount.
  destruct (Z.eqb_spec r (-1)); [lia|]. cbn [singleSelection selectedCell].
  eexists _, _. split; [reflexivity|]. split; [reflexivity|].
  assert (Hdown :
    let below := firstBreak (zrange (r + 1) (rowCount - 1))
                   (fun i => if isBlankAt grid i k then Some (i - 1)
                             else if i =? rowCount - 1 then Some i else None) r in
    r <= below < rowCount
    /\ (forall i, r < i <= below -> isBlankAt grid i k = false)
    /\ (below = rowCount - 1 \/ isBlankAt grid (below + 1) k = true)).
  { intros below. subst below.
    match goal with |- context [firstBreak ?l ?f ?o] =>
      destruct (firstBreak_first l f o)
        as [[Hall ->]|(before & x & after & Hsplit & Hbefore & Hbody)] end.
    - split; [lia|]. split; [intros; lia|].
      destruct (Z.eq_dec r (rowCount - 1)) as [|Hne]; [now left|]. exfalso.
      rewrite Forall_forall in Hall. specialize (Hall (rowCount - 1)).
      rewrite Z.eqb_refl in Hall.
      assert (rowCount - 1 ∈ zrange (r + 1) (rowCount - 1)) as Hin
        by (apply elem_of_zrange; lia).
      apply Hall in Hin. now destruct (isBlankAt grid (rowCount - 1) k).
    - apply zrange_split in Hsplit as (Hx & -> & _).
      assert (Hfilled : forall i, r < i < x -> isBlankAt grid i k = false).
      { intros i Hi. rewrite Forall_forall in Hbefore. specialize (Hbefore i).
        destruct (isBlankAt grid i k); [|done].
        discriminate Hbefore. apply elem_of_zrange. lia. }
      destruct (isBlankAt grid x k) eqn:Hblank.
      + injection Hbody as <-. split; [lia|]. split.
        * intros i Hi. apply Hfilled. lia.
        * right. now replace (x - 1 + 1) with x by lia.
      + destruct (Z.eqb_spec x (rowCount - 1)); [|done]. injection Hbody as <-.
        split; [lia|]. split; [|now left].
        intros i Hi. destruct (Z.eq_dec i x) as [->|]; [done|]. apply Hfilled. lia. }
  assert (Hup :
    let above := firstBreak (zrangeDown (r - 1) (-1))
                   (fun i => if (i =? -1) || isBlankAt grid i k
                             then Some (if i =? -1 then -1 else i + 1)
                             else if i =? 0 then Some (-1) else None) r in
    -1 <= above <= r /\ above <> 0
    /\ (forall i, 0 <= i -> above <= i < r -> isBlankAt grid i k = false)
    /\ (above = -1 \/ isBlankAt grid (above - 1) k = true)).
  { intros above. subst above.
    match goal with |- context [firstBreak ?l ?f ?o] =>
      destruct (firstBreak_first l f o)
        as [[Hall ->]|(before & x & after & Hsplit & Hbefore & Hbody)] end.
    - exfalso. rewrite Forall_forall in Hall. specialize (Hall (-1)).
      cbn in Hall. discriminate Hall. apply elem_of_zrangeDown. lia.
    - apply zrangeDown_split in Hsplit as (Hx & Hafter).
      assert (Hfilled : forall i, x < i < r -> isBlankAt grid i k = false /\ i <> 0).
      { intros i Hi. rewrite Forall_forall in Hbefore. specialize (Hbefore i).
        assert (i ∈ before) as Hin by (apply Hafter; lia). apply Hbefore in Hin.
        destruct (Z.eqb_spec i (-1)); [lia|]. cbn [orb] in Hin.
        destruct (isBlankAt grid i k); [done|].
        destruct (Z.eqb_spec i 0); done. }
      destruct (Z.eqb_spec x (-1)) as [->|Hx1].
      + cbn [orb] in Hbody. injection Hbody as <-.
        split; [lia|]. split; [lia|]. split; [|now left].
        intros i Hi0 Hi. apply Hfilled. lia.
      + cbn [orb] in Hbody. destruct (isBlankAt grid x k) eqn:Hblank.
        * injection Hbody as <-. split; [lia|]. split; [lia|]. split.
          -- intros i Hi0 Hi. apply Hfilled. lia.
          -- right. now replace (x + 1 - 1) with x by lia.
        * destruct (Z.eqb_spec x 0) as [->|]; [|done]. injection Hbody as <-.
          split; [lia|]. split; [lia|]. split; [|now left].
          intros i Hi0 Hi. destruct (Z.eq_dec i 0) as [->|]; [done|].
          apply Hfilled. lia. }
  cbn zeta in Hdown, Hup. tauto.
Qed.

Lemma jump_runs_over_filled_cells_witness :
  exists below above,
    selectedCell (jumpToDataBoundary Direction.down 2 (liveGrid sheetMounted)
                    (selectionAt 1 1))
      = Some {| row := below; col := 1 |}
    /\ selectedCell (jumpToDataBoundary Direction.up 2 (liveGrid sheetMounted)
                       (selectionAt 1 1))
       = Some {| row := above; col := 1 |}
    /\ 1 <= below < 3
    /\ (forall i, 1 < i <= below -> isBlankAt (liveGrid sheetMounted) i 1 = false)
    /\ (below = 3 - 1 \/ isBlankAt (liveGrid sheetMounted) (below + 1) 1 = true)
    /\ -1 <= above <= 1 /\ above <> 0
    /\ (forall i, 0 <= i -> above <= i < 1 ->
          isBlankAt (liveGrid sheetMounted) i 1 = false)
    /\ (above = -1 \/ isBlankAt (liveGrid sheetMounted) (above - 1) 1 = true).
Proof.
  apply (jump_runs_over_filled_cells 2 (liveGrid sheetMounted) (selectionAt 1 1) 1 1);
    [reflexivity | vm_compute; split; [discriminate | reflexivity]].
Defined.

(** From the middle row of the sheet, whose cells are all filled, Ctrl+Down
    goes to the last row and Ctrl+Up to the header row, not to the first
    data row. *)
Example jump_on_sheet :
  selectedCell (jumpToDataBoundary Direction.down 2 (liveGrid sheetMounted)
                  (selectionAt 1 1))
  = Some {| row := 2; col := 1 |}
  /\ selectedCell (jumpToDataBoundary Direction.up 2 (liveGrid sheetMounted)
                     (selectionAt 1 1))
     = Some {| row := -1; col := 1 |}
  /\ selectedCell (jumpToDataBoundary Direction.right 2 (liveGrid sheetMounted)
                     (selectionAt 1 0))
     = Some {| row := 1; col := 1 |}.
Proof. repeat split; reflexivity. Qed.

(** ** The filter *)

Lemma startsWith_prefix (p rest : jsstring) : startsWith p (p ++ rest) = true.
Proof. induction p as [|a p IH]; [done|]. cbn. now rewrite Z.eqb_refl. Qed.

(** A string includes another one exactly when the other occurs in it. *)
Lemma includesString_spec (needle s : jsstring) :
  includesString needle s = true <-> exists before after, s = before ++ needle ++ after.
Proof.
  induction s as [|c s IH]; cbn.
  - rewrite orb_false_r. split.
    + intros [rest Hrest]%startsWith_app. now exists [], rest.
    + intros (before & after & Heq). symmetry in Heq.
      apply app_eq_nil in Heq as [-> [-> _]%app_eq_nil]. done.
  - rewrite orb_true_iff, IH. split.
    + intros [[rest Hrest]%startsWith_app|(before & after & ->)].
      * now exists [], rest.
      * now exists (c :: before), after.
    + intros ([|c' before] & after & Heq).
      * left. cbn in Heq. rewrite Heq. apply startsWith_prefix.
      * right. injection Heq as -> ->. now exists before, after.
Qed.

Lemma includesString_trans (a b s : jsstring) :
  includesString a b = true -> includesString b s = true -> includesString a s = true.
Proof.
  rewrite !includesString_spec. intros (b1 & b2 & ->) (s1 & s2 & ->).
  exists (s1 ++ b1), (b2 ++ s2). now rewrite <- !app_assoc.
Qed.

Lemma filter_narrow {A} (p q : A -> bool) (l : list A) :
  (forall x, q x = true -> p x = true) ->
  List.filter q (List.filter p l) = List.filter q l.
Proof.
  intros Himp. induction l as [|x l IH]; cbn; [done|].
  destruct (p x) eqn:Hp; cbn.
  - now rewrite IH.
  - destruct (q x) eqn:Hq; [|done]. apply Himp in Hq. congruence.
Qed.

Lemma filter_sublist {A} (p : A -> bool) (l : list A) : sublist (List.filter p l) l.
Proof.
  induction l as [|x l IH]; cbn; [constructor|].
  destruct (p x); [now apply sublist_skip | now apply sublist_cons].
Qed.

Lemma existsb_weaken {A} (p q : A -> bool) (l : list A) :
  (forall x, q x = true -> p x = true) -> existsb q l = true -> existsb p l = true.
Proof.
  intros Himp. rewrite !existsb_exists. intros (x & Hin & Hq). eauto.
Qed.

(** A filter text that contains another one, both in lower case and
    trimmed, shows a part of what the other shows: its rows are the rows of
    the other filtered again, in the order of the grid, and if it shows the
    header row so does the other. *)
Theorem longer_filter_text_narrows `{Platform} (columns : list Column)
    (gridData : list (list CellData)) (text1 text2 : jsstring) :
  text1 <> [] -> text2 <> [] ->
  includesString (trim (toLowerCase text1)) (trim (toLowerCase text2)) = true ->
  let shown1 := filterRows columns gridData text1 in
  let shown2 := filterRows columns gridData text2 in
  filteredData shown2
    = List.filter (rowMatches (trim (toLowerCase text2))) (filteredData shown1)
  /\ sublist (filteredData shown2) (filteredData shown1)
  /\ sublist (filteredData shown1) gridData
  /\ (shouldShowHeaderRow shown2 = true -> shouldShowHeaderRow shown1 = true).
Proof.
  intros Hne1 Hne2 Hinc shown1 shown2. subst shown1 shown2. unfold filterRows.
  destruct text1 as [|c1 t1]; [done|]. destruct text2 as [|c2 t2]; [done|].
  set (f1 := trim (toLowerCase (c1 :: t1))) in *.
  set (f2 := trim (toLowerCase (c2 :: t2))) in *.
  cbn [filteredData shouldShowHeaderRow].
  assert (Hrows : forall cells, rowMatches f2 cells = true -> rowMatches f1 cells = true).
  { intros cells. unfold rowMatches. apply existsb_weaken. intros cell.
    now apply includesString_trans. }
  assert (Heq : List.filter (rowMatches f2) gridData
                = List.filter (rowMatches f2) (List.filter (rowMatches f1) gridData))
    by (symmetry; now apply filter_narrow).
  split; [exact Heq|]. split; [rewrite Heq; apply filter_sublist|].
  split; [apply filter_sublist|].
  rewrite !orb_true_iff. intros [Hhead|Hrow].
  - left. revert Hhead. apply existsb_weaken. intros column.
    now apply includesString_trans.
  - right. rewrite Heq in Hrow.
    destruct (List.filter (rowMatches f1) gridData); [done|]. reflexivity.
Qed.

Lemma longer_filter_text_narrows_witness :
  let shown1 := filterRows (H := inertHost) sheetColumns (liveGrid sheetMounted) (js "0") in
  let shown2 := filterRows (H := inertHost) sheetColumns (liveGrid sheetMounted) (js " 20 ") in
  filteredData shown2
    = List.filter (rowMatches (H := inertHost)
                     (trim (toLowerCase (Platform := inertHost) (js " 20 "))))
        (filteredData shown1)
  /\ sublist (filteredData shown2) (filteredData shown1)
  /\ sublist (filteredData shown1) (liveGrid sheetMounted)
  /\ (shouldShowHeaderRow shown2 = true -> shouldShowHeaderRow shown1 = true).
Proof.
  apply (longer_filter_text_narrows (H := inertHost) sheetColumns (liveGrid sheetMounted)
           (js "0") (js " 20 "));
    [discriminate | discriminate | reflexivity].
Defined.

(** The filter on the sheet: a text finds the rows that contain it, without
    regard to case or to blanks around it; a text of blanks alone finds
    every row. *)
Example filter_on_sheet :
  filteredData (filterRows (H := inertHost) sheetColumns (liveGrid sheetMounted) (js " c "))
  = [ [sheetCell "C"; amountCell 30] ]
  /\ filteredData (filterRows (H := inertHost) sheetColumns (liveGrid sheetMounted) (js "0"))
     = liveGrid sheetMounted
  /\ filterRows (H := inertHost) sheetColumns (liveGrid sheetMounted) (js "  ")
     = {| filteredData := liveGrid sheetMounted; shouldShowHeaderRow := true |}
  /\ filterRows (H := inertHost) sheetColumns (liveGrid sheetMounted) (js "x")
     = {| filteredData := []; shouldShowHeaderRow := false |}
  /\ filterRows (H := inertHost) sheetColumns (liveGrid sheetMounted) (js "prod")
     = {| filteredData := []; shouldShowHeaderRow := true |}.
Proof. repeat split; reflexivity. Qed.

(** ** The rows on screen *)

Lemma lookup_slice {A} (first last : Z) (l : list A) (i : nat) (x : A) :
  0 <= first -> slice first last l !! i = Some x -> at_ l (first + Z.of_nat i) = Some x.
Proof.
  intros Hf. unfold slice. intros Hx.
  apply lookup_take_Some in Hx as [Hx _]. rewrite lookup_drop in Hx.
  pose proof (lookup_lt_Some _ _ _ Hx) as Hlt.
  unfold sliceIndex in *. destruct (Z.ltb_spec first 0); [lia|].
  apply at_Some. split; [lia|].
  replace (Z.to_nat (first + Z.of_nat i))
    with (Z.to_nat (Z.min first (Z.of_nat (length l))) + i)%nat by lia.
  exact Hx.
Qed.

(** Without filter text and without sort column, the row rendered at
    position [i] of the body is the row of the grid at the index its
    handlers are given, [startIndex + i]. *)
Theorem unfiltered_unsorted_rows_show_at_their_index `{Platform} (columns : list Column)
    (gridData : list (list CellData)) (scrollTop containerHeight : Q)
    (sortDirection : SortDirection) :
  exists start rows,
    displayedRows columns gridData [] scrollTop containerHeight None sortDirection
      = Some (start, rows)
    /\ 0 <= start
    /\ forall i cells, rows !! i = Some cells ->
         at_ gridData (actualRowIndex start i) = Some cells.
Proof.
  unfold displayedRows, filterRows, sortedData. cbn [filteredData mbind option_bind].
  eexists _, _. split; [reflexivity|].
  unfold virtualScroll. cbn [startIndex visibleRows]. split; [lia|].
  intros i cells Hi. unfold actualRowIndex. eapply lookup_slice; [lia|exact Hi].
Qed.

(** With a filter on, the first row on screen is the third of the grid, and
    the text typed into it goes to the first row of the grid. *)
Example filtered_rows_show_at_other_indices :
  displayedRows (H := inertHost) sheetColumns (liveGrid sheetMounted) (js "c")
    0 (600 # 1) None asc
  = Some (0, [ [sheetCell "C"; amountCell 30] ])
  /\ at_ (liveGrid sheetMounted) (actualRowIndex 0 0) = Some [sheetCell "B"; amountCell 20]
  /\ liveGrid (run (H := inertHost) sheetColumns
                 [InputChange (js "Chair") (actualRowIndex 0 0) 0] sheetMounted)
     = [ [sheetCell "Chair"; amountCell 20]; [sheetCell "A"; amountCell 10];
         [sheetCell "C"; amountCell 30] ].
Proof. repeat split; reflexivity. Qed.

(** So it is after an edit in a sorted column: the window is sorted again
    for the screen, the grid is not. *)
Example sorted_rows_show_at_other_indices :
  let st := run (H := inertHost) sheetColumns
              [SortClick 1; InputChange (js "99") 0 1] sheetMounted in
  liveGrid st
  = [ [sheetCell "A"; amountCell 99]; [sheetCell "B"; amountCell 20];
      [sheetCell "C"; amountCell 30] ]
  /\ displayedRows (H := inertHost) sheetColumns (liveGrid st) [] 0 (600 # 1)
       (sortColumn st.1) (sortDirection st.1)
     = Some (0, [ [sheetCell "B"; amountCell 20]; [sheetCell "C"; amountCell 30];
                  [sheetCell "A"; amountCell 99] ]).
Proof. split; reflexivity. Qed.

(** ** Resizing *)

(** While a column is resized, a move of the pointer sets the width of that
    column to the width it started with plus the distance moved, and at
    least 50; the other widths, the row heights, the grid and the history
    stay, and moving the pointer back to where the resize began restores a
    width that was at least 50. *)
Theorem resizing_changes_one_width_with_a_floor (i x0 x1 y w : Z) (c : GridState)
    (r : ResizeState) :
  at_ (columnWidths c) i = Some w -> resizingRow r = None ->
  exists r1 c1 c2,
    handleColumnResize i x0 c r = Some r1
    /\ handleMouseMove x1 y r1 c = Some c1
    /\ handleMouseMove x0 y r1 c1 = Some c2
    /\ at_ (columnWidths c1) i = Some (Z.max 50 (w + (x1 - x0)))
    /\ (forall j, j <> i -> at_ (columnWidths c1) j = at_ (columnWidths c) j)
    /\ rowHeights c1 = rowHeights c /\ gridData c1 = gridData c
    /\ history c1 = history c
    /\ (50 <= w -> columnWidths c2 = columnWidths c).
Proof.
  intros Hw Hrow. pose proof Hw as [Hi Hlook]%at_Some.
  pose proof (lookup_lt_Some _ _ _ Hlook) as Hlt.
  assert (Hat : forall x, at_ (<[Z.to_nat i := x]> (columnWidths c)) i = Some x).
  { intros x. apply at_Some. split; [done|]. now apply list_lookup_insert_eq. }
  set (newWidth := Z.max 50 (w + (x1 - x0))).
  exists {| resizingColumn := Some i; resizeStartX := x0; resizeStartWidth := w;
            resizingRow := resizingRow r; resizeStartY := resizeStartY r;
            resizeStartHeight := resizeStartHeight r;
            justFinishedResize := justFinishedResize r |},
         (setColumnWidths (<[Z.to_nat i := newWidth]> (columnWidths c)) c),
         (setColumnWidths
            (<[Z.to_nat i := Z.max 50 (w + (x0 - x0))]>
               (<[Z.to_nat i := newWidth]> (columnWidths c))) c).
  split; [unfold handleColumnResize; now rewrite Hw|].
  unfold handleMouseMove, assignAt.
  cbn [resizingColumn resizingRow resizeStartX resizeStartWidth]. rewrite Hrow, Hw.
  cbn [mbind option_bind columnWidths setColumnWidths]. rewrite Hat.
  cbn [mbind option_bind].
  split; [reflexivity|]. split; [reflexivity|]. split; [reflexivity|]. split.
  { intros j Hj. unfold at_. destruct (Z.ltb_spec j 0); [done|].
    apply list_lookup_insert_ne. lia. }
  do 3 (split; [reflexivity|]). intros Hmin.
  rewrite list_insert_insert_eq.
  replace (Z.max 50 (w + (x0 - x0))) with w by lia.
  now apply list_insert_id.
Qed.

Lemma resizing_changes_one_width_with_a_floor_witness :
  exists r1 c1 c2,
    handleColumnResize 1 400 sheetMounted.1 noResize = Some r1
    /\ handleMouseMove 200 0 r1 sheetMounted.1 = Some c1
    /\ handleMouseMove 400 0 r1 c1 = Some c2
    /\ at_ (columnWidths c1) 1 = Some (Z.max 50 (150 + (200 - 400)))
    /\ (forall j, j <> 1 -> at_ (columnWidths c1) j = at_ (columnWidths sheetMounted.1) j)
    /\ rowHeights c1 = rowHeights sheetMounted.1
    /\ gridData c1 = gridData sheetMounted.1
    /\ history c1 = history sheetMounted.1
    /\ (50 <= 150 -> columnWidths c2 = columnWidths sheetMounted.1).
Proof.
  apply (resizing_changes_one_width_with_a_floor 1 400 200 0 150 sheetMounted.1 noResize);
    reflexivity.
Defined.

(** ** Ranges of cell references *)

Lemma split_no_separator (sep : Z) (s : jsstring) :
  Forall (fun c => c <> sep) s -> split sep s = [s].
Proof.
  induction 1 as [|c s Hc _ IH]; cbn; [done|].
  destruct (Z.eqb_spec c sep); [done|]. now rewrite IH.
Qed.

Lemma split_at_separator (sep : Z) (a b : jsstring) :
  Forall (fun c => c <> sep) a -> split sep (a ++ sep :: b) = a :: split sep b.
Proof.
  induction 1 as [|c s Hc _ IH]; cbn.
  - now rewrite Z.eqb_refl.
  - destruct (Z.eqb_spec c sep); [done|]. now rewrite IH.
Qed.

Lemma includes_iff (c : Z) (s : jsstring) : includes c s = true <-> c ∈ s.
Proof.
  unfold includes. rewrite existsb_exists, list_elem_of_In. split.
  - intros (x & Hin & ->%Z.eqb_eq). done.
  - intros Hin. exists c. split; [done|apply Z.eqb_refl].
Qed.

Lemma takeWhile_dropWhile {A} (p : A -> bool) (l : list A) :
  takeWhile p l ++ dropWhile p l = l /\ forallb p (takeWhile p l) = true.
Proof.
  induction l as [|x l [IH1 IH2]]; cbn; [done|].
  destruct (p x) eqn:Hp; cbn; [|done]. rewrite IH1, Hp, IH2. done.
Qed.

(** What matches the pattern of a cell reference is capital letters
    followed by digits, at least one of each. *)
Lemma matchCellRef_Some (s letters digits : jsstring) :
  matchCellRef s = Some (letters, digits) ->
  s = letters ++ digits /\ letters <> [] /\ digits <> []
  /\ forallb isUpper letters = true /\ forallb isDigit digits = true.
Proof.
  unfold matchCellRef. destruct (takeWhile_dropWhile isUpper s) as [Heq Hup].
  destruct (takeWhile isUpper s) as [|l ls]; [done|].
  destruct (dropWhile isUpper s) as [|d ds]; [done|].
  destruct (forallb isDigit (d :: ds)) eqn:Hd; [|done].
  intros [= <- <-]. done.
Qed.

Lemma matchCellRef_no_colon (s letters digits : jsstring) :
  matchCellRef s = Some (letters, digits) -> Forall (fun c => c <> 58) s /\ s <> [].
Proof.
  intros (-> & Hl & Hd & Hup & Hdig)%matchCellRef_Some. split.
  - apply Forall_app. split; apply Forall_forall; intros c Hc%list_elem_of_In ->.
    + rewrite forallb_forall in Hup. now apply Hup in Hc.
    + rewrite forallb_forall in Hdig. now apply Hdig in Hc.
  - now destruct letters.
Qed.

(** The expansion of [start:end] for two references. *)
Lemma getCellsInRange_corners (columns : list Column) (grid : list (list CellData))
    (startCell endCell startLetters startDigits endLetters endDigits : jsstring) :
  matchCellRef startCell = Some (startLetters, startDigits) ->
  matchCellRef endCell = Some (endLetters, endDigits) ->
  getCellsInRange columns grid (startCell ++ js ":" ++ endCell)
  = flat_map (fun rowNum =>
      map (fun colIndex =>
             getCellValue columns grid (fromCharCode (65 + colIndex) ++ intToString rowNum))
        (zrange (Z.min (columnLetterToIndex startLetters) (columnLetterToIndex endLetters))
                (Z.max (columnLetterToIndex startLetters) (columnLetterToIndex endLetters))))
      (zrange (Z.min (parseInt startDigits) (parseInt endDigits))
              (Z.max (parseInt startDigits) (parseInt endDigits))).
Proof.
  intros Hstart Hend.
  destruct (matchCellRef_no_colon _ _ _ Hstart) as [Hs _].
  destruct (matchCellRef_no_colon _ _ _ Hend) as [He Hne].
  unfold getCellsInRange. change (js ":" ++ endCell) with (58 :: endCell).
  assert (includes 58 (startCell ++ 58 :: endCell) = true) as ->.
  { apply includes_iff, elem_of_app. right. apply list_elem_of_here. }
  cbn [negb]. rewrite split_at_separator, split_no_separator by done.
  destruct endCell as [|e endCell']; [done|]. now rewrite Hstart, Hend.
Qed.

(** The two corners of a range can be written in either order:
    [start:end] and [end:start] expand to the same values. *)
Theorem range_corners_can_be_swapped (columns : list Column)
    (grid : list (list CellData)) (a b : jsstring) :
  is_Some (matchCellRef a) -> is_Some (matchCellRef b) ->
  getCellsInRange columns grid (a ++ js ":" ++ b)
  = getCellsInRange columns grid (b ++ js ":" ++ a).
Proof.
  intros [[la da] Ha] [[lb db] Hb].
  rewrite (getCellsInRange_corners _ _ _ _ _ _ _ _ Ha Hb).
  rewrite (getCellsInRange_corners _ _ _ _ _ _ _ _ Hb Ha).
  now rewrite (Z.min_comm (columnLetterToIndex la)), (Z.max_comm (columnLetterToIndex la)),
    (Z.min_comm (parseInt da)), (Z.max_comm (parseInt da)).
Qed.

Lemma range_corners_can_be_swapped_witness :
  getCellsInRange sheetColumns (liveGrid sheetMounted) (js "B4" ++ js ":" ++ js "A2")
  = getCellsInRange sheetColumns (liveGrid sheetMounted) (js "A2" ++ js ":" ++ js "B4").
Proof.
  apply (range_corners_can_be_swapped sheetColumns (liveGrid sheetMounted)
           (js "B4") (js "A2"));
    eexists; reflexivity.
Defined.

Lemma getCellValue_no_letter (columns : list Column) (grid : list (list CellData))
    (c : Z) (rest : jsstring) :
  isUpper c = false -> getCellValue columns grid (c :: rest) = VNum (ofZ 0).
Proof. intros Hc. unfold getCellValue, matchCellRef. cbn. now rewrite Hc. Qed.

(** A range whose two corners both lie in the columns with index 26 (AA)
    to 65470 expands to the number 0 for every cell, whatever the cells
    hold, so its sum is 0 (0 and 0 adding to 0): the expansion spells the
    column of each cell with the single character of code [65 + index],
    which is no letter there.  (Beyond index 65470 the code wraps around
    at 65536 and reaches the letters again.) *)
Theorem range_beyond_column_Z_reads_zeros `{Platform} (columns : list Column)
    (grid : list (list CellData)) (a b la da lb db : jsstring) :
  matchCellRef a = Some (la, da) -> matchCellRef b = Some (lb, db) ->
  26 <= columnLetterToIndex la <= 65470 -> 26 <= columnLetterToIndex lb <= 65470 ->
  Forall (fun v => v = VNum (ofZ 0)) (getCellsInRange columns grid (a ++ js ":" ++ b))
  /\ (numberAdd (ofZ 0) (ofZ 0) = ofZ 0 ->
      evalSUM [getCellsInRange columns grid (a ++ js ":" ++ b)] = ofZ 0).
Proof.
  intros Ha Hb Hca Hcb.
  assert (Hzero : Forall (fun v => v = VNum (ofZ 0))
                    (getCellsInRange columns grid (a ++ js ":" ++ b))).
  { rewrite (getCellsInRange_corners _ _ _ _ _ _ _ _ Ha Hb).
    apply Forall_forall. intros v Hv%list_elem_of_In.
    apply in_flat_map in Hv as (rowNum & _ & Hv).
    apply in_map_iff in Hv as (colIndex & <- & Hc%list_elem_of_In%elem_of_zrange).
    unfold fromCharCode. cbn [app]. apply getCellValue_no_letter.
    rewrite Z.mod_small by lia. unfold isUpper. lia. }
  split; [exact Hzero|]. intros Hadd.
  unfold evalSUM. cbn [fold_left].
  induction Hzero as [|v values -> _ IH]; [exact Hadd|].
  cbn [fold_left] in *. rewrite Hadd. exact IH.
Qed.

Lemma range_beyond_column_Z_reads_zeros_witness :
  Forall (fun v => v = VNum (ofZ 0))
    (getCellsInRange sheetColumns (liveGrid sheetMounted) (js "AA2" ++ js ":" ++ js "AB4"))
  /\ evalSUM (H := inertHost)
       [getCellsInRange sheetColumns (liveGrid sheetMounted)
          (js "AA2" ++ js ":" ++ js "AB4")] = ofZ 0.
Proof.
  destruct (range_beyond_column_Z_reads_zeros (H := inertHost) sheetColumns
              (liveGrid sheetMounted)
              (js "AA2") (js "AB4") (js "AA") (js "2") (js "AB") (js "4"))
    as [Hzero Hsum];
    [reflexivity | reflexivity | vm_compute; split; discriminate
     | vm_compute; split; discriminate |].
  split; [exact Hzero | apply Hsum; reflexivity].
Defined.

(** Past index 65470 the character wraps around: column CRXR has index
    65537, the character of code 65602 is B, and a range over that column
    reads column B. *)
Example range_far_beyond_column_Z_reads_column_B :
  columnLetterToIndex (js "CRXR") = 65537
  /\ fromCharCode (65 + 65537) = js "B"
  /\ getCellsInRange sheetColumns (liveGrid sheetMounted) (js "CRXR2:CRXR4")
     = [VNum (ofZ 20); VNum (ofZ 10); VNum (ofZ 30)]
  /\ result (evaluateFormula (H := inertHost) sheetColumns (liveGrid sheetMounted)
               (js "sum(crxr2:crxr4)")) = VNum (ofZ 60).
Proof. repeat split; reflexivity. Qed.

(** A sheet with 27 columns: a cell in column AA is read by its reference,
    and as 0 through a range. *)
Example range_beyond_column_Z_on_a_wide_sheet :
  let wide := [replicate 26 emptyCell ++ [amountCell 5]] in
  getCellValue [] wide (js "AA2") = VNum (ofZ 5)
  /\ getCellsInRange [] wide (js "AA2:AA2") = [VNum (ofZ 0)]
  /\ getCellsInRange [] wide (js "Z2:AA2") = [VNum (ofZ 0); VNum (ofZ 0)].
Proof. repeat split; reflexivity. Qed.

(** ** The range of the selection *)

Lemma integerOfString_intToString (n : Z) : integerOfString (intToString n) = Some n.
Proof.
  destruct (intToString_digits n) as (ds & Hne & Hds & Hval & ->).
  unfold integerOfString. destruct (Z.ltb_spec n 0).
  - cbn. destruct ds as [|d ds]; [done|]. rewrite Hds, Hval. f_equal. lia.
  - destruct ds as [|d ds]; [done|].
    assert ((d =? 45) = false) as ->.
    { cbn in Hds. apply andb_prop in Hds as [Hd _]. unfold isDigit in Hd. lia. }
    rewrite Hds, Hval. f_equal. lia.
Qed.

Lemma parseKey_cellKey (r k : Z) : parseKey (cellKey r k) = Some {| row := r; col := k |}.
Proof.
  unfold parseKey, cellKey. change (js "," ++ ?s) with (44 :: s).
  rewrite split_at_separator, split_no_separator by apply intToString_no_comma.
  now rewrite !integerOfString_intToString.
Qed.

(** The keys of a list of cells are read back as those cells, in some
    order. *)
Lemma parsed_positions (cells : list CellPosition) :
  exists positions,
    mapM parseKey (elements (keysOf cells)) = Some positions
    /\ forall p, p ∈ positions <-> p ∈ cells.
Proof.
  assert (Hkeys : forall key, key ∈ elements (keysOf cells)
                              <-> exists p, p ∈ cells /\ key = cellKey (row p) (col p)).
  { intros key. unfold keysOf. rewrite elem_of_elements, elem_of_list_to_set.
    change (map ?f) with (fmap (M := list) f). rewrite list_elem_of_fmap.
    split; intros (p & ? & ?); now exists p. }
  destruct (mapM parseKey (elements (keysOf cells))) as [positions|] eqn:Hm.
  - exists positions. split; [done|]. apply mapM_Some in Hm. intros p. split.
    + intros Hp. apply list_elem_of_lookup in Hp as [i Hi].
      destruct (Forall2_lookup_r _ _ _ _ _ Hm Hi) as (key & Hkey & Hparse).
      apply list_elem_of_lookup_2, Hkeys in Hkey as ([r k] & Hq & ->). cbn in Hparse.
      rewrite parseKey_cellKey in Hparse. now injection Hparse as <-.
    + intros Hp. destruct p as [r k].
      assert (cellKey r k ∈ elements (keysOf cells)) as Hin
        by (apply Hkeys; now exists {| row := r; col := k |}).
      apply list_elem_of_lookup in Hin as [i Hi].
      destruct (Forall2_lookup_l _ _ _ _ _ Hm Hi) as (q & Hq & Hparse).
      rewrite parseKey_cellKey in Hparse. injection Hparse as <-.
      eapply list_elem_of_lookup_2, Hq.
  - exfalso. apply mapM_None in Hm. apply Exists_exists in Hm as (key & Hin & Hnone).
    apply Hkeys in Hin as ([r k] & _ & ->). cbn in Hnone.
    now rewrite parseKey_cellKey in Hnone.
Qed.

Lemma fold_min_spec (xs : list Z) (a : Z) :
  (fold_left Z.min xs a = a \/ fold_left Z.min xs a ∈ xs)
  /\ fold_left Z.min xs a <= a /\ Forall (fun x => fold_left Z.min xs a <= x) xs.
Proof.
  revert a. induction xs as [|x xs IH]; intros a; cbn; [split; [now left|split; [lia|done]]|].
  destruct (IH (Z.min a x)) as (Hin & Hle & Hall). split; [|split].
  - destruct Hin as [Heq|Hin]; [|right; now apply list_elem_of_further].
    destruct (Z.min_spec a x) as [[_ Hm]|[_ Hm]].
    + left. congruence.
    + right. rewrite Heq, Hm. apply list_elem_of_here.
  - lia.
  - apply Forall_cons. split; [lia|done].
Qed.

Lemma fold_max_spec (xs : list Z) (a : Z) :
  (fold_left Z.max xs a = a \/ fold_left Z.max xs a ∈ xs)
  /\ a <= fold_left Z.max xs a /\ Forall (fun x => x <= fold_left Z.max xs a) xs.
Proof.
  revert a. induction xs as [|x xs IH]; intros a; cbn; [split; [now left|split; [lia|done]]|].
  destruct (IH (Z.max a x)) as (Hin & Hle & Hall). split; [|split].
  - destruct Hin as [Heq|Hin]; [|right; now apply list_elem_of_further].
    destruct (Z.max_spec a x) as [[_ Hm]|[_ Hm]].
    + right. rewrite Heq, Hm. apply list_elem_of_here.
    + left. congruence.
  - lia.
  - apply Forall_cons. split; [lia|done].
Qed.

(** The least of some integers is one of them and not above any. *)
Lemma minimum_spec (xs : list Z) :
  xs <> [] -> minimum xs ∈ xs /\ forall x, x ∈ xs -> minimum xs <= x.
Proof.
  destruct xs as [|a xs]; [done|]. intros _. cbn.
  destruct (fold_min_spec xs a) as (Hin & Hle & Hall). split.
  - destruct Hin as [->|Hin]; [apply list_elem_of_here|now apply list_elem_of_further].
  - intros x [->|Hx]%elem_of_cons; [done|].
    rewrite Forall_forall in Hall. now apply Hall.
Qed.

Lemma maximum_spec (xs : list Z) :
  xs <> [] -> maximum xs ∈ xs /\ forall x, x ∈ xs -> x <= maximum xs.
Proof.
  destruct xs as [|a xs]; [done|]. intros _. cbn.
  destruct (fold_max_spec xs a) as (Hin & Hle & Hall). split.
  - destruct Hin as [->|Hin]; [apply list_elem_of_here|now apply list_elem_of_further].
  - intros x [->|Hx]%elem_of_cons; [done|].
    rewrite Forall_forall in Hall. now apply Hall.
Qed.

Lemma extrema_ext {A} (f : A -> Z) (l1 l2 : list A) :
  l1 <> [] -> (forall p, p ∈ l1 <-> p ∈ l2) ->
  minimum (map f l1) = minimum (map f l2) /\ maximum (map f l1) = maximum (map f l2).
Proof.
  intros Hne Hsame.
  assert (l2 <> []) as Hne2.
  { destruct l1 as [|p l1]; [done|]. intros ->.
    apply (not_elem_of_nil p), Hsame, list_elem_of_here. }
  assert (Hmap : forall x, x ∈ map f l1 <-> x ∈ map f l2).
  { intros x. change (map f) with (fmap (M := list) f). rewrite !list_elem_of_fmap.
    split; intros (p & -> & Hp); exists p; (split; [done|]); now apply Hsame. }
  assert (map f l1 <> []) as Hm1 by now destruct l1.
  assert (map f l2 <> []) as Hm2 by now destruct l2.
  destruct (minimum_spec _ Hm1) as [Hi1 Hl1], (minimum_spec _ Hm2) as [Hi2 Hl2].
  destruct (maximum_spec _ Hm1) as [Hj1 Hu1], (maximum_spec _ Hm2) as [Hj2 Hu2].
  split.
  - apply Hmap, Hl2 in Hi1. apply Hmap, Hl1 in Hi2. now apply Z.le_antisymm.
  - apply Hmap, Hu2 in Hj1. apply Hmap, Hu1 in Hj2. now apply Z.le_antisymm.
Qed.

Lemma zrange_single (x : Z) : zrange x x = [x].
Proof.
  unfold zrange. replace (x - x + 1) with 1 by lia.
  change (Z.to_nat 1) with 1%nat. cbn [seq map]. f_equal. lia.
Qed.

Lemma zrange_shift (lo hi d : Z) : zrange (lo + d) (hi + d) = map (fun r => r + d) (zrange lo hi).
Proof.
  unfold zrange. rewrite map_map. replace (hi + d - (lo + d) + 1) with (hi - lo + 1) by lia.
  apply map_ext. intros i. lia.
Qed.

(** The reference of a cell in one of the columns A to Z. *)
Lemma matchCellRef_getCellReference (r k : Z) :
  -1 <= r -> 0 <= k < 26 ->
  exists digits,
    getCellReference r k = (65 + k) :: digits
    /\ digits = intToString (r + 2)
    /\ matchCellRef (getCellReference r k) = Some ([65 + k], digits)
    /\ parseInt digits = r + 2
    /\ Forall (fun c => c <> 58) (getCellReference r k).
Proof.
  intros Hr Hk. unfold getCellReference, fromCharCode.
  rewrite Z.mod_small by lia.
  assert ((if r =? -1 then 1 else r + 2) = r + 2) as ->
    by (destruct (Z.eqb_spec r (-1)); lia).
  exists (intToString (r + 2)). split; [reflexivity|]. split; [reflexivity|].
  destruct (intToString_digits (r + 2)) as (ds & Hne & Hds & Hval & ->).
  destruct (Z.ltb_spec (r + 2) 0); [lia|].
  destruct (takeWhile_isUpper_digits ds Hds) as [Htake Hdrop].
  split; [|split; [lia|]].
  - unfold matchCellRef. cbn [app takeWhile dropWhile].
    assert (isUpper (65 + k) = true) as -> by (unfold isUpper; lia).
    rewrite Htake, Hdrop. destruct ds; [done|]. now rewrite Hds.
  - cbn [app]. apply Forall_cons. split; [lia|].
    apply Forall_forall. intros c Hc%list_elem_of_In ->.
    rewrite forallb_forall in Hds. now apply Hds in Hc.
Qed.

Lemma flat_map_ext_in {A B} (f g : A -> list B) (l : list A) :
  (forall a, In a l -> f a = g a) -> flat_map f l = flat_map g l.
Proof.
  induction l as [|a l IH]; intros Hfg; cbn; [done|].
  rewrite Hfg by now left. f_equal. apply IH. intros b Hb. apply Hfg. now right.
Qed.

(** For selected cells in the columns A to Z, the range of the selection
    names the smallest rectangle around them, and expands to the values of
    all the cells of that rectangle, row by row. *)
Theorem selected_range_denotes_the_bounding_rectangle (columns : list Column)
    (grid : list (list CellData)) (cells : list CellPosition) :
  cells <> [] ->
  Forall (fun p => -1 <= row p /\ 0 <= col p < 26) cells ->
  exists range,
    getSelectedRange (keysOf cells) = Some (Some range)
    /\ getCellsInRange columns grid range
       = flat_map (fun r =>
           map (fun k => getCellValue columns grid (getCellReference r k))
             (zrange (minimum (map col cells)) (maximum (map col cells))))
           (zrange (minimum (map row cells)) (maximum (map row cells))).
Proof.
  intros Hne Hcells.
  destruct (parsed_positions cells) as (positions & Hparse & Hsame).
  assert (positions <> []) as Hpos.
  { destruct cells as [|p cells]; [done|]. intros ->.
    apply (not_elem_of_nil p), Hsame, list_elem_of_here. }
  destruct (extrema_ext row positions cells Hpos Hsame) as [Hminr Hmaxr].
  destruct (extrema_ext col positions cells Hpos Hsame) as [Hminc Hmaxc].
  set (minRow := minimum (map row cells)) in *.
  set (maxRow := maximum (map row cells)) in *.
  set (minCol := minimum (map col cells)) in *.
  set (maxCol := maximum (map col cells)) in *.
  assert (Hbounds : -1 <= minRow <= maxRow /\ 0 <= minCol <= maxCol /\ maxCol < 26).
  { assert (map row cells <> []) as Hr by now destruct cells.
    assert (map col cells <> []) as Hc by now destruct cells.
    destruct (minimum_spec _ Hr) as [Hi1 Hl1], (maximum_spec _ Hr) as [Hj1 Hu1].
    destruct (minimum_spec _ Hc) as [Hi2 Hl2], (maximum_spec _ Hc) as [Hj2 Hu2].
    fold minRow in Hi1, Hl1. fold maxRow in Hj1, Hu1.
    fold minCol in Hi2, Hl2. fold maxCol in Hj2, Hu2.
    pose proof (Hl1 _ Hj1). pose proof (Hl2 _ Hj2).
    rewrite Forall_forall in Hcells.
    change (map ?f) with (fmap (M := list) f) in Hi1, Hi2, Hj2.
    apply list_elem_of_fmap in Hi1 as (p1 & Hp1 & Hin1%Hcells).
    apply list_elem_of_fmap in Hi2 as (p2 & Hp2 & Hin2%Hcells).
    apply list_elem_of_fmap in Hj2 as (p3 & Hp3 & Hin3%Hcells). lia. }
  destruct Hbounds as (Hrows & Hcols & Hz).
  destruct (matchCellRef_getCellReference minRow minCol) as (d1 & Hr1 & Hd1 & Hm1 & Hv1 & Hn1);
    [lia..|].
  destruct (matchCellRef_getCellReference maxRow maxCol) as (d2 & Hr2 & Hd2 & Hm2 & Hv2 & Hn2);
    [lia..|].
  assert (Hsel : getSelectedRange (keysOf cells)
                 = Some (Some (if (minRow =? maxRow) && (minCol =? maxCol)
                               then getCellReference minRow minCol
                               else getCellReference minRow minCol ++ js ":"
                                      ++ getCellReference maxRow maxCol))).
  { unfold getSelectedRange. rewrite decide_False.
    - rewrite Hparse. cbn [mbind option_bind]. rewrite Hminr, Hmaxr, Hminc, Hmaxc.
      now destruct (_ && _).
    - destruct cells as [|p cells]; [done|]. intros Hempty.
      apply (not_elem_of_empty (C := gset jsstring) (cellKey (row p) (col p))).
      rewrite <- Hempty. unfold keysOf. cbn [map list_to_set].
      apply elem_of_union_l, elem_of_singleton. reflexivity. }
  eexists. split; [exact Hsel|].
  destruct (Z.eqb_spec minRow maxRow) as [Her|Hner];
    [destruct (Z.eqb_spec minCol maxCol) as [Hec|Hnec]|]; cbn [andb].
  - rewrite <- Her, <- Hec, !zrange_single. cbn [flat_map map app].
    unfold getCellsInRange.
    assert (includes 58 (getCellReference minRow minCol) = false) as ->.
    { apply not_true_is_false. intros Hin%includes_iff.
      rewrite Forall_forall in Hn1. now apply Hn1 in Hin. }
    reflexivity.
  - rewrite (getCellsInRange_corners _ _ _ _ _ _ _ _ Hm1 Hm2), Hv1, Hv2.
    unfold columnLetterToIndex. cbn [fold_left].
    replace (Z.min (0 * 26 + (65 + minCol - 65 + 1) - 1) (0 * 26 + (65 + maxCol - 65 + 1) - 1))
      with minCol by lia.
    replace (Z.max (0 * 26 + (65 + minCol - 65 + 1) - 1) (0 * 26 + (65 + maxCol - 65 + 1) - 1))
      with maxCol by lia.
    replace (Z.min (minRow + 2) (maxRow + 2)) with (minRow + 2) by lia.
    replace (Z.max (minRow + 2) (maxRow + 2)) with (maxRow + 2) by lia.
    rewrite zrange_shift, flat_map_concat_map, map_map, <- flat_map_concat_map.
    apply flat_map_ext_in. intros r Hr%list_elem_of_In%elem_of_zrange.
    apply map_ext_in. intros k Hk%list_elem_of_In%elem_of_zrange.
    destruct (matchCellRef_getCellReference r k) as (d & -> & -> & _); [lia..|].
    unfold fromCharCode. now rewrite Z.mod_small by lia.
  - rewrite (getCellsInRange_corners _ _ _ _ _ _ _ _ Hm1 Hm2), Hv1, Hv2.
    unfold columnLetterToIndex. cbn [fold_left].
    replace (Z.min (0 * 26 + (65 + minCol - 65 + 1) - 1) (0 * 26 + (65 + maxCol - 65 + 1) - 1))
      with minCol by lia.
    replace (Z.max (0 * 26 + (65 + minCol - 65 + 1) - 1) (0 * 26 + (65 + maxCol - 65 + 1) - 1))
      with maxCol by lia.
    replace (Z.min (minRow + 2) (maxRow + 2)) with (minRow + 2) by lia.
    replace (Z.max (minRow + 2) (maxRow + 2)) with (maxRow + 2) by lia.
    rewrite zrange_shift, flat_map_concat_map, map_map, <- flat_map_concat_map.
    apply flat_map_ext_in. intros r Hr%list_elem_of_In%elem_of_zrange.
    apply map_ext_in. intros k Hk%list_elem_of_In%elem_of_zrange.
    destruct (matchCellRef_getCellReference r k) as (d & -> & -> & _); [lia..|].
    unfold fromCharCode. now rewrite Z.mod_small by lia.
Qed.

Lemma selected_range_denotes_the_bounding_rectangle_witness :
  exists range,
    getSelectedRange (keysOf [ {| row := 2; col := 1 |}; {| row := 0; col := 0 |} ])
      = Some (Some range)
    /\ getCellsInRange sheetColumns (liveGrid sheetMounted) range
       = flat_map (fun r =>
           map (fun k => getCellValue sheetColumns (liveGrid sheetMounted)
                           (getCellReference r k))
             (zrange (minimum (map col [ {| row := 2; col := 1 |}; {| row := 0; col := 0 |} ]))
                     (maximum (map col [ {| row := 2; col := 1 |}; {| row := 0; col := 0 |} ]))))
           (zrange (minimum (map row [ {| row := 2; col := 1 |}; {| row := 0; col := 0 |} ]))
                   (maximum (map row [ {| row := 2; col := 1 |}; {| row := 0; col := 0 |} ]))).
Proof.
  apply (selected_range_denotes_the_bounding_rectangle sheetColumns (liveGrid sheetMounted)
           [ {| row := 2; col := 1 |}; {| row := 0; col := 0 |} ]).
  - discriminate.
  - repeat constructor; cbn; lia.
Defined.

(** Two cells picked with Ctrl, the first and the last of the sheet: the
    range is the whole sheet, and so is what the range expands to. *)
Example range_of_two_picked_cells :
  selectedCells
    (handleCellClick 2 1 {| ctrlKey := true; metaKey := false; shiftKey := false |}
       (handleCellClick 0 0 {| ctrlKey := false; metaKey := false; shiftKey := false |}
          noSelection))
  = keysOf [ {| row := 2; col := 1 |}; {| row := 0; col := 0 |} ]
  /\ getSelectedRange (keysOf [ {| row := 2; col := 1 |}; {| row := 0; col := 0 |} ])
     = Some (Some (js "A2:B4"))
  /\ getCellsInRange sheetColumns (liveGrid sheetMounted) (js "A2:B4")
     = [ VStr (js "B"); VNum (ofZ 20); VStr (js "A"); VNum (ofZ 10);
         VStr (js "C"); VNum (ofZ 30) ]
  /\ getSelectedRange (keysOf [ {| row := -1; col := 1 |} ]) = Some (Some (js "B1"))
  /\ getSelectedRange ∅ = Some None.
Proof.
  split.
  { apply set_eq. intros key. unfold handleCellClick, keysOf, noSelection.
    cbn [ctrlKey metaKey shiftKey orb selectedCells selectedCell map list_to_set row col].
    rewrite bool_decide_eq_false_2.
    - rewrite !elem_of_union, !elem_of_singleton, elem_of_empty. tauto.
    - rewrite elem_of_singleton. intros [? ?]%cellKey_inj. lia. }
  repeat split; vm_compute; reflexivity.
Qed.

(** ** Undo and the names of the columns *)

Lemma applyCallbacks_app (calls1 calls2 : list Callback) (data : Page.TableData) :
  applyCallbacks (calls1 ++ calls2) data
  = applyCallbacks calls1 data ≫= applyCallbacks calls2.
Proof.
  unfold applyCallbacks. rewrite fold_left_app.
  destruct (fold_left _ calls1 (Some data)) as [data1|]; [done|]. cbn.
  induction calls2 as [|call calls2 IH]; [done|]. exact IH.
Qed.

Section RenameFacts.

(** The renames asked for the columns from position [k] on. *)
Let renamesFrom (k : nat) (columns recorded : list Column) : list Callback :=
  mjoin (imap (fun index col =>
           match columns !! index with
           | Some current =>
               if decide (name col = name current) then []
               else [onHeaderChange (Z.of_nat (k + index)) (name col)]
           | None => [onHeaderChange (Z.of_nat (k + index)) (name col)]
           end) recorded).

(** A column with the name of the first and the key of the second. *)
Let renamed (col current : Column) : Column := {| name := name col; key := key current |}.

Lemma renamesFrom_apply (recorded columns prefix : list Column)
    (items : list (gmap jsstring jsval)) :
  (length recorded <= length columns)%nat ->
  applyCallbacks (renamesFrom (length prefix) columns recorded)
    {| Page.columns := prefix ++ columns; Page.items := items |}
  = Some {| Page.columns :=
              prefix ++ zip_with renamed recorded columns ++ drop (length recorded) columns;
            Page.items := items |}.
Proof.
  revert columns prefix. induction recorded as [|col recorded IH];
    intros [|current columns] prefix Hlen; try done; try (cbn in Hlen; lia).
  cbn [length] in Hlen.
  assert (Hstep : applyCallbacks
                    (if decide (name col = name current) then []
                     else [onHeaderChange (Z.of_nat (length prefix + 0)) (name col)])
                    {| Page.columns := prefix ++ current :: columns; Page.items := items |}
                  = Some {| Page.columns := (prefix ++ [renamed col current]) ++ columns;
                            Page.items := items |}).
  { rewrite <- app_assoc. cbn [app]. destruct (decide (name col = name current)) as [Heq|_].
    - cbn. do 3 f_equal. subst renamed. cbn. rewrite Heq. now destruct current.
    - unfold applyCallbacks. cbn [fold_left mbind option_bind applyCallback].
      unfold Page.handleHeaderChange. cbn [Page.columns Page.items].
      assert (at_ (prefix ++ current :: columns) (Z.of_nat (length prefix + 0))
              = Some current) as ->.
      { apply at_Some. split; [lia|]. rewrite Nat2Z.id, Nat.add_0_r.
        now apply list_lookup_middle. }
      rewrite Nat2Z.id. now rewrite (insert_app_r prefix (current :: columns) 0). }
  unfold renamesFrom. cbn [imap mjoin list_join lookup list_lookup].
  rewrite applyCallbacks_app, Hstep. cbn [mbind option_bind].
  assert (length recorded <= length columns)%nat as Hlen' by lia.
  specialize (IH columns (prefix ++ [renamed col current]) Hlen').
  unfold renamesFrom in IH. rewrite length_app in IH. cbn [length] in IH.
  cbn [zip_with drop app length].
  replace (prefix ++ renamed col current
             :: zip_with renamed recorded columns ++ drop (length recorded) columns)
    with ((prefix ++ [renamed col current])
            ++ zip_with renamed recorded columns ++ drop (length recorded) columns)
    by now rewrite <- app_assoc.
  rewrite <- IH. f_equal. f_equal. apply imap_ext. intros index col' _. cbn.
  replace (length prefix + 1 + index)%nat with (length prefix + S index)%nat by lia.
  reflexivity.
Qed.

Lemma restoreNames_apply (data : Page.TableData) (recorded : list Column) :
  (length recorded <= length (Page.columns data))%nat ->
  exists data',
    applyCallbacks (restoreNames (Page.columns data) recorded) data = Some data'
    /\ map name (Page.columns data')
       = map name recorded ++ drop (length recorded) (map name (Page.columns data))
    /\ map key (Page.columns data') = map key (Page.columns data)
    /\ Page.items data' = Page.items data.
Proof.
  intros Hlen. destruct data as [columns items]. cbn [Page.columns Page.items] in *.
  pose proof (renamesFrom_apply recorded columns [] items Hlen) as Happly.
  cbn [app length] in Happly. eexists. split; [exact Happly|].
  cbn [Page.columns Page.items]. split; [|split; [|done]].
  - clear Happly. revert columns Hlen. induction recorded as [|col recorded IH];
      intros columns Hlen; [reflexivity|].
    destruct columns as [|current columns]; [cbn in Hlen; lia|].
    cbn in *. f_equal. apply IH. lia.
  - clear Happly. revert columns Hlen. induction recorded as [|col recorded IH];
      intros columns Hlen; [reflexivity|].
    destruct columns as [|current columns]; [cbn in Hlen; lia|].
    cbn in *. f_equal. apply IH. lia.
Qed.

End RenameFacts.

(** An undo asks the page for renames by position.  Where the snapshot it
    restores records no more columns than the page has, the renames give
    the columns at the recorded positions the recorded names and leave the
    names of the columns behind them; the keys and the items are
    unchanged, and the grid is a copy of the snapshot. *)
Theorem undo_restores_recorded_names (data : Page.TableData) (c : GridState) (σ : Store)
    (snapshot : HistoryState) :
  0 < historyIndex c ->
  at_ (history c) (historyIndex c - 1) = Some snapshot ->
  (length (hist_columns snapshot) <= length (Page.columns data))%nat ->
  exists data',
    applyCallbacks (callbacks (undo (Page.columns data) c σ)) data = Some data'
    /\ map name (Page.columns data')
       = map name (hist_columns snapshot)
         ++ drop (length (hist_columns snapshot)) (map name (Page.columns data))
    /\ map key (Page.columns data') = map key (Page.columns data)
    /\ Page.items data' = Page.items data
    /\ liveGrid (next (undo (Page.columns data) c σ), store (undo (Page.columns data) c σ))
       = jsonGrid (hist_gridData snapshot).
Proof.
  intros Hpos Hsnap Hlen. unfold undo.
  destruct (Z.ltb_spec 0 (historyIndex c)); [|lia]. rewrite Hsnap.
  destruct (restoreNames_apply data (hist_columns snapshot) Hlen)
    as (data' & Happly & Hnames & Hkeys & Hitems).
  exists data'. rewrite restore_grid. now cbn [restore callbacks].
Qed.

(** The sheet after a column has been inserted in front of its second
    column: the page has three columns, the snapshot to restore two. *)
Lemma undo_restores_recorded_names_witness :
  let inserted :=
    insertColumnLeft (H := inertHost) sheetColumns 1700000000000 1
      sheetMounted.1 sheetMounted.2 in
  let data :=
    applyParentCall inserted.2
      {| Page.columns := sheetColumns; Page.items := sheetItems |} in
  let c := next inserted.1 in
  let σ := store inserted.1 in
  let snapshot := {| hist_gridData := liveGrid sheetMounted;
                     hist_columns := sheetColumns |} in
  exists data',
    applyCallbacks (callbacks (undo (Page.columns data) c σ)) data = Some data'
    /\ map name (Page.columns data')
       = map name (hist_columns snapshot)
         ++ drop (length (hist_columns snapshot)) (map name (Page.columns data))
    /\ map key (Page.columns data') = map key (Page.columns data)
    /\ Page.items data' = Page.items data
    /\ liveGrid (next (undo (Page.columns data) c σ), store (undo (Page.columns data) c σ))
       = jsonGrid (hist_gridData snapshot).
Proof.
  apply (undo_restores_recorded_names
           (applyParentCall
              (insertColumnLeft (H := inertHost) sheetColumns 1700000000000 1
                 sheetMounted.1 sheetMounted.2).2
              {| Page.columns := sheetColumns; Page.items := sheetItems |})
           (next (insertColumnLeft (H := inertHost) sheetColumns 1700000000000 1
                    sheetMounted.1 sheetMounted.2).1)
           (store (insertColumnLeft (H := inertHost) sheetColumns 1700000000000 1
                     sheetMounted.1 sheetMounted.2).1)
           {| hist_gridData := liveGrid sheetMounted; hist_columns := sheetColumns |}).
  - reflexivity.
  - reflexivity.
  - apply Nat.leb_le. reflexivity.
Defined.

(** There the undo brings back rows of two cells, while the page keeps its
    three columns, now named Product, 2020 and 2020. *)
Example undo_after_column_insert_on_sheet :
  let inserted :=
    insertColumnLeft (H := inertHost) sheetColumns 1700000000000 1
      sheetMounted.1 sheetMounted.2 in
  let data :=
    applyParentCall inserted.2
      {| Page.columns := sheetColumns; Page.items := sheetItems |} in
  let undone := undo (Page.columns data) (next inserted.1) (store inserted.1) in
  map name (Page.columns data) = [js "Product"; []; js "2020"]
  /\ callbacks undone = [onHeaderChange 1 (js "2020")]
  /\ (fun data' => map name (Page.columns data')) <$> applyCallbacks (callbacks undone) data
     = Some [js "Product"; js "2020"; js "2020"]
  /\ liveGrid (next undone, store undone) = liveGrid sheetMounted.
Proof. repeat split; reflexivity. Qed.

(** The sheet with its first cell set in bold, under a page whose first
    column has been renamed since. *)
Example undo_renames_a_renamed_column :
  (fun data' => map name (Page.columns data'))
    <$> applyCallbacks
          (callbacks (undo [ {| name := js "Item"; key := js "product" |};
                             {| name := js "2020"; key := js "y2020" |} ]
                        sheetFormatted.1 sheetFormatted.2))
          {| Page.columns := [ {| name := js "Item"; key := js "product" |};
                               {| name := js "2020"; key := js "y2020" |} ];
             Page.items := sheetItems |}
  = Some [js "Product"; js "2020"].
Proof. reflexivity. Qed.

(** The one rename that undo asks for there. *)
Example undo_renames_on_sheet :
  callbacks
    (undo [ {| name := js "Item"; key := js "product" |};
            {| name := js "2020"; key := js "y2020" |} ]
       sheetFormatted.1 sheetFormatted.2)
  = [onHeaderChange 0 (js "Product")].
Proof. reflexivity. Qed.

(** ** A function over the selection *)

Lemma slice_tail {A} (x : A) (l : list A) :
  slice 1 (Z.of_nat (length (x :: l))) (x :: l) = l.
Proof.
  unfold slice, sliceIndex. cbn [length].
  destruct (Z.ltb_spec 1 0); [lia|].
  destruct (Z.ltb_spec (Z.of_nat (S (length l))) 0); [lia|].
  replace (Z.to_nat (Z.min 1 (Z.of_nat (S (length l))))) with 1%nat by lia.
  replace (Z.to_nat (Z.min (Z.of_nat (S (length l))) (Z.of_nat (S (length l)))
                     - Z.min 1 (Z.of_nat (S (length l))))) with (length l) by lia.
  cbn [drop]. apply firstn_all.
Qed.

(** The bounding box of some cells of a sheet lies in the sheet. *)
Lemma bounding_box_within (rowCount columnCount : Z) (cells : list CellPosition) :
  cells <> [] ->
  Forall (fun p => 0 <= row p < rowCount /\ 0 <= col p < columnCount) cells ->
  0 <= minimum (map row cells) <= maximum (map row cells)
  /\ maximum (map row cells) < rowCount
  /\ 0 <= minimum (map col cells) <= maximum (map col cells)
  /\ maximum (map col cells) < columnCount.
Proof.
  intros Hne Hcells.
  assert (map row cells <> []) as Hr by now destruct cells.
  assert (map col cells <> []) as Hc by now destruct cells.
  destruct (minimum_spec _ Hr) as [Hi1 Hl1], (maximum_spec _ Hr) as [Hj1 Hu1].
  destruct (minimum_spec _ Hc) as [Hi2 Hl2], (maximum_spec _ Hc) as [Hj2 Hu2].
  pose proof (Hl1 _ Hj1). pose proof (Hl2 _ Hj2).
  rewrite Forall_forall in Hcells.
  change (map ?f) with (fmap (M := list) f) in Hi1, Hi2, Hj1, Hj2.
  apply list_elem_of_fmap in Hi1 as (p1 & Hp1 & Hin1%Hcells).
  apply list_elem_of_fmap in Hi2 as (p2 & Hp2 & Hin2%Hcells).
  apply list_elem_of_fmap in Hj1 as (p3 & Hp3 & Hin3%Hcells).
  apply list_elem_of_fmap in Hj2 as (p4 & Hp4 & Hin4%Hcells).
  change (fmap (M := list) ?f) with (map f) in *. lia.
Qed.

(** The range of a selection that is not empty is a string that is not
    empty, made of the corners of the bounding box of the selected cells. *)
Lemma getSelectedRange_keysOf (cells : list CellPosition) :
  cells <> [] ->
  exists positions c rest,
    mapM parseKey (elements (keysOf cells)) = Some positions
    /\ getSelectedRange (keysOf cells) = Some (Some (c :: rest))
    /\ minimum (map row positions) = minimum (map row cells)
    /\ maximum (map row positions) = maximum (map row cells)
    /\ minimum (map col positions) = minimum (map col cells)
    /\ maximum (map col positions) = maximum (map col cells).
Proof.
  intros Hne.
  destruct (parsed_positions cells) as (positions & Hparse & Hsame).
  assert (positions <> []) as Hpos.
  { destruct cells as [|p cells]; [done|]. intros ->.
    apply (not_elem_of_nil p), Hsame, list_elem_of_here. }
  destruct (extrema_ext row positions cells Hpos Hsame) as [Hminr Hmaxr].
  destruct (extrema_ext col positions cells Hpos Hsame) as [Hminc Hmaxc].
  exists positions. unfold getSelectedRange. rewrite decide_False.
  - rewrite Hparse. cbn [mbind option_bind]. rewrite Hminr, Hmaxr, Hminc, Hmaxc.
    unfold getCellReference, fromCharCode. destruct (_ && _); cbn [app]; eauto 10.
  - destruct cells as [|p cells]; [done|]. intros Hempty.
    apply (not_elem_of_empty (C := gset jsstring) (cellKey (row p) (col p))).
    rewrite <- Hempty. unfold keysOf. cbn [map list_to_set].
    apply elem_of_union_l, elem_of_singleton. reflexivity.
Qed.

(** Writing a cell that exists, through its row array: the cell is
    replaced, no other cell of the grid changes, and no row array but the
    one written changes. *)
Lemma write_through_row (σ : Store) (rows : list loc) (row col : Z) (old : CellData) :
  NoDup rows ->
  cellAt (cellsOf σ rows) row col = Some old ->
  exists l,
    at_ rows row = Some l
    /\ at_ (rowAt σ l) col = Some old
    /\ forall new,
         assignAt col new (rowAt σ l) = Some (<[ Z.to_nat col := new ]> (rowAt σ l))
         /\ let σ' := <[ l := <[ Z.to_nat col := new ]> (rowAt σ l) ]> σ in
            cellAt (cellsOf σ' rows) row col = Some new
            /\ (forall r k, (r, k) <> (row, col) ->
                  cellAt (cellsOf σ' rows) r k = cellAt (cellsOf σ rows) r k)
            /\ (forall others, l ∉ others -> cellsOf σ' others = cellsOf σ others).
Proof.
  intros Hdup Hold.
  pose proof Hold as Hat. apply cellAt_cellsOf in Hat as (l & Hrow & Hcell).
  exists l. split; [done|]. split; [done|]. intros new.
  destruct (writeCell_frame rows σ row col (fun _ => new) old Hdup Hold)
    as (σ' & Hwrite & _ & Hnew & Hframe).
  unfold writeCell in Hwrite. rewrite Hrow, Hcell in Hwrite. injection Hwrite as <-.
  split; [unfold assignAt; now rewrite Hcell|].
  cbn zeta. split; [done|]. split; [done|].
  intros others Hout. unfold cellsOf. apply map_ext_in. intros l' Hl'%list_elem_of_In.
  assert (l < length σ)%nat as Hl.
  { unfold rowAt in Hcell. destruct (σ !! l) eqn:Hσ; [now apply lookup_lt_Some in Hσ|].
    cbn in Hcell. unfold at_ in Hcell. now destruct (col <? 0). }
  rewrite rowAt_insert by done. destruct (decide (l = l')) as [<-|]; done.
Qed.

Lemma newestSnapshot_saveToHistory (columns : list Column) (c s : GridState) (σ : Store) :
  newestSnapshot (saveToHistory columns c σ s) = Some (jsonGrid (cellsOf σ (gridData c))).
Proof. unfold newestSnapshot, saveToHistory. cbn. now rewrite last_snoc. Qed.

Lemma cellAt_Some (grid : list (list CellData)) (row col : Z) :
  0 <= row < Z.of_nat (length grid) ->
  Forall (fun cells => 0 <= col < Z.of_nat (length cells)) grid ->
  is_Some (cellAt grid row col).
Proof.
  intros Hrow Hgrid. unfold cellAt.
  destruct (lookup_lt_is_Some_2 grid (Z.to_nat row)) as [cells Hcells]; [lia|].
  rewrite (proj2 (at_Some grid row cells)) by (split; [lia|done]).
  rewrite Forall_forall in Hgrid.
  pose proof (Hgrid _ (list_elem_of_lookup_2 _ _ _ Hcells)) as Hlen.
  destruct (lookup_lt_is_Some_2 cells (Z.to_nat col)) as [cell Hcell]; [lia|].
  exists cell. apply at_Some. split; [lia|done].
Qed.

Lemma cellAt_more_rows (grid extra : list (list CellData)) (r k : Z) (cell : CellData) :
  cellAt grid r k = Some cell -> cellAt (grid ++ extra) r k = Some cell.
Proof.
  unfold cellAt. destruct (at_ grid r) as [cells|] eqn:Hr; [|done]. intros Hk.
  apply at_Some in Hr as [Hr0 Hr].
  now rewrite (proj2 (at_Some (grid ++ extra) r cells))
    by (split; [done|now apply lookup_app_l_Some]).
Qed.

Lemma cellAt_more_columns (grid : list (list CellData)) (extra : list CellData)
    (r k : Z) (cell : CellData) :
  cellAt grid r k = Some cell ->
  cellAt (map (fun cells => cells ++ extra) grid) r k = Some cell.
Proof.
  unfold cellAt. rewrite at_map. destruct (at_ grid r) as [cells|]; [|done]. cbn.
  intros [Hk0 Hk]%at_Some. apply at_Some. split; [done|now apply lookup_app_l_Some].
Qed.

(** A function applied to selected data cells of a rectangular sheet puts
    its formula and the result, computed on the grid of the render, into
    the cell to the right of a selection that is at least as wide as high
    and below any other, and selects that cell.  No other cell changes; the
    grid stays rectangular, with one cell per column of the page after the
    columns asked of it; and the snapshot recorded holds the result only
    when the target was a cell of the grid already: when a row or a column
    was added for it, the snapshot is the grid before the call. *)
Theorem function_result_lands_beside_selection `{Platform} (columns : list Column)
    (items : list (gmap jsstring jsval)) (functionName : jsstring)
    (cells : list CellPosition) (s : SelectionState) (c : GridState) (σ : Store) :
  wellFormed (c, σ) ->
  rectangular (length columns) (liveGrid (c, σ)) ->
  cells <> [] ->
  Forall (fun p => 0 <= row p < Z.of_nat (length (gridData c))
                   /\ 0 <= col p < Z.of_nat (length columns)) cells ->
  selectedCells s = keysOf cells ->
  let minRow := minimum (map row cells) in
  let maxRow := maximum (map row cells) in
  let minCol := minimum (map col cells) in
  let maxCol := maximum (map col cells) in
  let wide := (maxRow - minRow) <=? (maxCol - minCol) in
  let targetRow := if wide then minRow else maxRow + 1 in
  let targetCol := if wide then maxCol + 1 else minCol in
  let inside :=
    (targetRow <? Z.of_nat (length (gridData c)))
    && (targetCol <? Z.of_nat (length columns)) in
  let before := liveGrid (c, σ) in
  exists range a,
    getSelectedRange (selectedCells s) = Some (Some range)
    /\ applyFunctionToSelection columns functionName s c σ = Some a
    /\ threw (appliedOutcome a) = false
    /\ selectedCell (appliedSelection a) = Some {| row := targetRow; col := targetCol |}
    /\ selectedCells (appliedSelection a) = {[ cellKey targetRow targetCol ]}
    /\ let after := liveGrid (next (appliedOutcome a), store (appliedOutcome a)) in
       cellAt after targetRow targetCol
       = Some {| value :=
                   result (evaluateFormula columns before
                             (functionName ++ js "(" ++ range ++ js ")"));
                 formula := Some (js "=" ++ functionName ++ js "(" ++ range ++ js ")");
                 format :=
                   Some (default emptyFormat (cellAt before targetRow targetCol ≫= format)) |}
       /\ (forall r k cell,
             (r, k) <> (targetRow, targetCol) ->
             cellAt before r k = Some cell -> cellAt after r k = Some cell)
       /\ rectangular
            (length (Page.columns
                       (fold_left (fun data call => applyParentCall call data)
                          (appliedCalls a)
                          {| Page.columns := columns; Page.items := items |})))
            after
       /\ newestSnapshot (next (appliedOutcome a))
          = Some (jsonGrid (if inside then after else before)).
Proof.
  intros [Hdup Hin] Hrect Hne Hcells Hs minRow maxRow minCol maxCol wide targetRow targetCol
    inside before.
  destruct (bounding_box_within _ _ cells Hne Hcells) as (Hr & Hr' & Hk & Hk').
  fold minRow maxRow in Hr, Hr'. fold minCol maxCol in Hk, Hk'.
  destruct (getSelectedRange_keysOf cells Hne)
    as (positions & ch & rest & Hparse & Hsel & Hminr & Hmaxr & Hminc & Hmaxc).
  exists (ch :: rest). rewrite Hs.
  unfold applyFunctionToSelection. rewrite Hs, Hsel, Hparse. cbn [mbind option_bind].
  rewrite Hminr, Hmaxr, Hminc, Hmaxc.
  fold minRow maxRow minCol maxCol. fold wide. fold targetRow targetCol.
  assert (Htr : 0 <= targetRow <= Z.of_nat (length (gridData c))).
  { unfold targetRow. destruct wide; lia. }
  assert (Htc : 0 <= targetCol <= Z.of_nat (length columns)).
  { unfold targetCol. destruct wide; lia. }
  assert (Hone : targetRow < Z.of_nat (length (gridData c))
                 \/ targetCol < Z.of_nat (length columns)).
  { unfold targetRow, targetCol. destruct wide; lia. }
  clearbody targetRow targetCol. clear Hr Hr' Hk Hk' Hminr Hmaxr Hminc Hmaxc.
  cbn [fst snd] in *.
  destruct (Z.leb_spec (Z.of_nat (length (gridData c))) targetRow) as [HR|HR];
    destruct (Z.leb_spec (Z.of_nat (length columns)) targetCol) as [HC|HC]; [lia| | |].
  - (* a row is pushed for the result *)
    assert (targetRow = Z.of_nat (length (gridData c))) as Hlast by lia.
    set (σ1 := σ ++ [replicate (length columns) emptyCell]).
    set (updated := gridData c ++ [length σ]).
    assert (Hgrid : cellsOf σ1 updated = before ++ [replicate (length columns) emptyCell]).
    { unfold cellsOf, updated. rewrite map_app. f_equal.
      - apply (cellsOf_app σ _ (gridData c) Hin).
      - cbn [map]. unfold rowAt, σ1. now rewrite list_lookup_middle. }
    assert (Hrows : length before = length (gridData c))
      by (unfold before, liveGrid, cellsOf; apply length_map).
    assert (Hdup2 : NoDup updated).
    { apply NoDup_app. split; [done|]. split; [|apply NoDup_singleton].
      intros l' Hl' ->%list_elem_of_singleton.
      rewrite Forall_forall in Hin. apply Hin in Hl'. lia. }
    assert (Hcell0 : cellAt (cellsOf σ1 updated) targetRow targetCol = Some emptyCell).
    { rewrite Hgrid. unfold cellAt.
      rewrite (proj2 (at_Some _ targetRow (replicate (length columns) emptyCell))).
      - apply at_Some. split; [lia|]. apply lookup_replicate_2. lia.
      - split; [lia|]. rewrite Hlast, Nat2Z.id, <- Hrows. now apply list_lookup_middle. }
    destruct (write_through_row σ1 updated targetRow targetCol emptyCell Hdup2 Hcell0)
      as (l & Hl & Hold & Hw).
    assert (Hfresh : l = length σ).
    { apply at_Some in Hl as [_ Hl]. unfold updated in Hl.
      rewrite Hlast, Nat2Z.id, list_lookup_middle in Hl by done. congruence. }
    destruct (Z.leb_spec 0 targetRow); [|lia].
    destruct (Z.leb_spec 0 targetCol); [|lia].
    destruct (Z.ltb_spec targetRow (Z.of_nat (length updated)));
      [|unfold updated in *; rewrite length_app in *; cbn [length] in *; lia].
    destruct (Z.ltb_spec targetCol (Z.of_nat (length columns))); [|lia].
    cbn [andb]. rewrite Hl. cbn [mbind option_bind]. rewrite Hold. cbn [mbind option_bind].
    match goal with
    | |- context [assignAt targetCol ?cell _] =>
        set (new := cell); destruct (Hw new) as (-> & Hnew & Hframe & Hothers)
    end.
    cbn [mbind option_bind]. eexists. do 5 (split; [reflexivity|]).
    cbn [appliedOutcome appliedCalls fold_left next store finished Page.columns].
    rewrite newestSnapshot_saveToHistory.
    match goal with
    | |- context [saveToHistory columns c ?s1 ?s] =>
        assert (gridData (saveToHistory columns c s1 s) = updated) as Hg
          by (destruct (Z.of_nat (length (rowHeights c)) <=? targetRow); reflexivity)
    end.
    unfold liveGrid. cbn [fst snd]. rewrite Hg.
    assert (Hsame : cellsOf σ1 (gridData c) = before) by apply (cellsOf_app σ _ _ Hin).
    split; [|split; [|split]].
    + rewrite Hnew. unfold new. rewrite Hsame. change (js "=" ++ ?text) with (61 :: text). rewrite slice_tail.
      unfold cellAt at 1.
      assert (at_ before targetRow = None) as ->; [|done].
      unfold at_. destruct (targetRow <? 0); [done|]. apply lookup_ge_None. lia.
    + intros r k cell Hne' Hcell. rewrite Hframe, Hgrid by done.
      now apply cellAt_more_rows.
    + apply rectangular_write. rewrite Hgrid. apply Forall_app. split; [done|].
      apply Forall_cons. split; [apply length_replicate|done].
    + unfold inside. destruct (Z.ltb_spec targetRow (Z.of_nat (length (gridData c)))); [lia|].
      cbn [andb]. rewrite Hothers, Hsame; [done|]. rewrite Hfresh. intros Hl'.
      rewrite Forall_forall in Hin. apply Hin in Hl'. lia.
  - (* a column is added for the result *)
    assert (targetCol = Z.of_nat (length columns)) as Hlast by lia.
    pose proof Hrect as Hall. unfold rectangular in Hall. rewrite Forall_forall in Hall.
    replace (Z.to_nat (targetCol - Z.of_nat (length columns) + 1)) with 1%nat by lia.
    replace (Z.of_nat (length columns) + (targetCol - Z.of_nat (length columns) + 1) - 1)
      with (Z.of_nat (length columns)) by lia.
    rewrite zrange_single. cbn [replicate map].
    change (cellsOf σ (gridData c)) with before.
    set (grid := map (fun cells0 => cells0 ++ [emptyCell]) before).
    pose proof (cellsOf_alloc σ grid) as Hgrid.
    pose proof (wellFormed_alloc σ grid c) as [Hdup2 _].
    assert (Hstore : (allocRows σ grid).1 = σ ++ grid) by reflexivity.
    assert (Hnew_rows : Forall (fun l => (length σ <= l)%nat) (allocRows σ grid).2).
    { apply Forall_forall. intros l Hl%elem_of_seq. lia. }
    assert (Hcount : length (allocRows σ grid).2 = length (gridData c)).
    { unfold allocRows, grid, before, liveGrid, cellsOf. cbn [fst snd].
      now rewrite length_seq, !length_map. }
    destruct (allocRows σ grid) as [σ2 updated]. cbn [fst snd] in *. subst σ2.
    set (σ2 := σ ++ grid) in *.
    assert (Hcell0 : cellAt (cellsOf σ2 updated) targetRow targetCol = Some emptyCell).
    { rewrite Hgrid. unfold cellAt, grid. rewrite at_map.
      destruct (lookup_lt_is_Some_2 before (Z.to_nat targetRow)) as [cells0 Hcells0].
      { unfold before, liveGrid, cellsOf. cbn [fst snd]. rewrite length_map. lia. }
      rewrite (proj2 (at_Some before targetRow cells0)) by (split; [lia|done]). cbn.
      apply at_Some. split; [lia|].
      pose proof (Hall _ (list_elem_of_lookup_2 _ _ _ Hcells0)) as Hlen.
      rewrite Hlast, Nat2Z.id, <- Hlen. now apply list_lookup_middle. }
    destruct (write_through_row σ2 updated targetRow targetCol emptyCell Hdup2 Hcell0)
      as (l & Hl & Hold & Hw).
    destruct (Z.leb_spec 0 targetRow); [|lia].
    destruct (Z.leb_spec 0 targetCol); [|lia].
    destruct (Z.ltb_spec targetRow (Z.of_nat (length updated))); [|lia].
    destruct (Z.ltb_spec targetCol (targetCol + 1)); [|lia].
    cbn [andb]. rewrite Hl. cbn [mbind option_bind]. rewrite Hold. cbn [mbind option_bind].
    match goal with
    | |- context [assignAt targetCol ?cell _] =>
        set (new := cell); destruct (Hw new) as (-> & Hnew & Hframe & Hothers)
    end.
    cbn [mbind option_bind]. eexists. do 5 (split; [reflexivity|]).
    cbn [appliedOutcome appliedCalls fold_left next store finished applyParentCall
         Page.handleAddColumns Page.columns].
    rewrite newestSnapshot_saveToHistory.
    match goal with
    | |- context [saveToHistory columns c ?s1 ?s] =>
        assert (gridData (saveToHistory columns c s1 s) = updated) as Hg
          by (destruct (Z.of_nat (length (rowHeights c)) <=? targetRow); reflexivity)
    end.
    unfold liveGrid. cbn [fst snd]. rewrite Hg.
    assert (Hsame : cellsOf σ2 (gridData c) = before) by apply (cellsOf_app σ _ _ Hin).
    split; [|split; [|split]].
    + rewrite Hnew. unfold new. rewrite Hsame. change (js "=" ++ ?text) with (61 :: text). rewrite slice_tail.
      assert (cellAt before targetRow targetCol = None) as ->; [|done].
      unfold cellAt. destruct (at_ before targetRow) as [cells0|] eqn:Hcells0; [|done].
      apply at_Some in Hcells0 as [_ Hcells0].
      pose proof (Hall _ (list_elem_of_lookup_2 _ _ _ Hcells0)) as Hlen.
      unfold at_. destruct (targetCol <? 0); [done|]. apply lookup_ge_None. lia.
    + intros r k cell Hne' Hcell. rewrite Hframe, Hgrid by done.
      now apply cellAt_more_columns.
    + apply rectangular_write. rewrite Hgrid. unfold grid. apply Forall_map.
      eapply Forall_impl; [exact Hrect|]. cbn. intros cells0 Hlen.
      rewrite !length_app, Hlen. reflexivity.
    + unfold inside. destruct (Z.ltb_spec targetCol (Z.of_nat (length columns))); [lia|].
      rewrite andb_false_r. rewrite Hothers, Hsame; [done|]. intros Hl'.
      rewrite Forall_forall in Hin, Hnew_rows. apply Hin in Hl'.
      apply at_Some in Hl as [_ Hl]. apply list_elem_of_lookup_2, Hnew_rows in Hl. lia.
  - (* the result goes into a cell of the grid of the render *)
    destruct (cellAt_Some before targetRow targetCol) as [cell0 Hcell0].
    { unfold before, liveGrid, cellsOf. cbn [fst snd]. rewrite length_map. lia. }
    { eapply Forall_impl; [exact Hrect|]. cbn. intros cells0 ->. lia. }
    destruct (write_through_row σ (gridData c) targetRow targetCol cell0 Hdup Hcell0)
      as (l & Hl & Hold & Hw).
    destruct (Z.leb_spec 0 targetRow); [|lia].
    destruct (Z.leb_spec 0 targetCol); [|lia].
    destruct (Z.ltb_spec targetRow (Z.of_nat (length (gridData c)))); [|lia].
    destruct (Z.ltb_spec targetCol (Z.of_nat (length columns))); [|lia].
    cbn [andb]. rewrite Hl. cbn [mbind option_bind]. rewrite Hold. cbn [mbind option_bind].
    match goal with
    | |- context [assignAt targetCol ?cell _] =>
        set (new := cell); destruct (Hw new) as (-> & Hnew & Hframe & Hothers)
    end.
    cbn [mbind option_bind]. eexists. do 5 (split; [reflexivity|]).
    cbn [appliedOutcome appliedCalls fold_left next store finished Page.columns].
    rewrite newestSnapshot_saveToHistory.
    match goal with
    | |- context [saveToHistory columns c ?s1 ?s] =>
        assert (gridData (saveToHistory columns c s1 s) = gridData c) as Hg
          by (destruct (Z.of_nat (length (rowHeights c)) <=? targetRow); reflexivity)
    end.
    unfold liveGrid. cbn [fst snd]. rewrite Hg.
    split; [|split; [|split]].
    + rewrite Hnew. unfold new. change (js "=" ++ ?text) with (61 :: text). rewrite slice_tail.
      fold (liveGrid (c, σ)). fold before. now rewrite Hcell0.
    + intros r k cell Hne' Hcell. now rewrite Hframe.
    + apply rectangular_write, Hrect.
    + unfold inside.
      destruct (Z.ltb_spec targetRow (Z.of_nat (length (gridData c)))); [|lia].
      destruct (Z.ltb_spec targetCol (Z.of_nat (length columns))); [|lia]. reflexivity.
Qed.

Lemma function_result_lands_beside_selection_witness :
  let cells := [ {| row := 0; col := 1 |}; {| row := 2; col := 1 |} ] in
  let s := {| selectedCell := Some {| row := 2; col := 1 |};
              selectedRange := None;
              selectedCells := keysOf cells;
              editingCell := None |} in
  let before := liveGrid (sheetMounted.1, sheetMounted.2) in
  exists range a,
    getSelectedRange (selectedCells s) = Some (Some range)
    /\ applyFunctionToSelection (H := inertHost) sheetColumns (js "SUM") s
         sheetMounted.1 sheetMounted.2 = Some a
    /\ threw (appliedOutcome a) = false
    /\ selectedCell (appliedSelection a) = Some {| row := 3; col := 1 |}
    /\ selectedCells (appliedSelection a) = {[ cellKey 3 1 ]}
    /\ let after := liveGrid (next (appliedOutcome a), store (appliedOutcome a)) in
       cellAt after 3 1
       = Some {| value :=
                   result (evaluateFormula (H := inertHost) sheetColumns before
                             (js "SUM" ++ js "(" ++ range ++ js ")"));
                 formula := Some (js "=" ++ js "SUM" ++ js "(" ++ range ++ js ")");
                 format := Some (default emptyFormat (cellAt before 3 1 ≫= format)) |}
       /\ (forall r k cell,
             (r, k) <> (3, 1) ->
             cellAt before r k = Some cell -> cellAt after r k = Some cell)
       /\ rectangular
            (length (Page.columns
                       (fold_left (fun data call => applyParentCall call data)
                          (appliedCalls a)
                          {| Page.columns := sheetColumns; Page.items := sheetItems |})))
            after
       /\ newestSnapshot (next (appliedOutcome a)) = Some (jsonGrid before).
Proof.
  apply (function_result_lands_beside_selection (H := inertHost) sheetColumns sheetItems
           (js "SUM") [ {| row := 0; col := 1 |}; {| row := 2; col := 1 |} ]
           {| selectedCell := Some {| row := 2; col := 1 |};
              selectedRange := None;
              selectedCells := keysOf [ {| row := 0; col := 1 |}; {| row := 2; col := 1 |} ];
              editingCell := None |}
           sheetMounted.1 sheetMounted.2).
  - apply (wellFormed_step (H := inertHost) sheetColumns Mounted), wellFormed_mount.
  - vm_compute. repeat constructor.
  - discriminate.
  - repeat constructor; vm_compute; congruence.
  - reflexivity.
Defined.

(** SUM over the amounts of the sheet: the selection is higher than wide,
    so a row is pushed and the sum goes below the column; the snapshot that
    is recorded is the grid without that row. *)
Example function_below_a_column_on_sheet :
  let s := {| selectedCell := Some {| row := 2; col := 1 |};
              selectedRange := None;
              selectedCells := keysOf [ {| row := 0; col := 1 |}; {| row := 1; col := 1 |};
                                        {| row := 2; col := 1 |} ];
              editingCell := None |} in
  (fun a => (liveGrid (next (appliedOutcome a), store (appliedOutcome a)),
             newestSnapshot (next (appliedOutcome a)),
             rowHeights (next (appliedOutcome a)),
             appliedCalls a))
    <$> applyFunctionToSelection (H := inertHost) sheetColumns (js "SUM") s
          sheetMounted.1 sheetMounted.2
  = Some ([ [sheetCell "B"; amountCell 20]; [sheetCell "A"; amountCell 10];
            [sheetCell "C"; amountCell 30];
            [emptyCell;
             {| value := VNum (ofZ 60); format := Some emptyFormat;
                formula := Some (js "=SUM(B2:B4)") |}] ],
          Some [ [sheetCell "B"; amountCell 20]; [sheetCell "A"; amountCell 10];
                 [sheetCell "C"; amountCell 30] ],
          [40; 40; 40; 40],
          []).
Proof. vm_compute. reflexivity. Qed.

(** SUM over one row of the sheet: the selection is as wide as the sheet,
    so a column is added, to the page and to every row, and the sum goes to
    the right of the row; the snapshot that is recorded is the grid without
    that column. *)
Example function_beside_a_row_on_sheet :
  let s := {| selectedCell := Some {| row := 1; col := 1 |};
              selectedRange := None;
              selectedCells := keysOf [ {| row := 1; col := 0 |}; {| row := 1; col := 1 |} ];
              editingCell := None |} in
  (fun a => (liveGrid (next (appliedOutcome a), store (appliedOutcome a)),
             newestSnapshot (next (appliedOutcome a)),
             columnWidths (next (appliedOutcome a)),
             appliedCalls a))
    <$> applyFunctionToSelection (H := inertHost) sheetColumns (js "SUM") s
          sheetMounted.1 sheetMounted.2
  = Some ([ [sheetCell "B"; amountCell 20; emptyCell];
            [sheetCell "A"; amountCell 10;
             {| value := VNum (ofZ 10); format := Some emptyFormat;
                formula := Some (js "=SUM(A3:B3)") |}];
            [sheetCell "C"; amountCell 30; emptyCell] ],
          Some [ [sheetCell "B"; amountCell 20]; [sheetCell "A"; amountCell 10];
                 [sheetCell "C"; amountCell 30] ],
          columnWidths sheetMounted.1 ++ [150],
          [onAddColumns [ {| name := []; key := js "col_c" |} ]]).
Proof. vm_compute. reflexivity. Qed.

(** SUM over the two header cells: the target is in the header row, so no
    cell is written and the grid is not replaced, but the column has been
    asked of the page and its width added by then: the page has three
    columns over rows of two cells. *)
Example function_over_header_cells_on_sheet :
  let s := {| selectedCell := Some {| row := -1; col := 1 |};
              selectedRange := None;
              selectedCells := keysOf [ {| row := -1; col := 0 |}; {| row := -1; col := 1 |} ];
              editingCell := None |} in
  (fun a => (liveGrid (next (appliedOutcome a), store (appliedOutcome a)),
             length (history (next (appliedOutcome a))),
             columnWidths (next (appliedOutcome a)),
             appliedCalls a,
             appliedSelection a))
    <$> applyFunctionToSelection (H := inertHost) sheetColumns (js "SUM") s
          sheetMounted.1 sheetMounted.2
  = Some (liveGrid sheetMounted,
          length (history sheetMounted.1),
          columnWidths sheetMounted.1 ++ [150],
          [onAddColumns [ {| name := []; key := js "col_c" |} ]],
          s).
Proof. vm_compute. reflexivity. Qed.
